(** * RuleGuardX: the rule analysis engine ([src/engine/analyzer.ts])

    A shallow embedding of [getCidrSize], [parsePorts] and [analyzeRules],
    and the properties of the engine that its specification states.

    Conventions of the embedding.
    - A JavaScript string is a [string]; one [ascii] stands for one code
      unit in the range 0..255 (Latin-1), which is closed under
      [toLowerCase] and contains seven of the white space code units.
    - A JavaScript number that holds an integer is a [Z]; [NaN] is the
      [None] of [option Z].  The source computes on IEEE doubles, which
      represent every integer of magnitude up to 2^53 exactly; CIDR prefix
      lengths, port numbers and scores lie far below that bound.
    - The two fractional computations of the engine (the weight 0.5 of a
      wildcard protocol and the mean score) are carried out in [Q].
    - [Array.prototype.push] appends at the end of a list; the two result
      arrays of [analyzeRules] are threaded through the loop as a record. *)

From Stdlib Require Import ZArith QArith Qround List String Ascii Bool Lia.
From Stdlib Require Import DecimalPos DecimalString.
From stdpp Require Import gmap strings.
Import ListNotations.

Local Open Scope Z_scope.

(** ** The JavaScript built-ins the engine calls *)

Module JS.

(** Code unit of a character. *)
Definition code (c : ascii) : Z := Z.of_N (N_of_ascii c).

(** White space and line terminators, as [String.prototype.trim] and the
    regular expression class [\s] see them: TAB, LF, VT, FF, CR, SP and
    NBSP are the ones below 256. *)
Definition isWhiteSpace (c : ascii) : bool :=
  let n := code c in
  ((9 <=? n) && (n <=? 13)) || (n =? 32) || (n =? 160).

Fixpoint trimStart (s : string) : string :=
  match s with
  | EmptyString => EmptyString
  | String c r => if isWhiteSpace c then trimStart r else s
  end.

Definition isEmpty (s : string) : bool :=
  match s with EmptyString => true | String _ _ => false end.

Fixpoint trimEnd (s : string) : string :=
  match s with
  | EmptyString => EmptyString
  | String c r =>
      let r' := trimEnd r in
      if isWhiteSpace c && isEmpty r' then EmptyString else String c r'
  end.

(** [s.trim()] *)
Definition trim (s : string) : string := trimEnd (trimStart s).

(** Lower-case mapping of one code unit: A-Z, and the Latin-1 capitals
    U+00C0..U+00DE without the multiplication sign U+00D7. *)
Definition lowerChar (c : ascii) : ascii :=
  let n := code c in
  if ((65 <=? n) && (n <=? 90))
     || ((192 <=? n) && (n <=? 222) && negb (n =? 215))
  then ascii_of_N (Z.to_N (n + 32))
  else c.

(** [s.toLowerCase()] *)
Fixpoint toLowerCase (s : string) : string :=
  match s with
  | EmptyString => EmptyString
  | String c r => String (lowerChar c) (toLowerCase r)
  end.

(** [s.includes(c)] for a one-character search string. *)
Fixpoint includes (c : ascii) (s : string) : bool :=
  match s with
  | EmptyString => false
  | String d r => Ascii.eqb d c || includes c r
  end.

(** [s.split(c)] for a one-character separator: never empty, and one
    element longer than the number of separators. *)
Fixpoint split (sep : ascii) (s : string) : list string :=
  match s with
  | EmptyString => [EmptyString]
  | String c r =>
      if Ascii.eqb c sep then EmptyString :: split sep r
      else match split sep r with
           | t :: ts => String c t :: ts
           | [] => [String c EmptyString]
           end
  end.

(** The class [[,\s]] of the separator expression of [parsePorts]. *)
Definition isPortSeparator (c : ascii) : bool :=
  Ascii.eqb c "," || isWhiteSpace c.

(** [s.split(/[,\s]+/)]: the string is cut at every maximal run of
    separator characters.  [inRun] tells that the previous character
    belonged to a run, which the greedy [+] extends.  A leading or
    trailing run leaves an empty first or last piece, and the empty string
    splits into one empty piece, as in JavaScript. *)
Fixpoint splitRun (inRun : bool) (s : string) : list string :=
  match s with
  | EmptyString => [EmptyString]
  | String c r =>
      if isPortSeparator c then
        if inRun then splitRun true r else EmptyString :: splitRun true r
      else match splitRun false r with
           | t :: ts => String c t :: ts
           | [] => [String c EmptyString]
           end
  end.

Definition splitPortSeparators (s : string) : list string := splitRun false s.

(** Value of a decimal digit. *)
Definition digitValue (c : ascii) : option Z :=
  let n := code c in
  if (48 <=? n) && (n <=? 57) then Some (n - 48) else None.

(** The longest prefix of decimal digits, read in radix 10 on top of
    [acc]. *)
Fixpoint parseDigits (acc : Z) (s : string) : Z :=
  match s with
  | EmptyString => acc
  | String c r =>
      match digitValue c with
      | Some d => parseDigits (10 * acc + d) r
      | None => acc
      end
  end.

Definition startsWithDigit (s : string) : bool :=
  match s with
  | EmptyString => false
  | String c _ => match digitValue c with Some _ => true | None => false end
  end.

(** [parseInt(s, 10)]: leading white space is skipped, one sign is
    accepted, then the longest run of digits is read; whatever follows is
    ignored.  Without a digit the result is [NaN]. *)
Definition parseInt (s : string) : option Z :=
  let t := trimStart s in
  let '(sign, body) :=
    match t with
    | String "-" r => (-1, r)
    | String "+" r => (1, r)
    | _ => (1, t)
    end in
  if startsWithDigit body then Some (sign * parseDigits 0 body) else None.

(** [String(n)] for an integer, as a template literal renders it: decimal
    digits behind an optional minus sign. *)
Definition toString (n : Z) : string := NilZero.string_of_int (Z.to_int n).

(** [Math.round(q)]: the nearest integer, a tie going up. *)
Definition Math_round (q : Q) : Z := Qfloor (q + (1 # 2)).

(** [arr.length] *)
Definition length {A} (l : list A) : Z := Z.of_nat (List.length l).

(** [arr.slice(0, n)] *)
Definition slice0 {A} (n : nat) (l : list A) : list A := firstn n l.

(** [arr.includes(x)] on an array of numbers. *)
Definition arrayIncludes (x : Z) (l : list Z) : bool := existsb (Z.eqb x) l.

(** [arr.forEach((x, index) => ...)] with the state the callback updates
    made explicit. *)
Fixpoint forEachFrom {A St} (f : St -> nat -> A -> St) (index : nat)
    (l : list A) (st : St) : St :=
  match l with
  | [] => st
  | x :: r => forEachFrom f (S index) r (f st index x)
  end.

Definition forEach {A St} (f : St -> nat -> A -> St) (l : list A) (st : St) : St :=
  forEachFrom f 0%nat l st.

End JS.

(** ** Data model ([src/types.ts]) *)

Module Protocol.
Inductive t := TCP | UDP | ICMP | ANY | OTHER.
End Protocol.

Module Action.
Inductive t := ALLOW | DENY | OTHER.
End Action.

Module Direction.
Inductive t := INBOUND | OUTBOUND | INTERNAL | UNKNOWN.
End Direction.

Inductive Severity := CRITICAL | HIGH | MEDIUM | LOW | INFORMATIONAL.

(** The category strings of a finding: 'Insecure Port', 'Excessive
    Exposure', 'Subnet Scope', 'Protocol Risk', 'Policy Hygiene' and
    'Correlation Error'. *)
Inductive Category :=
  | Insecure_Port | Excessive_Exposure | Subnet_Scope
  | Protocol_Risk | Policy_Hygiene | Correlation_Error.

#[global] Instance Protocol_eq_dec : EqDecision Protocol.t.
Proof. solve_decision. Defined.
#[global] Instance Action_eq_dec : EqDecision Action.t.
Proof. solve_decision. Defined.
#[global] Instance Direction_eq_dec : EqDecision Direction.t.
Proof. solve_decision. Defined.
#[global] Instance Severity_eq_dec : EqDecision Severity.
Proof. solve_decision. Defined.
#[global] Instance Category_eq_dec : EqDecision Category.
Proof. solve_decision. Defined.

Module InsecurePortSetting.
Record t := mk {
  port : Z;
  label : string;
  criticality : Severity;
  whyInsecure : string;
  enabled : bool
}.
End InsecurePortSetting.

(** [originalRow] has type [any] in the source; the ingestion code stores
    the CSV row there, a header-to-cell object.  The engine never reads it. *)
Module FirewallRule.
Record t := mk {
  id : string;
  name : string;
  source : string;
  destination : string;
  sourcePort : string;
  destinationPort : string;
  service : string;
  protocol : Protocol.t;
  action : Action.t;
  direction : Direction.t;
  zone : option string;
  enabled : bool;
  description : option string;
  originalRow : list (string * string)
}.
End FirewallRule.

Module AnalysisFinding.
Record t := mk {
  ruleId : string;
  ruleName : string;
  category : Category;
  score : Z;
  severity : Severity;
  explanation : string;
  recommendation : string
}.
End AnalysisFinding.

#[global] Instance AnalysisFinding_eq_dec : EqDecision AnalysisFinding.t.
Proof. solve_decision. Defined.

Module Summary.
Record t := mk {
  totalRules : Z;
  enabledRules : Z;
  criticalFindings : Z;
  highFindings : Z;
  mediumFindings : Z;
  lowFindings : Z;
  averageRiskScore : Z
}.
End Summary.

Module AnalysisResults.
Record t := mk {
  rules : list FirewallRule.t;
  findings : list AnalysisFinding.t;
  hygiene : list AnalysisFinding.t;
  summary : Summary.t
}.
End AnalysisResults.

(** ** The knowledge base *)

Module KBEntry.
Record t := mk { explanation : string; recommendation : string }.
End KBEntry.

Module SECURITY_KNOWLEDGE_BASE.

Definition ANY_ANY : KBEntry.t := {|
  KBEntry.explanation := "Critical security control failure. Allowing 'ANY' source, destination, and service creates a 'Transparent Firewall' state. This violates NIST SP 800-53 AC-4 (Information Flow Enforcement) and is the primary vector for MITRE ATT&CK T1133 (External Remote Services). It provides zero resistance to automated reconnaissance and lateral movement.";
  KBEntry.recommendation := "Immediate Remediation Required: Deconstruct the rule into specific micro-segments. Implement explicit 'Allow' lists (CIS Control 4.4) for known-good IP ranges and services only."
|}.

Definition ANY_SOURCE : KBEntry.t := {|
  KBEntry.explanation := "Unrestricted Ingress Exposure. Source 'ANY' implies the rule is reachable from any point in the routed network (often the entire internet). According to SANS/CWE-284, improper access control leads to unauthorized access. This exposure is mapped to MITRE T1595 (Active Scanning) as it provides a target for global scanning botnets.";
  KBEntry.recommendation := "Restrict the source to specific authorized CIDR blocks or Geofenced IP ranges. Implement MFA-backed VPN for remote access (NIST AC-17)."
|}.

Definition ANY_DESTINATION : KBEntry.t := {|
  KBEntry.explanation := "Blast Radius Escalation. Destination 'ANY' permits traffic to potentially traverse into internal management subnets, sensitive database zones, or domain controllers. This bypasses the principle of 'Network Segmentation' (NIST SP 800-125B) and facilitates MITRE T1021 (Remote Services) lateral movement paths.";
  KBEntry.recommendation := "Narrow the destination to the specific IP address or host group required. Audit destination zones to ensure traffic doesn't bridge high-trust and low-trust boundaries."
|}.

Definition LARGE_SUBNET (size : Z) : KBEntry.t := {|
  KBEntry.explanation := "Excessive Blast Radius (/" +:+ JS.toString size +:+ "). A network segment this large (/16 - /22) typically contains hundreds or thousands of hosts. In an enterprise environment, this broad trust relationship facilitates MITRE T1046 (Network Service Discovery) and massive lateral movement (T1021). Large subnets violate the Zero Trust Architecture (ZTA) principle defined in NIST SP 800-207.";
  KBEntry.recommendation := "Segment the network into smaller VLANs/Subnets (typically /24 or smaller). Use host-based firewalling or micro-segmentation to limit peer-to-peer communication within the subnet."
|}.

(** A [Record<number, string>]: the keys of the object literal. *)
Definition PORT_SPECIFIC : gmap Z string := list_to_map [
  (21, "FTP: Legacy cleartext protocol. Susceptible to MITRE T1557.002 (Adversary-in-the-Middle) and CWE-319. Credentials and data are transmitted in plaintext, violating NIST SP 800-52 requirements for protecting sensitive information.");
  (23, "Telnet: Highly insecure administrative protocol. Replaced by SSH (NIST SP 800-53 IA-2). Plaintext transmission of management credentials allows easy interception via MITRE T1040 (Network Sniffing).");
  (445, "SMB/CIFS: Extremely high risk for lateral movement. Associated with MITRE T1021.002 and historic ransomware strains like WannaCry (EternalBlue). CIS Control 12 recommends blocking SMB at network boundaries to prevent NTLM relay attacks and remote file execution.");
  (3389, "RDP: Primary entry point for ransomware. Mapped to MITRE T1133. RDP exposure without NLA or MFA is a critical finding under CIS Control 4. Default configuration allows for brute-force attacks (T1110) and potential exploit of BlueKeep-style vulnerabilities.");
  (22, "SSH: While secure, direct internet exposure is discouraged by CIS Benchmark 1.1. Brute-force (T1110) is common. Should be restricted to Jump Hosts (Bastions) only.");
  (80, "HTTP: Unencrypted web traffic (CWE-319). Allows for session hijacking and credential theft (T1557). OWASP recommends enforcing HTTPS (TLS 1.2+) globally.");
  (3306, "MySQL: Database exposure. Facilitates MITRE T1190 (Exploit Public-Facing Application) and T1534 (Internal Spearphishing for DB access). Direct network access to databases should never cross security zones.");
  (1433, "MSSQL: High-value target for data exfiltration (MITRE T1020). Risk of SQL injection escalation if the listener is exposed to untrusted segments.")
].

Module HYGIENE.

Definition SHADOWING : KBEntry.t := {|
  KBEntry.explanation := "Rule Shadowing (NIST SP 800-41): A critical redundancy issue where a rule is entirely eclipsed by a preceding rule with identical or broader criteria. Shadowed rules are technically unreachable. Performance Impact: Every redundant rule increases the policy lookup latency (linear O(n) search), consuming CPU cycles and memory. Maintenance Impact: Shadowing creates 'Configuration Sprawl' and 'Technical Debt', making it difficult for auditors to determine the intended security posture and increasing the risk of accidental misconfiguration during policy updates.";
  KBEntry.recommendation := "Policy De-duplication: Remove the shadowed rule. Consolidate overlapping rules into single entries using Object Groups (IP Sets/Service Groups) to maintain a lean, high-performance policy base (CIS Control 12)."
|}.

Definition CONFLICT : KBEntry.t := {|
  KBEntry.explanation := "Policy Logic Conflict (Race Condition): Two rules cover the same traffic flow but mandate different actions (Permit vs Deny). While most firewalls use a 'First-Match' algorithm, conflicting rules indicate a lack of deterministic policy design. This ambiguity leads to 'Security Leakage' where a change in rule order accidentally grants unauthorized access. It violates the principle of 'Explicit Intent' and complicates incident response, forensic analysis, and compliance reporting.";
  KBEntry.recommendation := "Standardize Policy Order: Place 'Deny' rules for specific subnets above 'Allow' rules for broader segments (Ordered Filtering). Use an explicit 'Deny All' (Default Deny) at the end of each zone pair to enforce strict boundary control."
|}.

Definition LATENT_RISK : KBEntry.t := {|
  KBEntry.explanation := "Latent Exposure (Dormant High-Risk Rules): This rule is disabled but contains broad 'ANY' criteria or exposes administrative services. According to CIS Control 12, inactive rules should be purged periodically. Disabled rules are often 'temporarily' re-enabled during troubleshooting and forgotten, or leveraged by an adversary who has gained administrative control (MITRE T1562.001 - Impair Defenses) to quickly open backdoors without creating new rule logs.";
  KBEntry.recommendation := "Purge Policy Debt: If a rule has been disabled for more than 90 days (NIST best practice), it should be permanently deleted. Maintain a 'Clean Configuration' to minimize the attack surface available for manipulation."
|}.

End HYGIENE.

End SECURITY_KNOWLEDGE_BASE.

(** ** Scope and port parsers *)

Definition getCidrSize (addr : string) : Z :=
  let clean := JS.toLowerCase (JS.trim addr) in
  if String.eqb clean "any" || String.eqb clean "all"
     || String.eqb clean "0.0.0.0/0" || String.eqb clean "*" then 0
  else if JS.includes "/" clean then
    let parts := JS.split "/" clean in
    (* [parts[1]] exists here; an absent element would read as [NaN] *)
    let cidr := match parts !! 1%nat with
                | Some p => JS.parseInt p
                | None => None
                end in
    match cidr with
    | None => 32
    | Some n => n
    end
  else 32.

(** [for (let i = start; i <= end; i++) result.push(i)].  The recursion is
    on [fuel]; [forRange] below supplies one more than the number of
    iterations the loop makes, so the loop always leaves through its own
    test. *)
Fixpoint pushRange (fuel : nat) (i end_ : Z) (result : list Z) : list Z :=
  match fuel with
  | O => result
  | S fuel' =>
      if i <=? end_ then pushRange fuel' (i + 1) end_ (result ++ [i])
      else result
  end.

Definition forRange (start end_ : Z) (result : list Z) : list Z :=
  pushRange (S (Z.to_nat (end_ - start + 1))) start end_ result.

(** The callback of [parts.forEach] in [parsePorts]. *)
Definition parsePortToken (result : list Z) (p : string) : list Z :=
  if JS.includes "-" p then
    (* [const [start, end] = p.split('-').map(x => parseInt(x.trim(), 10))] *)
    match map (fun x => JS.parseInt (JS.trim x)) (JS.split "-" p) with
    | Some start :: Some end_ :: _ => forRange start end_ result
    | _ => result
    end
  else
    match JS.parseInt p with
    | Some parsed => result ++ [parsed]
    | None => result
    end.

Definition parsePorts (portStr : string) : list Z :=
  if JS.isEmpty portStr then []
  else
    let clean := JS.toLowerCase (JS.trim portStr) in
    if String.eqb clean "any" || String.eqb clean "all"
       || String.eqb clean "*" || String.eqb clean "0-65535" then [-1]
    else
      let parts := JS.splitPortSeparators clean in
      fold_left parsePortToken parts [].

(** ** The analysis *)

(** The two arrays [findings] and [hygiene] that the loop of
    [analyzeRules] fills. *)
Record Arrays := mkArrays {
  findings_arr : list AnalysisFinding.t;
  hygiene_arr : list AnalysisFinding.t
}.

Definition pushFinding (f : AnalysisFinding.t) (a : Arrays) : Arrays :=
  mkArrays (findings_arr a ++ [f]) (hygiene_arr a).

Definition pushHygiene (f : AnalysisFinding.t) (a : Arrays) : Arrays :=
  mkArrays (findings_arr a) (hygiene_arr a ++ [f]).

(** [new Map()] filled from the enabled settings, in order: of two enabled
    settings for one port the later one stays. *)
Definition activeInsecurePorts (portSettings : list InsecurePortSetting.t)
    : gmap Z InsecurePortSetting.t :=
  fold_left (fun m s => <[InsecurePortSetting.port s := s]> m)
            (List.filter InsecurePortSetting.enabled portSettings) ∅.

(** Step 1 of the loop body: the wildcard rule check. *)
Definition exposureStep (rule : FirewallRule.t)
    (isAllow isAnySource isAnyDest isAnyProto hasAnyPort : bool)
    (a : Arrays) : Arrays :=
  if isAllow && (isAnySource || isAnyDest || isAnyProto || hasAnyPort) then
    let anyDimensions : Q :=
      ((if isAnySource then 1 else 0) + (if isAnyDest then 1 else 0)
       + (if hasAnyPort then 1 else 0) + (if isAnyProto then 1 # 2 else 0))%Q in
    (* the initial values 'MEDIUM' and 50 are overwritten on every branch *)
    let '(severity, score, explanation, recommendation) :=
      if Qle_bool 3 anyDimensions then
        (CRITICAL, 100,
         KBEntry.explanation SECURITY_KNOWLEDGE_BASE.ANY_ANY,
         KBEntry.recommendation SECURITY_KNOWLEDGE_BASE.ANY_ANY)
      else if isAnySource then
        (HIGH, 85,
         KBEntry.explanation SECURITY_KNOWLEDGE_BASE.ANY_SOURCE,
         KBEntry.recommendation SECURITY_KNOWLEDGE_BASE.ANY_SOURCE)
      else if isAnyDest then
        (HIGH, 80,
         KBEntry.explanation SECURITY_KNOWLEDGE_BASE.ANY_DESTINATION,
         KBEntry.recommendation SECURITY_KNOWLEDGE_BASE.ANY_DESTINATION)
      else
        (MEDIUM, 60,
         "Broad protocol or port access ('ANY') detected. This increases the attack surface for specialized payloads and facilitates T1046 (Network Service Discovery).",
         "Restrict the rule to only the required ports and protocols (CIS Control 4.4).") in
    pushFinding
      {| AnalysisFinding.ruleId := FirewallRule.id rule;
         AnalysisFinding.ruleName := FirewallRule.name rule;
         AnalysisFinding.category := Excessive_Exposure;
         AnalysisFinding.score := score;
         AnalysisFinding.severity := severity;
         AnalysisFinding.explanation := explanation;
         AnalysisFinding.recommendation := recommendation |} a
  else a.

(** Step 2: the numerical analysis of the source scope. *)
Definition subnetStep (rule : FirewallRule.t) (isAllow : bool) (srcCidr : Z)
    (a : Arrays) : Arrays :=
  if isAllow then
    if (srcCidr <=? 16) && (0 <? srcCidr) then
      let kb := SECURITY_KNOWLEDGE_BASE.LARGE_SUBNET srcCidr in
      pushFinding
        {| AnalysisFinding.ruleId := FirewallRule.id rule;
           AnalysisFinding.ruleName := FirewallRule.name rule;
           AnalysisFinding.category := Subnet_Scope;
           AnalysisFinding.score := 80;
           AnalysisFinding.severity := if srcCidr <=? 8 then CRITICAL else HIGH;
           AnalysisFinding.explanation := KBEntry.explanation kb;
           AnalysisFinding.recommendation := KBEntry.recommendation kb |} a
    else if (17 <=? srcCidr) && (srcCidr <=? 22) then
      let kb := SECURITY_KNOWLEDGE_BASE.LARGE_SUBNET srcCidr in
      pushFinding
        {| AnalysisFinding.ruleId := FirewallRule.id rule;
           AnalysisFinding.ruleName := FirewallRule.name rule;
           AnalysisFinding.category := Subnet_Scope;
           AnalysisFinding.score := 60;
           AnalysisFinding.severity := HIGH;
           AnalysisFinding.explanation := KBEntry.explanation kb;
           AnalysisFinding.recommendation := KBEntry.recommendation kb |} a
    else a
  else a.

(** The callback of [ports.forEach] in step 3. *)
Definition insecurePortCallback (rule : FirewallRule.t)
    (active : gmap Z InsecurePortSetting.t) (a : Arrays) (p : Z) : Arrays :=
  if p =? -1 then a
  else
    match active !! p with
    | Some setting =>
        let detailedRisk :=
          match SECURITY_KNOWLEDGE_BASE.PORT_SPECIFIC !! p with
          | Some text => if JS.isEmpty text then None else Some text
          | None => None
          end in
        let detailedRisk :=
          match detailedRisk with
          | Some text => text
          | None => "Protocol/Port " +:+ JS.toString p +:+ " is flagged as insecure or high-risk for enterprise environments. Access to this port increases the threat profile of the host and facilitates potential MITRE ATT&CK techniques."
          end in
        pushFinding
          {| AnalysisFinding.ruleId := FirewallRule.id rule;
             AnalysisFinding.ruleName := FirewallRule.name rule;
             AnalysisFinding.category := Insecure_Port;
             AnalysisFinding.score :=
               if decide (InsecurePortSetting.criticality setting = CRITICAL) then 100
               else if decide (InsecurePortSetting.criticality setting = HIGH) then 90
               else 60;
             AnalysisFinding.severity := InsecurePortSetting.criticality setting;
             AnalysisFinding.explanation :=
               "Service Identity: " +:+ InsecurePortSetting.label setting
               +:+ " (Port " +:+ JS.toString p +:+ "). " +:+ detailedRisk
               +:+ " Reference: " +:+ InsecurePortSetting.whyInsecure setting +:+ ".";
             AnalysisFinding.recommendation := "Transition to secure alternatives (e.g., replace FTP with SFTP, Telnet with SSH). If the service is required, restrict access to a specific 'Trusted Admin' subnet and implement deep packet inspection (DPI)." |} a
    | None => a
    end.

(** Step 3: the strict mapping of the insecure ports. *)
Definition insecurePortStep (rule : FirewallRule.t) (isAllow : bool)
    (ports : list Z) (active : gmap Z InsecurePortSetting.t) (a : Arrays) : Arrays :=
  if isAllow then fold_left (insecurePortCallback rule active) ports a else a.

(** The predicate of the first [find] of step 4. *)
Definition shadows (rule prev : FirewallRule.t) : bool :=
  FirewallRule.enabled prev
  && bool_decide (FirewallRule.action prev = FirewallRule.action rule)
  && (String.eqb (FirewallRule.source prev) (FirewallRule.source rule)
      || String.eqb (JS.toLowerCase (FirewallRule.source prev)) "any")
  && (String.eqb (FirewallRule.destination prev) (FirewallRule.destination rule)
      || String.eqb (JS.toLowerCase (FirewallRule.destination prev)) "any")
  && (bool_decide (FirewallRule.protocol prev = FirewallRule.protocol rule)
      || bool_decide (FirewallRule.protocol prev = Protocol.ANY))
  && (String.eqb (FirewallRule.destinationPort prev) (FirewallRule.destinationPort rule)
      || String.eqb (JS.toLowerCase (FirewallRule.destinationPort prev)) "any").

(** The predicate of the second [find] of step 4. *)
Definition conflicts (rule prev : FirewallRule.t) : bool :=
  FirewallRule.enabled prev
  && negb (bool_decide (FirewallRule.action prev = FirewallRule.action rule))
  && String.eqb (FirewallRule.source prev) (FirewallRule.source rule)
  && String.eqb (FirewallRule.destination prev) (FirewallRule.destination rule)
  && String.eqb (FirewallRule.destinationPort prev) (FirewallRule.destinationPort rule).

Definition shadowingFinding (rule shadowedBy : FirewallRule.t) : AnalysisFinding.t :=
  {| AnalysisFinding.ruleId := FirewallRule.id rule;
     AnalysisFinding.ruleName := FirewallRule.name rule;
     AnalysisFinding.category := Policy_Hygiene;
     AnalysisFinding.score := 20;
     AnalysisFinding.severity := INFORMATIONAL;
     AnalysisFinding.explanation :=
       KBEntry.explanation SECURITY_KNOWLEDGE_BASE.HYGIENE.SHADOWING
       +:+ " This specific rule is eclipsed by Rule ID: "
       +:+ FirewallRule.id shadowedBy +:+ ".";
     AnalysisFinding.recommendation :=
       KBEntry.recommendation SECURITY_KNOWLEDGE_BASE.HYGIENE.SHADOWING |}.

Definition conflictFinding (rule conflicting : FirewallRule.t) : AnalysisFinding.t :=
  {| AnalysisFinding.ruleId := FirewallRule.id rule;
     AnalysisFinding.ruleName := FirewallRule.name rule;
     AnalysisFinding.category := Correlation_Error;
     AnalysisFinding.score := 50;
     AnalysisFinding.severity := MEDIUM;
     AnalysisFinding.explanation :=
       KBEntry.explanation SECURITY_KNOWLEDGE_BASE.HYGIENE.CONFLICT
       +:+ " A direct action conflict exists with Rule ID: "
       +:+ FirewallRule.id conflicting +:+ ".";
     AnalysisFinding.recommendation :=
       KBEntry.recommendation SECURITY_KNOWLEDGE_BASE.HYGIENE.CONFLICT |}.

Definition latentRiskFinding (rule : FirewallRule.t) : AnalysisFinding.t :=
  {| AnalysisFinding.ruleId := FirewallRule.id rule;
     AnalysisFinding.ruleName := FirewallRule.name rule;
     AnalysisFinding.category := Policy_Hygiene;
     AnalysisFinding.score := 40;
     AnalysisFinding.severity := LOW;
     AnalysisFinding.explanation :=
       KBEntry.explanation SECURITY_KNOWLEDGE_BASE.HYGIENE.LATENT_RISK;
     AnalysisFinding.recommendation :=
       KBEntry.recommendation SECURITY_KNOWLEDGE_BASE.HYGIENE.LATENT_RISK |}.

(** Step 4: policy hygiene and correlation against the preceding rules. *)
Definition hygieneStep (rules : list FirewallRule.t) (index : nat)
    (rule : FirewallRule.t) (isAllow : bool) (srcCidr : Z) (hasAnyPort : bool)
    (a : Arrays) : Arrays :=
  let shadowedBy := find (shadows rule) (JS.slice0 index rules) in
  let a :=
    match shadowedBy with
    | Some prev =>
        if FirewallRule.enabled rule then pushHygiene (shadowingFinding rule prev) a
        else a
    | None => a
    end in
  let conflicting := find (conflicts rule) (JS.slice0 index rules) in
  let a :=
    match conflicting with
    | Some prev =>
        if FirewallRule.enabled rule then pushHygiene (conflictFinding rule prev) a
        else a
    | None => a
    end in
  if negb (FirewallRule.enabled rule) && isAllow then
    if (srcCidr =? 0) || hasAnyPort then pushHygiene (latentRiskFinding rule) a
    else a
  else a.

(** The callback of [rules.forEach]. *)
Definition analyzeRule (rules : list FirewallRule.t)
    (active : gmap Z InsecurePortSetting.t)
    (a : Arrays) (index : nat) (rule : FirewallRule.t) : Arrays :=
  let ports := parsePorts (FirewallRule.destinationPort rule) in
  let srcCidr := getCidrSize (FirewallRule.source rule) in
  let dstCidr := getCidrSize (FirewallRule.destination rule) in
  let isAllow := bool_decide (FirewallRule.action rule = Action.ALLOW) in
  let hasAnyPort := JS.arrayIncludes (-1) ports in
  let isAnySource := srcCidr =? 0 in
  let isAnyDest := dstCidr =? 0 in
  let isAnyProto := bool_decide (FirewallRule.protocol rule = Protocol.ANY) in
  let a := exposureStep rule isAllow isAnySource isAnyDest isAnyProto hasAnyPort a in
  let a := subnetStep rule isAllow srcCidr a in
  let a := insecurePortStep rule isAllow ports active a in
  hygieneStep rules index rule isAllow srcCidr hasAnyPort a.

Definition countSeverity (s : Severity) (findings : list AnalysisFinding.t) : Z :=
  JS.length (List.filter (fun f => bool_decide (AnalysisFinding.severity f = s)) findings).

(** [Math.round(sum / findings.length)], with the quotient taken exactly.
    The double quotient of the source rounds to the same integer as long as
    the number of findings times the mean stays below 2^52. *)
Definition averageRiskScore (findings : list AnalysisFinding.t) : Z :=
  if 0 <? JS.length findings then
    JS.Math_round
      (inject_Z (fold_left (fun a b => a + AnalysisFinding.score b) findings 0)
       / inject_Z (JS.length findings))
  else 0.

Definition analyzeRules (rules : list FirewallRule.t)
    (portSettings : list InsecurePortSetting.t) : AnalysisResults.t :=
  let active := activeInsecurePorts portSettings in
  let a := JS.forEach (analyzeRule rules active) rules (mkArrays [] []) in
  let findings := findings_arr a in
  let hygiene := hygiene_arr a in
  {| AnalysisResults.rules := rules;
     AnalysisResults.findings := findings;
     AnalysisResults.hygiene := hygiene;
     AnalysisResults.summary :=
       {| Summary.totalRules := JS.length rules;
          Summary.enabledRules := JS.length (List.filter FirewallRule.enabled rules);
          Summary.criticalFindings := countSeverity CRITICAL findings;
          Summary.highFindings := countSeverity HIGH findings;
          Summary.mediumFindings := countSeverity MEDIUM findings;
          Summary.lowFindings := countSeverity LOW findings;
          Summary.averageRiskScore := averageRiskScore findings |} |}.

(** ** Notions used to state the properties *)

(** The empty arrays [analyzeRules] starts from. *)
Definition noArrays : Arrays := mkArrays [] [].

(** What the iteration of the loop for [rule] at [index] pushes onto the
    two arrays: the callback run on empty arrays.  [analyzeRule_pushes]
    shows that on any arrays the callback appends exactly this, and
    [analyzeRules_findings] and [analyzeRules_hygiene] that the result of
    [analyzeRules] is the concatenation over the rules, in order. *)
Definition pushedBy (rules : list FirewallRule.t)
    (portSettings : list InsecurePortSetting.t)
    (index : nat) (rule : FirewallRule.t) : Arrays :=
  analyzeRule rules (activeInsecurePorts portSettings) noArrays index rule.

(** A loop body that only ever pushes. *)
Definition appends (F : Arrays -> Arrays) : Prop :=
  forall a, F a = mkArrays (findings_arr a ++ findings_arr (F noArrays))
                           (hygiene_arr a ++ hygiene_arr (F noArrays)).

Definition hasCategory (c : Category) (f : AnalysisFinding.t) : bool :=
  bool_decide (AnalysisFinding.category f = c).

Definition hasSeverity (s : Severity) (f : AnalysisFinding.t) : bool :=
  bool_decide (AnalysisFinding.severity f = s).

(** The findings of one category among [l], in order. *)
Definition ofCategory (c : Category) (l : list AnalysisFinding.t)
    : list AnalysisFinding.t :=
  List.filter (hasCategory c) l.

(** The contribution of a wildcard dimension to the weighted count. *)
Definition weight (b : bool) (w : Q) : Q := if b then w else 0%Q.

(** The four wildcard dimensions of a rule. *)
Definition anySource (rule : FirewallRule.t) : bool :=
  bool_decide (getCidrSize (FirewallRule.source rule) = 0).

Definition anyDest (rule : FirewallRule.t) : bool :=
  bool_decide (getCidrSize (FirewallRule.destination rule) = 0).

Definition anyProto (rule : FirewallRule.t) : bool :=
  bool_decide (FirewallRule.protocol rule = Protocol.ANY).

Definition hasAnyPort (rule : FirewallRule.t) : bool :=
  bool_decide (-1 ∈ parsePorts (FirewallRule.destinationPort rule)).

(** The weighted count of the wildcard dimensions. *)
Definition weightedCount (rule : FirewallRule.t) : Q :=
  (weight (anySource rule) 1 + weight (anyDest rule) 1
   + weight (hasAnyPort rule) 1 + weight (anyProto rule) (1 # 2))%Q.

(** A rule as the ingestion code builds it, with the fields the engine does
    not read left at their defaults. *)
Definition sampleRule (id source destination destinationPort : string)
    (protocol : Protocol.t) (action : Action.t) (enabled : bool)
    : FirewallRule.t :=
  {| FirewallRule.id := id;
     FirewallRule.name := "Rule " +:+ id;
     FirewallRule.source := source;
     FirewallRule.destination := destination;
     FirewallRule.sourcePort := "any";
     FirewallRule.destinationPort := destinationPort;
     FirewallRule.service := EmptyString;
     FirewallRule.protocol := protocol;
     FirewallRule.action := action;
     FirewallRule.direction := Direction.UNKNOWN;
     FirewallRule.zone := None;
     FirewallRule.enabled := enabled;
     FirewallRule.description := None;
     FirewallRule.originalRow := [] |}.

(** The eight spellings of the word "any". *)
Definition anySpellings : list string :=
  ["any"; "anY"; "aNy"; "aNY"; "Any"; "AnY"; "ANy"; "ANY"].

(** A text field that is the word "any" in some letter case, with nothing
    around it. *)
Definition wildcardText (s : string) : Prop := In s anySpellings.

(** [prev] is enabled, has the action of [rule], and on each of source,
    destination and destination port has the very text of [rule] or the
    word "any"; its protocol is the one of [rule] or ANY. *)
Definition eclipses (prev rule : FirewallRule.t) : Prop :=
  FirewallRule.enabled prev = true
  /\ FirewallRule.action prev = FirewallRule.action rule
  /\ (FirewallRule.source prev = FirewallRule.source rule
      \/ wildcardText (FirewallRule.source prev))
  /\ (FirewallRule.destination prev = FirewallRule.destination rule
      \/ wildcardText (FirewallRule.destination prev))
  /\ (FirewallRule.protocol prev = FirewallRule.protocol rule
      \/ FirewallRule.protocol prev = Protocol.ANY)
  /\ (FirewallRule.destinationPort prev = FirewallRule.destinationPort rule
      \/ wildcardText (FirewallRule.destinationPort prev)).

(** [prev] matches the same traffic, textually, with another action. *)
Definition contradicts (prev rule : FirewallRule.t) : Prop :=
  FirewallRule.enabled prev = true
  /\ FirewallRule.action prev <> FirewallRule.action rule
  /\ FirewallRule.source prev = FirewallRule.source rule
  /\ FirewallRule.destination prev = FirewallRule.destination rule
  /\ FirewallRule.destinationPort prev = FirewallRule.destinationPort rule.

(** The rule at [j] is the first one before index [i] that satisfies [P]. *)
Definition firstBefore (P : FirewallRule.t -> Prop) (rules : list FirewallRule.t)
    (i j : nat) (prev : FirewallRule.t) : Prop :=
  (j < i)%nat /\ rules !! j = Some prev /\ P prev
  /\ forall k q, (k < j)%nat -> rules !! k = Some q -> ~ P q.

Definition isShadowing (f : AnalysisFinding.t) : bool :=
  hasCategory Policy_Hygiene f && hasSeverity INFORMATIONAL f.

Definition isLatentRisk (f : AnalysisFinding.t) : bool :=
  hasCategory Policy_Hygiene f && hasSeverity LOW f.

(** Two enabled rules with the same source, destination and port text and
    opposite actions. *)
Definition conflictRuleA : FirewallRule.t :=
  sampleRule "A" "10.0.0.1" "10.0.0.2" "443" Protocol.TCP Action.ALLOW true.

Definition conflictRuleB : FirewallRule.t :=
  sampleRule "B" "10.0.0.1" "10.0.0.2" "443" Protocol.TCP Action.DENY true.

(** A broad rule and a narrow rule with the same action. *)
Definition broadRule : FirewallRule.t :=
  sampleRule "A" "any" "any" "any" Protocol.ANY Action.ALLOW true.

Definition narrowRule : FirewallRule.t :=
  sampleRule "B" "10.0.0.0/24" "any" "443" Protocol.TCP Action.ALLOW true.

(** A rule as broad as [broadRule], written with the wildcard "*". *)
Definition starRule : FirewallRule.t :=
  sampleRule "A" "*" "*" "*" Protocol.ANY Action.ALLOW true.

(** [rule] with its [enabled] flag set to [b], every other field kept. *)
Definition setEnabled (b : bool) (rule : FirewallRule.t) : FirewallRule.t :=
  {| FirewallRule.id := FirewallRule.id rule;
     FirewallRule.name := FirewallRule.name rule;
     FirewallRule.source := FirewallRule.source rule;
     FirewallRule.destination := FirewallRule.destination rule;
     FirewallRule.sourcePort := FirewallRule.sourcePort rule;
     FirewallRule.destinationPort := FirewallRule.destinationPort rule;
     FirewallRule.service := FirewallRule.service rule;
     FirewallRule.protocol := FirewallRule.protocol rule;
     FirewallRule.action := FirewallRule.action rule;
     FirewallRule.direction := FirewallRule.direction rule;
     FirewallRule.zone := FirewallRule.zone rule;
     FirewallRule.enabled := b;
     FirewallRule.description := FirewallRule.description rule;
     FirewallRule.originalRow := FirewallRule.originalRow rule |}.

(** Two rules that agree on every field except, possibly, [enabled]. *)
Definition sameButEnabled (r1 r2 : FirewallRule.t) : Prop :=
  r2 = setEnabled (FirewallRule.enabled r2) r1.

(** The number of elements of [l] that satisfy [P]. *)
Fixpoint countWhere {A} (P : A -> Prop) `{!forall x, Decision (P x)}
    (l : list A) : Z :=
  match l with
  | [] => 0
  | x :: r => (if decide (P x) then 1 else 0) + countWhere P r
  end.

(** The sum of the scores of [l]. *)
Fixpoint totalScore (l : list AnalysisFinding.t) : Z :=
  match l with
  | [] => 0
  | f :: r => AnalysisFinding.score f + totalScore r
  end.

(** [s] is the last enabled setting for port [p] in the policy. *)
Definition lastEnabledFor (portSettings : list InsecurePortSetting.t) (p : Z)
    (s : InsecurePortSetting.t) : Prop :=
  exists before after,
    portSettings = before ++ s :: after
    /\ InsecurePortSetting.enabled s = true
    /\ InsecurePortSetting.port s = p
    /\ Forall (fun t => ~ (InsecurePortSetting.enabled t = true
                           /\ InsecurePortSetting.port t = p)) after.

(** The trimmed, lower-cased text the parsers compare and cut. *)
Definition cleanText (s : string) : string := JS.toLowerCase (JS.trim s).

(** The wildcard tokens of the port parser. *)
Definition isPortWildcard (clean : string) : Prop :=
  clean = "any" \/ clean = "all" \/ clean = "*" \/ clean = "0-65535".

(** The wildcard tokens of the scope parser. *)
Definition isAddressWildcard (clean : string) : Prop :=
  clean = "any" \/ clean = "all" \/ clean = "0.0.0.0/0" \/ clean = "*".

(** Every integer from [a] to [b], ascending; empty when [b < a]. *)
Definition inclusiveRange (a b : Z) : list Z :=
  map (fun k => a + Z.of_nat k) (seq 0 (Z.to_nat (b - a + 1))).

(** *** The port parser in the words of the specification (4.2)

    "Otherwise split on commas/whitespace into tokens; for each token: if
    it contains '-', parse both sides as integers and expand inclusively
    into every integer in range; a parse failure on either side silently
    drops that token.  Else parse as a single integer; parse failure
    silently drops that token." *)






(** *** Shadowing in the words of the specification (4.4, with 4.1 and 4.2)

    "... each either textually identical to the current rule's
    corresponding field or themselves a wildcard token (any/equivalent),
    i.e., the earlier rule is equal-or-broader on every dimension."  The
    wildcard tokens are those of the two parsers, read after trimming and
    lower-casing. *)
Definition specWildcardAddress (s : string) : Prop := isAddressWildcard (cleanText s).

Definition specWildcardPort (s : string) : Prop := isPortWildcard (cleanText s).

Definition specEclipses (prev rule : FirewallRule.t) : Prop :=
  FirewallRule.enabled prev = true
  /\ FirewallRule.action prev = FirewallRule.action rule
  /\ (FirewallRule.source prev = FirewallRule.source rule
      \/ specWildcardAddress (FirewallRule.source prev))
  /\ (FirewallRule.destination prev = FirewallRule.destination rule
      \/ specWildcardAddress (FirewallRule.destination prev))
  /\ (FirewallRule.protocol prev = FirewallRule.protocol rule
      \/ FirewallRule.protocol prev = Protocol.ANY)
  /\ (FirewallRule.destinationPort prev = FirewallRule.destinationPort rule
      \/ specWildcardPort (FirewallRule.destinationPort prev)).

(** A rule whose wildcards are all written as the word "any": none of its
    source, destination and destination port is another wildcard token of
    the parsers ("all", "*", "0.0.0.0/0", "0-65535") or has blanks around
    it. *)
Definition plainWildcards (prev : FirewallRule.t) : Prop :=
  (specWildcardAddress (FirewallRule.source prev) ->
   wildcardText (FirewallRule.source prev))
  /\ (specWildcardAddress (FirewallRule.destination prev) ->
      wildcardText (FirewallRule.destination prev))
  /\ (specWildcardPort (FirewallRule.destinationPort prev) ->
      wildcardText (FirewallRule.destinationPort prev)).

(** The rules of the example of the specification, with a protocol each:
    a broad TCP rule and a narrow UDP rule. *)
Definition broadTcpRule : FirewallRule.t :=
  sampleRule "A" "any" "any" "any" Protocol.TCP Action.ALLOW true.

Definition narrowUdpRule : FirewallRule.t :=
  sampleRule "B" "10.0.0.0/24" "any" "443" Protocol.UDP Action.ALLOW true.

(** A broad rule written in capitals. *)
Definition capitalRule : FirewallRule.t :=
  sampleRule "A" "ANY" "Any" "aNY" Protocol.ANY Action.ALLOW true.

(** The text before the first '/' of [s]. *)
Fixpoint beforeSlash (s : string) : string :=
  match s with
  | EmptyString => EmptyString
  | String c r => if Ascii.eqb c "/" then EmptyString else String c (beforeSlash r)
  end.

(** The text behind the first '/' of [s], if there is one. *)
Fixpoint afterSlash (s : string) : option string :=
  match s with
  | EmptyString => None
  | String c r => if Ascii.eqb c "/" then Some r else afterSlash r
  end.

(** The prefix-length text of an address: what stands between the first
    '/' and the next one, or the end. *)
Definition prefixText (s : string) : option string :=
  beforeSlash <$> afterSlash s.

(** ** Proof automation *)

(** Evaluates [JS.digitValue] at the literal character in the goal. *)
Ltac read_digit :=
  match goal with
  | |- context [JS.digitValue ?c] =>
      let v := eval vm_compute in (JS.digitValue c) in
      change (JS.digitValue c) with v
  end.

(** ** Further notions: the analysis as a whole *)

(** What the iteration for [rule] pushes onto the hygiene array when the
    rules in [prefix] precede it. *)
Definition hygieneAfter (prefix : list FirewallRule.t) (rule : FirewallRule.t)
    : list AnalysisFinding.t :=
  hygiene_arr (pushedBy prefix [] (List.length prefix) rule).

(** The hygiene findings of the rules [l], in order, when the rules in
    [prefix] precede them. *)
Fixpoint hygieneWalk (prefix l : list FirewallRule.t) : list AnalysisFinding.t :=
  match l with
  | [] => []
  | r :: rest => hygieneAfter prefix r ++ hygieneWalk (prefix ++ [r]) rest
  end.

(** The scoring findings of one rule under a port policy. *)
Definition scoringOf (portSettings : list InsecurePortSetting.t)
    (rule : FirewallRule.t) : list AnalysisFinding.t :=
  findings_arr (pushedBy [rule] portSettings 0 rule).

(** ** The settings page ([src/components/Settings.tsx]) and its defaults *)

(** [DEFAULT_INSECURE_PORTS] of the constants module. *)
Definition DEFAULT_INSECURE_PORTS : list InsecurePortSetting.t := [
  InsecurePortSetting.mk 21 "FTP" HIGH "Cleartext credentials & data" true;
  InsecurePortSetting.mk 23 "Telnet" HIGH "Cleartext remote login" true;
  InsecurePortSetting.mk 25 "SMTP" HIGH "No encryption by default, abuse vector" true;
  InsecurePortSetting.mk 69 "TFTP" HIGH "No authentication" true;
  InsecurePortSetting.mk 110 "POP3" HIGH "Cleartext credentials" true;
  InsecurePortSetting.mk 119 "NNTP" HIGH "Cleartext & legacy" true;
  InsecurePortSetting.mk 137 "NetBIOS NS" HIGH "Windows enumeration" true;
  InsecurePortSetting.mk 138 "NetBIOS DGM" HIGH "Lateral movement" true;
  InsecurePortSetting.mk 139 "NetBIOS SSN" HIGH "SMB attacks" true;
  InsecurePortSetting.mk 143 "IMAP" HIGH "Cleartext authentication" true;
  InsecurePortSetting.mk 161 "SNMP v1/v2" HIGH "Weak auth, info disclosure" true;
  InsecurePortSetting.mk 162 "SNMP Trap" HIGH "Data leakage" true;
  InsecurePortSetting.mk 389 "LDAP" HIGH "Cleartext directory access" true;
  InsecurePortSetting.mk 445 "SMB" HIGH "Ransomware, lateral movement" true;
  InsecurePortSetting.mk 512 "rexec" HIGH "Remote command execution" true;
  InsecurePortSetting.mk 513 "rlogin" HIGH "Trust-based auth" true;
  InsecurePortSetting.mk 514 "rsh" HIGH "No auth, cleartext" true;
  InsecurePortSetting.mk 2049 "NFS" HIGH "No encryption/auth by default" true;
  InsecurePortSetting.mk 6000 "X11" HIGH "Remote desktop hijacking" true;
  InsecurePortSetting.mk 20 "FTP Data" MEDIUM "Same risks as FTP" true;
  InsecurePortSetting.mk 22 "SSH" MEDIUM "Weak ciphers possible in legacy configs" true;
  InsecurePortSetting.mk 37 "Time" MEDIUM "Information disclosure" true;
  InsecurePortSetting.mk 53 "DNS" MEDIUM "Amplification attacks" true;
  InsecurePortSetting.mk 80 "HTTP" MEDIUM "Cleartext web traffic" true;
  InsecurePortSetting.mk 109 "POP2" MEDIUM "Obsolete & cleartext" true;
  InsecurePortSetting.mk 179 "BGP" MEDIUM "Routing attacks if exposed" true;
  InsecurePortSetting.mk 500 "ISAKMP" MEDIUM "VPN enumeration" true;
  InsecurePortSetting.mk 1900 "SSDP" MEDIUM "Reflection attacks" true;
  InsecurePortSetting.mk 3306 "MySQL" MEDIUM "Cleartext auth possible" true;
  InsecurePortSetting.mk 3389 "RDP" MEDIUM "Brute force attacks" true;
  InsecurePortSetting.mk 5900 "VNC" MEDIUM "Weak/no encryption" true;
  InsecurePortSetting.mk 8080 "HTTP Proxy" MEDIUM "Often misconfigured" true;
  InsecurePortSetting.mk 123 "NTP" LOW "Amplification if open" true;
  InsecurePortSetting.mk 135 "RPC" LOW "Info leakage" true;
  InsecurePortSetting.mk 636 "LDAPS" LOW "Secure if configured" true;
  InsecurePortSetting.mk 989 "FTPS Data" LOW "Encrypted FTP" true;
  InsecurePortSetting.mk 990 "FTPS Control" LOW "Encrypted FTP" true;
  InsecurePortSetting.mk 993 "IMAPS" LOW "Encrypted IMAP" true;
  InsecurePortSetting.mk 995 "POP3S" LOW "Encrypted POP3" true;
  InsecurePortSetting.mk 1433 "MSSQL" LOW "Internal DB access risk" true;
  InsecurePortSetting.mk 1521 "Oracle DB" LOW "Internal only - should not be routed" true;
  InsecurePortSetting.mk 27017 "MongoDB" LOW "Secure if auth enabled" true
].

(** Built-ins of the settings page.  As for the engine, a number is an
    exact integer: the port read from the form is the one JavaScript reads
    as long as the text has at most 15 digits, which keeps it below 2^53. *)
Module JSLib.

(** Value of a hexadecimal digit. *)
Definition hexDigitValue (c : ascii) : option Z :=
  let n := JS.code c in
  if (48 <=? n) && (n <=? 57) then Some (n - 48)
  else if (97 <=? n) && (n <=? 102) then Some (n - 87)
  else if (65 <=? n) && (n <=? 70) then Some (n - 55)
  else None.

Fixpoint parseHexDigits (acc : Z) (s : string) : Z :=
  match s with
  | EmptyString => acc
  | String c r =>
      match hexDigitValue c with
      | Some d => parseHexDigits (16 * acc + d) r
      | None => acc
      end
  end.

Definition startsWithHexDigit (s : string) : bool :=
  match s with
  | EmptyString => false
  | String c _ => match hexDigitValue c with Some _ => true | None => false end
  end.

(** [parseInt(s)] without a radix: as [JS.parseInt], except that a body
    that starts with "0x" or "0X" is read in radix 16. *)
Definition parseInt (s : string) : option Z :=
  let t := JS.trimStart s in
  let '(sign, body) :=
    match t with
    | String "-" r => (-1, r)
    | String "+" r => (1, r)
    | _ => (1, t)
    end in
  match body with
  | String "0" (String x r) =>
      if Ascii.eqb x "x" || Ascii.eqb x "X" then
        if startsWithHexDigit r then Some (sign * parseHexDigits 0 r) else None
      else Some (sign * JS.parseDigits 0 body)
  | _ =>
      if JS.startsWithDigit body then Some (sign * JS.parseDigits 0 body) else None
  end.

(** [s.replace(/\D/g, '')]: the decimal digits of [s]. *)
Fixpoint keepDigits (s : string) : string :=
  match s with
  | EmptyString => EmptyString
  | String c r =>
      match JS.digitValue c with
      | Some _ => String c (keepDigits r)
      | None => keepDigits r
      end
  end.

End JSLib.

(** The form of the settings page for a new port. *)
Module NewPort.
Record t := mk {
  port : string;
  label : string;
  criticality : Severity
}.
End NewPort.

(** The state of the settings page: [currentSettings] and [newPort]. *)
Module SettingsState.
Record t := mk {
  currentSettings : list InsecurePortSetting.t;
  newPort : NewPort.t
}.
End SettingsState.

(** [{ ...s, enabled: !s.enabled }] *)
Definition flipEnabled (s : InsecurePortSetting.t) : InsecurePortSetting.t :=
  {| InsecurePortSetting.port := InsecurePortSetting.port s;
     InsecurePortSetting.label := InsecurePortSetting.label s;
     InsecurePortSetting.criticality := InsecurePortSetting.criticality s;
     InsecurePortSetting.whyInsecure := InsecurePortSetting.whyInsecure s;
     InsecurePortSetting.enabled := negb (InsecurePortSetting.enabled s) |}.

Definition togglePort (port : Z) (st : SettingsState.t) : SettingsState.t :=
  {| SettingsState.currentSettings :=
       map (fun s => if InsecurePortSetting.port s =? port then flipEnabled s else s)
           (SettingsState.currentSettings st);
     SettingsState.newPort := SettingsState.newPort st |}.

(** The [onChange] handler of the port field. *)
Definition typePort (value : string) (st : SettingsState.t) : SettingsState.t :=
  {| SettingsState.currentSettings := SettingsState.currentSettings st;
     SettingsState.newPort :=
       {| NewPort.port := JSLib.keepDigits value;
          NewPort.label := NewPort.label (SettingsState.newPort st);
          NewPort.criticality := NewPort.criticality (SettingsState.newPort st) |} |}.

(** [addCustomPort]: the new state, and the text of the alert if one is
    raised. *)
Definition addCustomPort (st : SettingsState.t) : SettingsState.t * option string :=
  let newPort := SettingsState.newPort st in
  let currentSettings := SettingsState.currentSettings st in
  match JSLib.parseInt (NewPort.port newPort) with
  | None => (st, None)
  | Some p =>
      if JS.isEmpty (NewPort.label newPort) then (st, None)
      else if existsb (fun s => InsecurePortSetting.port s =? p) currentSettings then
        (st, Some ("Port " +:+ JS.toString p +:+ " is already in the check list."))
      else
        let newItem :=
          {| InsecurePortSetting.port := p;
             InsecurePortSetting.label := NewPort.label newPort;
             InsecurePortSetting.criticality := NewPort.criticality newPort;
             InsecurePortSetting.whyInsecure := "User-defined custom risk";
             InsecurePortSetting.enabled := true |} in
        ({| SettingsState.currentSettings := currentSettings ++ [newItem];
            SettingsState.newPort :=
              {| NewPort.port := EmptyString;
                 NewPort.label := EmptyString;
                 NewPort.criticality := MEDIUM |} |},
         None)
  end.

Definition removePort (port : Z) (st : SettingsState.t) : SettingsState.t :=
  {| SettingsState.currentSettings :=
       List.filter (fun s => negb (InsecurePortSetting.port s =? port))
                   (SettingsState.currentSettings st);
     SettingsState.newPort := SettingsState.newPort st |}.

(** The four options of the criticality selector of the form. *)
Inductive CriticalityOption := OptLow | OptMedium | OptHigh | OptCritical.

Definition optionValue (o : CriticalityOption) : Severity :=
  match o with
  | OptLow => LOW
  | OptMedium => MEDIUM
  | OptHigh => HIGH
  | OptCritical => CRITICAL
  end.

(** The [onChange] handlers of the label field and of the selector. *)
Definition typeLabel (value : string) (st : SettingsState.t) : SettingsState.t :=
  {| SettingsState.currentSettings := SettingsState.currentSettings st;
     SettingsState.newPort :=
       {| NewPort.port := NewPort.port (SettingsState.newPort st);
          NewPort.label := value;
          NewPort.criticality := NewPort.criticality (SettingsState.newPort st) |} |}.

Definition chooseCriticality (o : CriticalityOption) (st : SettingsState.t)
    : SettingsState.t :=
  {| SettingsState.currentSettings := SettingsState.currentSettings st;
     SettingsState.newPort :=
       {| NewPort.port := NewPort.port (SettingsState.newPort st);
          NewPort.label := NewPort.label (SettingsState.newPort st);
          NewPort.criticality := optionValue o |} |}.

(** What the user can do on the settings page. *)
Inductive SettingsEvent :=
  | TogglePort (port : Z)
  | TypePort (value : string)
  | TypeLabel (value : string)
  | ChooseCriticality (o : CriticalityOption)
  | AddCustomPort
  | RemovePort (port : Z).

Definition settingsStep (st : SettingsState.t) (e : SettingsEvent) : SettingsState.t :=
  match e with
  | TogglePort p => togglePort p st
  | TypePort v => typePort v st
  | TypeLabel v => typeLabel v st
  | ChooseCriticality o => chooseCriticality o st
  | AddCustomPort => fst (addCustomPort st)
  | RemovePort p => removePort p st
  end.

(** The page as it opens on a list of settings. *)
Definition openSettings (settings : list InsecurePortSetting.t) : SettingsState.t :=
  {| SettingsState.currentSettings := settings;
     SettingsState.newPort :=
       {| NewPort.port := EmptyString;
          NewPort.label := EmptyString;
          NewPort.criticality := MEDIUM |} |}.

Fixpoint allDigits (s : string) : bool :=
  match s with
  | EmptyString => true
  | String c r =>
      match JS.digitValue c with Some _ => allDigits r | None => false end
  end.

(** The ports of a settings list are pairwise distinct. *)
Definition distinctPorts (settings : list InsecurePortSetting.t) : Prop :=
  List.NoDup (map InsecurePortSetting.port settings).

(** A boolean test for pairwise distinct integers. *)
Fixpoint distinctb (l : list Z) : bool :=
  match l with
  | [] => true
  | x :: r => negb (existsb (Z.eqb x) r) && distinctb r
  end.

(** How many port look-ups of the Insecure Port check of [rule] ask for
    port [p]: the occurrences of [p] in the parsed port list of an ALLOW
    rule. *)
Definition portUses (p : Z) (rule : FirewallRule.t) : nat :=
  if bool_decide (FirewallRule.action rule = Action.ALLOW)
  then List.length (List.filter (Z.eqb p)
                      (parsePorts (FirewallRule.destinationPort rule)))
  else 0%nat.

(** ** The pages that show the results

    [src/components/Dashboard.tsx], [HygieneTab.tsx] and
    [FindingsList.tsx], with [navigateWithFilters] of [App.tsx].  The
    string unions of [src/types.ts] are inductive types; where a page reads
    one of them as text, it is rendered by the functions below. *)

Module JSText.

(** [s.startsWith(p)] *)
Fixpoint startsWith (s p : string) : bool :=
  match p with
  | EmptyString => true
  | String c p' =>
      match s with
      | EmptyString => false
      | String d s' => Ascii.eqb d c && startsWith s' p'
      end
  end.

(** [s.includes(p)] for a search string of any length. *)
Fixpoint includes (s p : string) : bool :=
  match s with
  | EmptyString => JS.isEmpty p
  | String _ r => startsWith s p || includes r p
  end.

(** [s.endsWith(p)] *)
Fixpoint endsWith (s p : string) : bool :=
  String.eqb s p
  || match s with
     | EmptyString => false
     | String _ r => endsWith r p
     end.

(** [a > b] and [a < b] on two strings: the order of the code units. *)
Definition gt (a b : string) : bool :=
  match String.compare a b with Gt => true | _ => false end.

Definition lt (a b : string) : bool :=
  match String.compare a b with Lt => true | _ => false end.

(** [s.split(re)] for an expression [re] that matches one character of a
    class. *)
Fixpoint splitClass (isSep : ascii -> bool) (s : string) : list string :=
  match s with
  | EmptyString => [EmptyString]
  | String c r =>
      if isSep c then EmptyString :: splitClass isSep r
      else match splitClass isSep r with
           | t :: ts => String c t :: ts
           | [] => [String c EmptyString]
           end
  end.

(** The class [[,-]]. *)
Definition isCommaOrDash (c : ascii) : bool := Ascii.eqb c "," || Ascii.eqb c "-".

(** [arr.sort(cmp)] for a comparator that orders by a number: the sort of
    the language is stable, so that the result is the one of the insertion
    sort that puts an element in front of the elements it is equal to and
    that came after it. *)
Fixpoint insertSorted {A} (cmp : A -> A -> Z) (x : A) (l : list A) : list A :=
  match l with
  | [] => [x]
  | y :: r => if cmp x y <=? 0 then x :: l else y :: insertSorted cmp x r
  end.

Definition sort {A} (cmp : A -> A -> Z) (l : list A) : list A :=
  fold_right (insertSorted cmp) [] l.

End JSText.

Definition severityText (s : Severity) : string :=
  match s with
  | CRITICAL => "CRITICAL"
  | HIGH => "HIGH"
  | MEDIUM => "MEDIUM"
  | LOW => "LOW"
  | INFORMATIONAL => "INFORMATIONAL"
  end.

Definition categoryText (c : Category) : string :=
  match c with
  | Insecure_Port => "Insecure Port"
  | Excessive_Exposure => "Excessive Exposure"
  | Subnet_Scope => "Subnet Scope"
  | Protocol_Risk => "Protocol Risk"
  | Policy_Hygiene => "Policy Hygiene"
  | Correlation_Error => "Correlation Error"
  end.

Definition protocolText (p : Protocol.t) : string :=
  match p with
  | Protocol.TCP => "TCP"
  | Protocol.UDP => "UDP"
  | Protocol.ICMP => "ICMP"
  | Protocol.ANY => "ANY"
  | Protocol.OTHER => "OTHER"
  end.

Definition actionText (a : Action.t) : string :=
  match a with
  | Action.ALLOW => "ALLOW"
  | Action.DENY => "DENY"
  | Action.OTHER => "OTHER"
  end.

(** The filter model of [src/types.ts]. *)
Module FilterField.
Inductive t :=
  | id | name | source | destination | destinationPort | protocol
  | action | direction | description | severity | category.
End FilterField.

Module FilterOperator.
Inductive t :=
  | CONTAINS | NOT_CONTAINS | EQUALS | NOT_EQUALS
  | STARTS_WITH | ENDS_WITH | GREATER_THAN | LESS_THAN.
End FilterOperator.

Module LogicalOperator.
Inductive t := AND | OR.
End LogicalOperator.

Module FilterClause.
Record t := mk {
  id : string;
  field : FilterField.t;
  operator : FilterOperator.t;
  value : string;
  logicalOperator : LogicalOperator.t
}.
End FilterClause.

Module FilterState.
Record t := mk {
  clauses : list FilterClause.t;
  quickSearch : string
}.
End FilterState.

(** [navigateWithFilters] of the application: the filters it sets and the
    tab it opens. *)
Definition navigateWithFilters (tab : string) (clauses : list FilterClause.t)
    : FilterState.t * string :=
  ({| FilterState.quickSearch := EmptyString; FilterState.clauses := clauses |}, tab).

(** *** The dashboard *)

Module SeverityDatum.
Record t := mk { name : string; value : Z; color : string; key : Severity }.
End SeverityDatum.

Module OutlookDatum.
Record t := mk { subject : string; A : Z; fullMark : Z; category : Category }.
End OutlookDatum.

Module AnyStat.
Record t := mk { name : string; value : Z; color : string; search : string }.
End AnyStat.

Module Dashboard.

Definition severityData (summary : Summary.t) : list SeverityDatum.t :=
  List.filter (fun d => 0 <? SeverityDatum.value d)
    [ SeverityDatum.mk "Critical" (Summary.criticalFindings summary) "#dc2626" CRITICAL;
      SeverityDatum.mk "High" (Summary.highFindings summary) "#f97316" HIGH;
      SeverityDatum.mk "Medium" (Summary.mediumFindings summary) "#eab308" MEDIUM;
      SeverityDatum.mk "Low" (Summary.lowFindings summary) "#3b82f6" LOW ].

Definition outlookData (findings : list AnalysisFinding.t) : list OutlookDatum.t :=
  [ OutlookDatum.mk "Broad Scope"
      (JS.length (List.filter (hasCategory Subnet_Scope) findings) * 10) 100 Subnet_Scope;
    OutlookDatum.mk "Services"
      (JS.length (List.filter (hasCategory Insecure_Port) findings) * 10) 100 Insecure_Port;
    OutlookDatum.mk "Lateral Mov."
      (JS.length (List.filter (hasCategory Correlation_Error) findings) * 10) 100
      Correlation_Error;
    OutlookDatum.mk "ANY/ANY"
      (JS.length (List.filter (hasCategory Excessive_Exposure) findings) * 20) 100
      Excessive_Exposure;
    OutlookDatum.mk "Hygiene"
      (JS.length (List.filter (hasCategory Policy_Hygiene) findings) * 10) 100
      Policy_Hygiene ].

Definition anyFindings (findings : list AnalysisFinding.t) : list AnalysisFinding.t :=
  List.filter (hasCategory Excessive_Exposure) findings.

(** [f.explanation.toLowerCase().includes(word)] *)
Definition mentions (word : string) (f : AnalysisFinding.t) : bool :=
  JSText.includes (JS.toLowerCase (AnalysisFinding.explanation f)) word.

Definition anyStats (findings : list AnalysisFinding.t) : list AnyStat.t :=
  let anyFindings := anyFindings findings in
  List.filter (fun d => 0 <? AnyStat.value d)
    [ AnyStat.mk "Source ANY"
        (JS.length (List.filter (mentions "source") anyFindings)) "#ef4444" "source";
      AnyStat.mk "Dest ANY"
        (JS.length (List.filter (mentions "destination") anyFindings)) "#f87171"
        "destination";
      AnyStat.mk "Proto ANY"
        (JS.length (List.filter (mentions "protocol") anyFindings)) "#dc2626" "protocol";
      AnyStat.mk "Port ANY"
        (JS.length (List.filter (mentions "port") anyFindings)) "#991b1b" "port" ].

(** The [trend] of the card 'Policy Risk Score'. *)
Definition riskTrend (summary : Summary.t) : string :=
  if 70 <? Summary.averageRiskScore summary then "CRITICAL"
  else if 40 <? Summary.averageRiskScore summary then "ELEVATED"
  else "STABLE".

(** The [trend] of the card 'ANY Exposure'. *)
Definition anyTrend (findings : list AnalysisFinding.t) : string :=
  if 0 <? JS.length (anyFindings findings) then "CRITICAL" else "SAFE".

(** The calls of [onNavigate]: the tab and the clauses. *)
Definition handleSeverityBarClick (data : SeverityDatum.t)
    : string * list FilterClause.t :=
  ("findings",
   [ {| FilterClause.id := "dash-sev";
        FilterClause.field := FilterField.severity;
        FilterClause.operator := FilterOperator.EQUALS;
        FilterClause.value := severityText (SeverityDatum.key data);
        FilterClause.logicalOperator := LogicalOperator.AND |} ]).

(** [payload] is [data.activePayload[0].payload], the datum of the axis
    that was clicked. *)
Definition handleRadarClick (payload : OutlookDatum.t) : string * list FilterClause.t :=
  ("findings",
   [ {| FilterClause.id := "dash-cat";
        FilterClause.field := FilterField.category;
        FilterClause.operator := FilterOperator.EQUALS;
        FilterClause.value := categoryText (OutlookDatum.category payload);
        FilterClause.logicalOperator := LogicalOperator.AND |} ]).

(** [onClick] of the card 'Critical Blocks'. *)
Definition criticalBlocksClick : string * list FilterClause.t :=
  ("findings",
   [ {| FilterClause.id := "dash-crit";
        FilterClause.field := FilterField.severity;
        FilterClause.operator := FilterOperator.EQUALS;
        FilterClause.value := "CRITICAL";
        FilterClause.logicalOperator := LogicalOperator.AND |} ]).

End Dashboard.

(** *** The hygiene page: its three counters *)

Module HygieneTab.

Definition shadowedRules (hygiene : list AnalysisFinding.t) : Z :=
  JS.length
    (List.filter (fun h => JSText.includes (AnalysisFinding.explanation h) "Shadowed")
                 hygiene).

Definition logicConflicts (hygiene : list AnalysisFinding.t) : Z :=
  JS.length (List.filter (hasCategory Correlation_Error) hygiene).

Definition latentRisk (hygiene : list AnalysisFinding.t) : Z :=
  JS.length
    (List.filter (fun h => JSText.includes (AnalysisFinding.explanation h) "Disabled")
                 hygiene).

End HygieneTab.

(** *** The findings page *)

Module FindingsList.

Section Filter.

Variable rules : list FirewallRule.t.

Definition evaluateClause (f : AnalysisFinding.t) (clause : FilterClause.t) : bool :=
  let associatedRule :=
    find (fun r => String.eqb (FirewallRule.id r) (AnalysisFinding.ruleId f)) rules in
  (* [associatedRule?.field || ''] *)
  let ofRule (get : FirewallRule.t -> string) : string :=
    match associatedRule with
    | Some r => get r
    | None => EmptyString
    end in
  let target : option string :=
    match FilterClause.field clause with
    | FilterField.id => Some (AnalysisFinding.ruleId f)
    | FilterField.name => Some (AnalysisFinding.ruleName f)
    | FilterField.severity => Some (severityText (AnalysisFinding.severity f))
    | FilterField.category => Some (categoryText (AnalysisFinding.category f))
    | FilterField.description => Some (AnalysisFinding.explanation f)
    | FilterField.source => Some (ofRule FirewallRule.source)
    | FilterField.destination => Some (ofRule FirewallRule.destination)
    | FilterField.destinationPort => Some (ofRule FirewallRule.destinationPort)
    | FilterField.protocol =>
        Some (ofRule (fun r => protocolText (FirewallRule.protocol r)))
    | FilterField.action => Some (ofRule (fun r => actionText (FirewallRule.action r)))
    | FilterField.direction => None
    end in
  match target with
  | None => true
  | Some targetValue =>
      let val := JS.toLowerCase (FilterClause.value clause) in
      let tVal := JS.toLowerCase targetValue in
      (* the numerical port handling: [Some b] when it returns [b] *)
      let numerical : option bool :=
        match FilterClause.field clause with
        | FilterField.destinationPort =>
            let numericTarget :=
              JS.parseInt
                (JSLib.keepDigits
                   (hd EmptyString (JSText.splitClass JSText.isCommaOrDash targetValue))) in
            let numericVal := JS.parseInt val in
            match numericTarget, numericVal with
            | Some numericTarget, Some numericVal =>
                match FilterClause.operator clause with
                | FilterOperator.GREATER_THAN => Some (numericVal <? numericTarget)
                | FilterOperator.LESS_THAN => Some (numericTarget <? numericVal)
                | _ => None
                end
            | _, _ => None
            end
        | _ => None
        end in
      match numerical with
      | Some b => b
      | None =>
          match FilterClause.operator clause with
          | FilterOperator.CONTAINS => JSText.includes tVal val
          | FilterOperator.NOT_CONTAINS => negb (JSText.includes tVal val)
          | FilterOperator.EQUALS => String.eqb tVal val
          | FilterOperator.NOT_EQUALS => negb (String.eqb tVal val)
          | FilterOperator.STARTS_WITH => JSText.startsWith tVal val
          | FilterOperator.ENDS_WITH => JSText.endsWith tVal val
          | FilterOperator.GREATER_THAN => JSText.gt targetValue (FilterClause.value clause)
          | FilterOperator.LESS_THAN => JSText.lt targetValue (FilterClause.value clause)
          end
      end
  end.

Variable filters : FilterState.t.

Definition quickSearchMatch (f : AnalysisFinding.t) : bool :=
  JS.isEmpty (FilterState.quickSearch filters)
  || existsb
       (fun field =>
          JSText.includes (JS.toLowerCase field)
                          (JS.toLowerCase (FilterState.quickSearch filters)))
       [ AnalysisFinding.explanation f; AnalysisFinding.ruleName f;
         AnalysisFinding.ruleId f; categoryText (AnalysisFinding.category f);
         severityText (AnalysisFinding.severity f) ].

(** The loop over the clauses behind the first one. *)
Definition combine (f : AnalysisFinding.t) (result : bool) (clause : FilterClause.t)
    : bool :=
  let clauseResult := evaluateClause f clause in
  match FilterClause.logicalOperator clause with
  | LogicalOperator.AND => result && clauseResult
  | LogicalOperator.OR => result || clauseResult
  end.

(** The callback of [findings.filter]. *)
Definition keeps (f : AnalysisFinding.t) : bool :=
  if negb (quickSearchMatch f) then false
  else
    match FilterState.clauses filters with
    | [] => true
    | first :: rest => fold_left (combine f) rest (evaluateClause f first)
    end.

Definition filtered (findings : list AnalysisFinding.t) : list AnalysisFinding.t :=
  JSText.sort (fun a b => AnalysisFinding.score b - AnalysisFinding.score a)
              (List.filter keeps findings).

End Filter.

End FindingsList.

(** *** Notions used to state the properties of the pages *)

Definition isAllow (rule : FirewallRule.t) : bool :=
  bool_decide (FirewallRule.action rule = Action.ALLOW).

(** An ALLOW rule with a wildcard dimension. *)
Definition isExposed (rule : FirewallRule.t) : bool :=
  isAllow rule
  && (anySource rule || anyDest rule || anyProto rule || hasAnyPort rule).

(** An ALLOW rule with a wildcard source. *)
Definition sourceSlice (rule : FirewallRule.t) : bool :=
  isAllow rule && anySource rule.

(** An ALLOW rule with a wildcard destination whose source is specific, or
    whose source and ports are wildcards too. *)
Definition destSlice (rule : FirewallRule.t) : bool :=
  isAllow rule && anyDest rule && (negb (anySource rule) || hasAnyPort rule).

(** An ALLOW rule with a specific source and destination and a wildcard
    protocol or port. *)
Definition serviceSlice (rule : FirewallRule.t) : bool :=
  isAllow rule && negb (anySource rule) && negb (anyDest rule)
  && (anyProto rule || hasAnyPort rule).

(** What the wildcard rule check pushes for one rule. *)
Definition exposureOf (rule : FirewallRule.t) : list AnalysisFinding.t :=
  findings_arr
    (exposureStep rule (isAllow rule) (anySource rule) (anyDest rule)
       (anyProto rule) (hasAnyPort rule) noArrays).

(** The scores never go up along the list. *)
Fixpoint descending (l : list AnalysisFinding.t) : Prop :=
  match l with
  | [] => True
  | f :: r =>
      Forall (fun g => AnalysisFinding.score g <= AnalysisFinding.score f) r
      /\ descending r
  end.

(** The findings of [l] with the score [n], in order. *)
Definition withScore (n : Z) (l : list AnalysisFinding.t) : list AnalysisFinding.t :=
  List.filter (fun f => AnalysisFinding.score f =? n) l.

(** The findings page as a call of [onNavigate] opens it on the results
    [out]. *)
Definition findingsPage (out : AnalysisResults.t) (nav : string * list FilterClause.t)
    : list AnalysisFinding.t :=
  FindingsList.filtered (AnalysisResults.rules out)
    (fst (navigateWithFilters (fst nav) (snd nav)))
    (AnalysisResults.findings out).

(** Two rules that agree on the eight fields the engine reads: they may
    differ in [sourcePort], [service], [direction], [zone], [description]
    and [originalRow]. *)
Definition sameForEngine (r1 r2 : FirewallRule.t) : Prop :=
  FirewallRule.id r1 = FirewallRule.id r2
  /\ FirewallRule.name r1 = FirewallRule.name r2
  /\ FirewallRule.source r1 = FirewallRule.source r2
  /\ FirewallRule.destination r1 = FirewallRule.destination r2
  /\ FirewallRule.destinationPort r1 = FirewallRule.destinationPort r2
  /\ FirewallRule.protocol r1 = FirewallRule.protocol r2
  /\ FirewallRule.action r1 = FirewallRule.action r2
  /\ FirewallRule.enabled r1 = FirewallRule.enabled r2.

(** Two rules that the parsers of the engine do not tell apart: the same
    id, name and action, the same source scope, the same parsed ports, and
    the same answers to 'is the destination a wildcard' and 'is the
    protocol ANY'. *)
Definition sameForScoring (r1 r2 : FirewallRule.t) : Prop :=
  FirewallRule.id r1 = FirewallRule.id r2
  /\ FirewallRule.name r1 = FirewallRule.name r2
  /\ FirewallRule.action r1 = FirewallRule.action r2
  /\ getCidrSize (FirewallRule.source r1) = getCidrSize (FirewallRule.source r2)
  /\ anyDest r1 = anyDest r2
  /\ anyProto r1 = anyProto r2
  /\ parsePorts (FirewallRule.destinationPort r1)
     = parsePorts (FirewallRule.destinationPort r2).

(** ** The import page: the automatic column mapping
    ([src/components/Uploader.tsx], [DEFAULT_MAPPINGS] of the constants) *)

Module ColumnSynonyms.
Record t := mk { field : string; synonyms : list string }.
End ColumnSynonyms.

Definition DEFAULT_MAPPINGS : list ColumnSynonyms.t := [
  ColumnSynonyms.mk "id" ["rule id"; "id"; "num"; "index"; "rule_id"];
  ColumnSynonyms.mk "name" ["rule name"; "name"; "label"; "description"];
  ColumnSynonyms.mk "source" ["source"; "src"; "source ip"; "source address"; "src_ip"];
  ColumnSynonyms.mk "destination"
    ["destination"; "dst"; "destination ip"; "dest address"; "dst_ip"];
  ColumnSynonyms.mk "sourcePort" ["source port"; "src port"; "sport"];
  ColumnSynonyms.mk "destinationPort"
    ["destination port"; "dest port"; "dport"; "service port"; "port"];
  ColumnSynonyms.mk "protocol" ["protocol"; "proto"; "ip protocol"];
  ColumnSynonyms.mk "action" ["action"; "permit"; "policy"; "rule_action"];
  ColumnSynonyms.mk "direction" ["direction"; "dir"; "flow"];
  ColumnSynonyms.mk "enabled" ["enabled"; "status"; "active"; "is_enabled"];
  ColumnSynonyms.mk "description" ["description"; "comment"; "notes"]
].

(** The predicate of [csvHeaders.find] in the auto-mapping of
    [handleFileChange]. *)
Definition matchesSynonym (m : ColumnSynonyms.t) (h : string) : bool :=
  existsb (fun syn => JSText.includes (JS.toLowerCase h) (JS.toLowerCase syn))
          (ColumnSynonyms.synonyms m).

(** The callback of [mappings.forEach]: [initialMapping] is an object that
    is used as a map from field names to headers. *)
Definition autoMapStep (csvHeaders : list string) (initialMapping : gmap string string)
    (m : ColumnSynonyms.t) : gmap string string :=
  match find (matchesSynonym m) csvHeaders with
  | Some found =>
      if JS.isEmpty found then initialMapping
      else <[ColumnSynonyms.field m := found]> initialMapping
  | None => initialMapping
  end.

Definition autoMappingWith (mappings : list ColumnSynonyms.t) (csvHeaders : list string)
    : gmap string string :=
  fold_left (autoMapStep csvHeaders) mappings ∅.

(** The mapping that [handleFileChange] proposes for the headers of a
    file. *)
Definition autoMapping (csvHeaders : list string) : gmap string string :=
  autoMappingWith DEFAULT_MAPPINGS csvHeaders.

(** * Properties *)

(** ** Arrays that only grow *)

Lemma appends_id : appends (fun a => a).
Proof. intros [f h]; simpl. by rewrite !app_nil_r. Qed.

Lemma appends_pushFinding f : appends (pushFinding f).
Proof. intros [fs hs]; simpl. by rewrite app_nil_r. Qed.

Lemma appends_pushHygiene f : appends (pushHygiene f).
Proof. intros [fs hs]; simpl. by rewrite app_nil_r. Qed.

Create HintDb appends.
#[local] Hint Resolve appends_id appends_pushFinding appends_pushHygiene : appends.

Lemma appends_compose F G :
  appends F -> appends G -> appends (fun a => G (F a)).
Proof.
  intros HF HG a. rewrite (HG (F a)), (HG (F noArrays)), (HF a); simpl.
  by rewrite !app_assoc.
Qed.

Lemma appends_if (b : bool) F G :
  appends F -> appends G -> appends (fun a => if b then F a else G a).
Proof. by destruct b. Qed.

Lemma appends_fold {A} (f : Arrays -> A -> Arrays) (l : list A) :
  (forall x, appends (fun a => f a x)) -> appends (fun a => fold_left f l a).
Proof.
  intros Hf. induction l as [|x l IH]; simpl.
  - apply appends_id.
  - apply (appends_compose (fun a => f a x) (fun a => fold_left f l a)); auto.
Qed.

Lemma exposureStep_appends rule b1 b2 b3 b4 b5 :
  appends (exposureStep rule b1 b2 b3 b4 b5).
Proof.
  unfold exposureStep.
  destruct (b1 && (b2 || b3 || b4 || b5)); [|auto with appends].
  destruct (Qle_bool _ _), b2, b3; auto with appends.
Qed.

Lemma subnetStep_appends rule b srcCidr : appends (subnetStep rule b srcCidr).
Proof.
  unfold subnetStep. destruct b; [|auto with appends].
  destruct (_ && _); [auto with appends|].
  destruct (_ && _); auto with appends.
Qed.

Lemma insecurePortCallback_appends rule active p :
  appends (fun a => insecurePortCallback rule active a p).
Proof.
  unfold insecurePortCallback. destruct (p =? -1); [auto with appends|].
  destruct (active !! p); auto with appends.
Qed.

Lemma insecurePortStep_appends rule b ports active :
  appends (insecurePortStep rule b ports active).
Proof.
  unfold insecurePortStep. destruct b; [|auto with appends].
  apply appends_fold. intros p. apply insecurePortCallback_appends.
Qed.

Lemma appends_option {A} (o : option A) (F : A -> Arrays -> Arrays) G :
  (forall x, appends (F x)) -> appends G ->
  appends (fun a => match o with Some x => F x a | None => G a end).
Proof. by destruct o. Qed.

Lemma hygieneStep_appends rules index rule b srcCidr hasAnyPort :
  appends (hygieneStep rules index rule b srcCidr hasAnyPort).
Proof.
  unfold hygieneStep.
  apply (appends_compose
           (fun a => match find (conflicts rule) (JS.slice0 index rules) with
                     | Some prev =>
                         if FirewallRule.enabled rule
                         then pushHygiene (conflictFinding rule prev) _
                         else _
                     | None => _
                     end)
           (fun a => if negb (FirewallRule.enabled rule) && b
                     then if (srcCidr =? 0) || hasAnyPort
                          then pushHygiene (latentRiskFinding rule) a else a
                     else a)).
  - apply (appends_compose
             (fun a => match find (shadows rule) (JS.slice0 index rules) with
                       | Some prev =>
                           if FirewallRule.enabled rule
                           then pushHygiene (shadowingFinding rule prev) a
                           else a
                       | None => a
                       end)
             (fun a => match find (conflicts rule) (JS.slice0 index rules) with
                       | Some prev =>
                           if FirewallRule.enabled rule
                           then pushHygiene (conflictFinding rule prev) a
                           else a
                       | None => a
                       end)).
    + apply appends_option; [|auto with appends]. intros prev.
      apply appends_if; auto with appends.
    + apply appends_option; [|auto with appends]. intros prev.
      apply appends_if; auto with appends.
  - apply appends_if; [|auto with appends].
    apply appends_if; auto with appends.
Qed.

Lemma analyzeRule_appends rules active index rule :
  appends (fun a => analyzeRule rules active a index rule).
Proof.
  unfold analyzeRule.
  apply (appends_compose
           (fun a => insecurePortStep _ _ _ _ (subnetStep _ _ _ (exposureStep _ _ _ _ _ _ a)))
           (hygieneStep _ _ _ _ _ _)); [|apply hygieneStep_appends].
  apply (appends_compose
           (fun a => subnetStep _ _ _ (exposureStep _ _ _ _ _ _ a))
           (insecurePortStep _ _ _ _)); [|apply insecurePortStep_appends].
  apply (appends_compose (exposureStep _ _ _ _ _ _) (subnetStep _ _ _));
    [apply exposureStep_appends|apply subnetStep_appends].
Qed.

(** On any arrays the callback appends what [pushedBy] says. *)
Lemma analyzeRule_pushes rules portSettings a index rule :
  analyzeRule rules (activeInsecurePorts portSettings) a index rule
  = mkArrays
      (findings_arr a ++ findings_arr (pushedBy rules portSettings index rule))
      (hygiene_arr a ++ hygiene_arr (pushedBy rules portSettings index rule)).
Proof. apply (analyzeRule_appends rules _ index rule a). Qed.

(** ** The loop of [analyzeRules] *)

Lemma forEachFrom_pushes rules portSettings l k a :
  JS.forEachFrom (analyzeRule rules (activeInsecurePorts portSettings)) k l a
  = mkArrays
      (findings_arr a
       ++ concat (imap (fun i r => findings_arr (pushedBy rules portSettings (k + i) r)) l))
      (hygiene_arr a
       ++ concat (imap (fun i r => hygiene_arr (pushedBy rules portSettings (k + i) r)) l)).
Proof.
  revert k a. induction l as [|r l IH]; intros k a; simpl.
  - rewrite !app_nil_r. by destruct a.
  - rewrite IH, analyzeRule_pushes; simpl.
    rewrite Nat.add_0_r, <- !app_assoc. f_equal; f_equal; f_equal; f_equal.
    + apply imap_ext. intros i x _; simpl. do 2 f_equal; lia.
    + apply imap_ext. intros i x _; simpl. do 2 f_equal; lia.
Qed.

(** The [findings] array of the result: what the iterations push, in rule
    order. *)
Lemma analyzeRules_findings rules portSettings :
  AnalysisResults.findings (analyzeRules rules portSettings)
  = concat (imap (fun i r => findings_arr (pushedBy rules portSettings i r)) rules).
Proof.
  unfold analyzeRules, JS.forEach; simpl.
  by rewrite (forEachFrom_pushes rules portSettings rules 0 (mkArrays [] [])).
Qed.

(** The [hygiene] array of the result, likewise. *)
Lemma analyzeRules_hygiene rules portSettings :
  AnalysisResults.hygiene (analyzeRules rules portSettings)
  = concat (imap (fun i r => hygiene_arr (pushedBy rules portSettings i r)) rules).
Proof.
  unfold analyzeRules, JS.forEach; simpl.
  by rewrite (forEachFrom_pushes rules portSettings rules 0 (mkArrays [] [])).
Qed.

Lemma in_concat_imap {A B} (f : nat -> A -> list B) (l : list A) i x y :
  l !! i = Some x -> In y (f i x) -> In y (concat (imap f l)).
Proof.
  intros Hi Hy. apply in_concat. exists (f i x). split; [|done].
  apply list_elem_of_In, list_elem_of_lookup. exists i.
  by rewrite list_lookup_imap, Hi.
Qed.

Lemma concat_imap_in {A B} (f : nat -> A -> list B) (l : list A) y :
  In y (concat (imap f l)) -> exists i x, l !! i = Some x /\ In y (f i x).
Proof.
  intros Hy. apply in_concat in Hy as (seg & Hseg & Hy).
  apply list_elem_of_In, list_elem_of_lookup in Hseg as [i Hi].
  rewrite list_lookup_imap in Hi.
  destruct (l !! i) as [x|] eqn:Hx; [|done].
  exists i, x. split; [done|]. simpl in Hi. by simplify_eq.
Qed.

(** Whatever an iteration pushes is in the result. *)
Lemma pushed_finding_in_result rules portSettings i rule f :
  rules !! i = Some rule ->
  In f (findings_arr (pushedBy rules portSettings i rule)) ->
  In f (AnalysisResults.findings (analyzeRules rules portSettings)).
Proof.
  intros Hi Hf. rewrite analyzeRules_findings.
  by apply (in_concat_imap _ rules i rule).
Qed.

Lemma pushed_hygiene_in_result rules portSettings i rule f :
  rules !! i = Some rule ->
  In f (hygiene_arr (pushedBy rules portSettings i rule)) ->
  In f (AnalysisResults.hygiene (analyzeRules rules portSettings)).
Proof.
  intros Hi Hf. rewrite analyzeRules_hygiene.
  by apply (in_concat_imap _ rules i rule).
Qed.

(** ** What one iteration pushes, step by step *)

Lemma exposureStep_hygiene rule b1 b2 b3 b4 b5 a :
  hygiene_arr (exposureStep rule b1 b2 b3 b4 b5 a) = hygiene_arr a.
Proof.
  unfold exposureStep. destruct (b1 && _); [|done].
  by destruct (Qle_bool _ _), b2, b3.
Qed.

Lemma subnetStep_hygiene rule b srcCidr a :
  hygiene_arr (subnetStep rule b srcCidr a) = hygiene_arr a.
Proof.
  unfold subnetStep. destruct b; [|done].
  destruct (_ && _); [done|]. by destruct (_ && _).
Qed.

Lemma insecurePortCallback_hygiene rule active a p :
  hygiene_arr (insecurePortCallback rule active a p) = hygiene_arr a.
Proof.
  unfold insecurePortCallback. destruct (p =? -1); [done|].
  by destruct (active !! p).
Qed.

Lemma insecurePortStep_hygiene rule b ports active a :
  hygiene_arr (insecurePortStep rule b ports active a) = hygiene_arr a.
Proof.
  unfold insecurePortStep. destruct b; [|done].
  revert a. induction ports as [|p ports IH]; intros a; simpl; [done|].
  by rewrite IH, insecurePortCallback_hygiene.
Qed.

Lemma hygieneStep_findings rules index rule b srcCidr hasAnyPort a :
  findings_arr (hygieneStep rules index rule b srcCidr hasAnyPort a)
  = findings_arr a.
Proof.
  unfold hygieneStep.
  destruct (find (shadows rule) _), (find (conflicts rule) _),
    (FirewallRule.enabled rule), b, ((srcCidr =? 0) || hasAnyPort); done.
Qed.

(** The scoring findings of an iteration: the three checks, in order. *)
Lemma pushedBy_findings rules portSettings index rule :
  let ports := parsePorts (FirewallRule.destinationPort rule) in
  let srcCidr := getCidrSize (FirewallRule.source rule) in
  let dstCidr := getCidrSize (FirewallRule.destination rule) in
  let isAllow := bool_decide (FirewallRule.action rule = Action.ALLOW) in
  findings_arr (pushedBy rules portSettings index rule)
  = findings_arr
      (exposureStep rule isAllow (srcCidr =? 0) (dstCidr =? 0)
         (bool_decide (FirewallRule.protocol rule = Protocol.ANY))
         (JS.arrayIncludes (-1) ports) noArrays)
    ++ findings_arr (subnetStep rule isAllow srcCidr noArrays)
    ++ findings_arr
         (insecurePortStep rule isAllow ports
            (activeInsecurePorts portSettings) noArrays).
Proof.
  intros ports srcCidr dstCidr isAllow. unfold pushedBy, analyzeRule.
  rewrite hygieneStep_findings.
  fold ports srcCidr dstCidr isAllow.
  rewrite (insecurePortStep_appends rule isAllow ports _ (subnetStep _ _ _ _)); simpl.
  rewrite (subnetStep_appends rule isAllow srcCidr (exposureStep _ _ _ _ _ _ _)); simpl.
  by rewrite app_assoc.
Qed.

(** The hygiene findings of an iteration come from step 4 alone. *)
Lemma pushedBy_hygiene rules portSettings index rule :
  hygiene_arr (pushedBy rules portSettings index rule)
  = hygiene_arr
      (hygieneStep rules index rule
         (bool_decide (FirewallRule.action rule = Action.ALLOW))
         (getCidrSize (FirewallRule.source rule))
         (JS.arrayIncludes (-1) (parsePorts (FirewallRule.destinationPort rule)))
         noArrays).
Proof.
  unfold pushedBy, analyzeRule.
  rewrite (hygieneStep_appends _ _ _ _ _ _ (insecurePortStep _ _ _ _ _)); simpl.
  rewrite insecurePortStep_hygiene, subnetStep_hygiene, exposureStep_hygiene.
  done.
Qed.

(** ** Categories of the pushed findings *)

Lemma ofCategory_app c l1 l2 :
  ofCategory c (l1 ++ l2) = ofCategory c l1 ++ ofCategory c l2.
Proof. apply List.filter_app. Qed.

Lemma ofCategory_same c l :
  Forall (fun f => AnalysisFinding.category f = c) l -> ofCategory c l = l.
Proof.
  induction 1 as [|f l Hf _ IH]; [done|].
  unfold ofCategory in *; simpl. unfold hasCategory at 1.
  rewrite bool_decide_eq_true_2 by done. by rewrite IH.
Qed.

Lemma ofCategory_other c c' l :
  c' <> c ->
  Forall (fun f => AnalysisFinding.category f = c') l -> ofCategory c l = [].
Proof.
  intros Hne. induction 1 as [|f l Hf _ IH]; [done|].
  unfold ofCategory in *; simpl. unfold hasCategory at 1.
  rewrite bool_decide_eq_false_2 by congruence. done.
Qed.

Lemma exposureStep_category rule b1 b2 b3 b4 b5 :
  Forall (fun f => AnalysisFinding.category f = Excessive_Exposure)
         (findings_arr (exposureStep rule b1 b2 b3 b4 b5 noArrays)).
Proof.
  unfold exposureStep. destruct (b1 && _); [|constructor].
  destruct (Qle_bool _ _), b2, b3; repeat constructor.
Qed.

Lemma subnetStep_category rule b srcCidr :
  Forall (fun f => AnalysisFinding.category f = Subnet_Scope)
         (findings_arr (subnetStep rule b srcCidr noArrays)).
Proof.
  unfold subnetStep. destruct b; [|constructor].
  destruct (_ && _); [repeat constructor|].
  destruct (_ && _); repeat constructor.
Qed.

Lemma insecurePortCallback_category rule active p :
  Forall (fun f => AnalysisFinding.category f = Insecure_Port)
         (findings_arr (insecurePortCallback rule active noArrays p)).
Proof.
  unfold insecurePortCallback. destruct (p =? -1); [constructor|].
  destruct (active !! p); repeat constructor.
Qed.

(** The port loop pushes, port after port, what its callback pushes. *)
Lemma insecurePort_fold rule active ports a :
  findings_arr (fold_left (insecurePortCallback rule active) ports a)
  = findings_arr a
    ++ flat_map (fun p => findings_arr (insecurePortCallback rule active noArrays p))
                ports.
Proof.
  revert a. induction ports as [|p ports IH]; intros a; simpl.
  - by rewrite app_nil_r.
  - rewrite IH, (insecurePortCallback_appends rule active p a); simpl.
    by rewrite app_assoc.
Qed.

Lemma insecurePortStep_category rule b ports active :
  Forall (fun f => AnalysisFinding.category f = Insecure_Port)
         (findings_arr (insecurePortStep rule b ports active noArrays)).
Proof.
  unfold insecurePortStep. destruct b; [|constructor].
  rewrite insecurePort_fold; simpl.
  induction ports as [|p ports IH]; simpl; [constructor|].
  apply Forall_app. split; [apply insecurePortCallback_category|done].
Qed.

Lemma pushedBy_exposure rules portSettings index rule :
  ofCategory Excessive_Exposure (findings_arr (pushedBy rules portSettings index rule))
  = findings_arr
      (exposureStep rule
         (bool_decide (FirewallRule.action rule = Action.ALLOW))
         (getCidrSize (FirewallRule.source rule) =? 0)
         (getCidrSize (FirewallRule.destination rule) =? 0)
         (bool_decide (FirewallRule.protocol rule = Protocol.ANY))
         (JS.arrayIncludes (-1) (parsePorts (FirewallRule.destinationPort rule)))
         noArrays).
Proof.
  rewrite pushedBy_findings; cbv zeta. rewrite !ofCategory_app.
  rewrite (ofCategory_same _ _ (exposureStep_category _ _ _ _ _ _)).
  rewrite (ofCategory_other Excessive_Exposure Subnet_Scope _ ltac:(discriminate) (subnetStep_category _ _ _)).
  rewrite (ofCategory_other Excessive_Exposure Insecure_Port _ ltac:(discriminate)
             (insecurePortStep_category _ _ _ _)).
  by rewrite !app_nil_r.
Qed.

Lemma pushedBy_subnet rules portSettings index rule :
  ofCategory Subnet_Scope (findings_arr (pushedBy rules portSettings index rule))
  = findings_arr
      (subnetStep rule (bool_decide (FirewallRule.action rule = Action.ALLOW))
         (getCidrSize (FirewallRule.source rule)) noArrays).
Proof.
  rewrite pushedBy_findings; cbv zeta. rewrite !ofCategory_app.
  rewrite (ofCategory_same _ _ (subnetStep_category _ _ _)).
  rewrite (ofCategory_other Subnet_Scope Excessive_Exposure _ ltac:(discriminate)
             (exposureStep_category _ _ _ _ _ _)).
  rewrite (ofCategory_other Subnet_Scope Insecure_Port _ ltac:(discriminate)
             (insecurePortStep_category _ _ _ _)).
  by rewrite app_nil_r.
Qed.

Lemma pushedBy_insecurePort rules portSettings index rule :
  ofCategory Insecure_Port (findings_arr (pushedBy rules portSettings index rule))
  = findings_arr
      (insecurePortStep rule (bool_decide (FirewallRule.action rule = Action.ALLOW))
         (parsePorts (FirewallRule.destinationPort rule))
         (activeInsecurePorts portSettings) noArrays).
Proof.
  rewrite pushedBy_findings; cbv zeta. rewrite !ofCategory_app.
  rewrite (ofCategory_same _ _ (insecurePortStep_category _ _ _ _)).
  rewrite (ofCategory_other Insecure_Port Excessive_Exposure _ ltac:(discriminate)
             (exposureStep_category _ _ _ _ _ _)).
  by rewrite (ofCategory_other Insecure_Port Subnet_Scope _ ltac:(discriminate) (subnetStep_category _ _ _)).
Qed.

Lemma ofCategory_in c l f : In f (ofCategory c l) -> In f l.
Proof. unfold ofCategory. rewrite List.filter_In. tauto. Qed.

Lemma arrayIncludes_elem_of x l : JS.arrayIncludes x l = bool_decide (x ∈ l).
Proof.
  unfold JS.arrayIncludes. induction l as [|y l IH].
  - symmetry. apply bool_decide_eq_false_2. by intros ?%elem_of_nil.
  - cbn [existsb]. rewrite IH. destruct (Z.eqb_spec x y) as [Heq|Hne]; cbn [orb]; [subst y|].
    + symmetry. apply bool_decide_eq_true_2, list_elem_of_here.
    + apply bool_decide_ext. rewrite elem_of_cons.
      split; [by right|by intros [?|?]].
Qed.

(** ** Excessive exposure *)

Lemma anySource_eqb rule :
  (getCidrSize (FirewallRule.source rule) =? 0) = anySource rule.
Proof.
  unfold anySource. destruct (Z.eqb_spec (getCidrSize (FirewallRule.source rule)) 0).
  - by rewrite bool_decide_eq_true_2.
  - by rewrite bool_decide_eq_false_2.
Qed.

Lemma anyDest_eqb rule :
  (getCidrSize (FirewallRule.destination rule) =? 0) = anyDest rule.
Proof.
  unfold anyDest.
  destruct (Z.eqb_spec (getCidrSize (FirewallRule.destination rule)) 0).
  - by rewrite bool_decide_eq_true_2.
  - by rewrite bool_decide_eq_false_2.
Qed.

(** The half point of the protocol never decides: the count reaches 3
    exactly when source, destination and port are all wildcards. *)
Lemma weightedCount_ge_3 rule :
  (3 <= weightedCount rule)%Q
  <-> anySource rule = true /\ anyDest rule = true /\ hasAnyPort rule = true.
Proof.
  unfold weightedCount, weight.
  destruct (anySource rule), (anyDest rule), (hasAnyPort rule), (anyProto rule);
    split; try (intros H; by vm_compute in H); try done;
    try (intros (? & ? & ?); discriminate).
Qed.

Lemma exposure_segment rules portSettings i rule :
  ofCategory Excessive_Exposure (findings_arr (pushedBy rules portSettings i rule))
  = findings_arr
      (exposureStep rule
         (bool_decide (FirewallRule.action rule = Action.ALLOW))
         (anySource rule) (anyDest rule) (anyProto rule)
         (hasAnyPort rule) noArrays).
Proof.
  rewrite pushedBy_exposure, anySource_eqb, anyDest_eqb.
  by rewrite arrayIncludes_elem_of.
Qed.

Lemma exposure_exists rules portSettings i rule :
  FirewallRule.action rule = Action.ALLOW ->
  anySource rule || anyDest rule || anyProto rule || hasAnyPort rule = true ->
  exists e,
    ofCategory Excessive_Exposure (findings_arr (pushedBy rules portSettings i rule))
    = [e].
Proof.
  intros Hallow Hany. rewrite exposure_segment. unfold exposureStep.
  rewrite bool_decide_eq_true_2, Hany by done. cbn [andb].
  destruct (Qle_bool 3 _), (anySource rule), (anyDest rule); by eexists.
Qed.

(** C3. An ALLOW rule with at least one wildcard dimension gets exactly one
    Excessive Exposure finding, classified by first match: weighted count of
    at least 3 gives CRITICAL/100, else a wildcard source HIGH/85, else a
    wildcard destination HIGH/80, else MEDIUM/60.  A rule that is not ALLOW,
    or has no wildcard dimension, gets none. *)
Theorem excessive_exposure_classification
    (rules : list FirewallRule.t) (portSettings : list InsecurePortSetting.t)
    (i : nat) (rule : FirewallRule.t) :
  rules !! i = Some rule ->
  let exposure :=
    ofCategory Excessive_Exposure
      (findings_arr (pushedBy rules portSettings i rule)) in
  (FirewallRule.action rule = Action.ALLOW ->
   anySource rule || anyDest rule || anyProto rule || hasAnyPort rule = true ->
   exists f,
     exposure = [f]
     /\ In f (AnalysisResults.findings (analyzeRules rules portSettings))
     /\ AnalysisFinding.ruleId f = FirewallRule.id rule
     /\ AnalysisFinding.category f = Excessive_Exposure
     /\ ((3 <= weightedCount rule)%Q ->
         AnalysisFinding.severity f = CRITICAL /\ AnalysisFinding.score f = 100)
     /\ (~ (3 <= weightedCount rule)%Q -> anySource rule = true ->
         AnalysisFinding.severity f = HIGH /\ AnalysisFinding.score f = 85)
     /\ (~ (3 <= weightedCount rule)%Q -> anySource rule = false ->
         anyDest rule = true ->
         AnalysisFinding.severity f = HIGH /\ AnalysisFinding.score f = 80)
     /\ (~ (3 <= weightedCount rule)%Q -> anySource rule = false ->
         anyDest rule = false ->
         AnalysisFinding.severity f = MEDIUM /\ AnalysisFinding.score f = 60))
  /\ (FirewallRule.action rule <> Action.ALLOW -> exposure = [])
  /\ (anySource rule || anyDest rule || anyProto rule || hasAnyPort rule = false ->
      exposure = []).
Proof.
  intros Hi exposure.
  assert (Hseg := exposure_segment rules portSettings i rule). fold exposure in Hseg.
  split; [|split].
  - intros Hallow Hany.
    assert (Hin : forall f, exposure = [f] ->
              In f (AnalysisResults.findings (analyzeRules rules portSettings))).
    { intros f Hf. apply (pushed_finding_in_result _ _ i rule); [done|].
      apply (ofCategory_in Excessive_Exposure). fold exposure. rewrite Hf. by left. }
    revert Hin. rewrite Hseg. unfold exposureStep.
    rewrite bool_decide_eq_true_2, Hany by done. cbn [andb].
    pose proof (weightedCount_ge_3 rule) as Hw.
    assert (Hq : Qle_bool 3
              ((if anySource rule then 1 else 0) + (if anyDest rule then 1 else 0)
               + (if hasAnyPort rule then 1 else 0)
               + (if anyProto rule then 1 # 2 else 0))%Q = true
            <-> (3 <= weightedCount rule)%Q) by apply Qle_bool_iff.
    destruct (Qle_bool 3 _) eqn:Hle.
    + assert (Hy : (3 <= weightedCount rule)%Q) by by apply Hq.
      intros Hin. eexists. split; [reflexivity|]. split; [by apply Hin|].
      cbn [AnalysisFinding.ruleId AnalysisFinding.category
           AnalysisFinding.severity AnalysisFinding.score].
      repeat split; intros; try done; tauto.
    + assert (Hn : ~ (3 <= weightedCount rule)%Q) by (intros H; apply Hq in H; done).
      destruct (anySource rule) eqn:Hs; [|destruct (anyDest rule) eqn:Hd];
        intros Hin; (eexists; split; [reflexivity|]; split; [by apply Hin|]);
        cbn [AnalysisFinding.ruleId AnalysisFinding.category
             AnalysisFinding.severity AnalysisFinding.score];
        repeat split; intros; try done; tauto.
  - intros Hdeny. rewrite Hseg. unfold exposureStep.
    by rewrite bool_decide_eq_false_2.
  - intros Hnone. rewrite Hseg. unfold exposureStep.
    by rewrite Hnone, andb_false_r.
Qed.

Lemma excessive_exposure_classification_witness :
  let rule := sampleRule "1" "any" "any" "any" Protocol.TCP Action.ALLOW true in
  exists f,
    ofCategory Excessive_Exposure (findings_arr (pushedBy [rule] [] 0 rule)) = [f]
    /\ AnalysisFinding.severity f = CRITICAL /\ AnalysisFinding.score f = 100.
Proof.
  intros rule.
  destruct (excessive_exposure_classification [rule] [] 0 rule eq_refl) as [H _].
  destruct (H eq_refl eq_refl) as (f & Hf & _ & _ & _ & Hc & _).
  exists f. split; [exact Hf|]. apply Hc. by vm_compute.
Defined.

(** ** Subnet scope *)

(** C4. An ALLOW rule gets exactly one Subnet Scope finding when its source
    scope s satisfies 0 < s <= 22, CRITICAL/80 up to 8, HIGH/80 from 9 to 16
    and HIGH/60 from 17 to 22, and none otherwise; the finding is pushed
    whether or not the rule also gets an Excessive Exposure finding. *)
Theorem subnet_scope_bands
    (rules : list FirewallRule.t) (portSettings : list InsecurePortSetting.t)
    (i : nat) (rule : FirewallRule.t) :
  rules !! i = Some rule ->
  let s := getCidrSize (FirewallRule.source rule) in
  let pushed := findings_arr (pushedBy rules portSettings i rule) in
  (FirewallRule.action rule = Action.ALLOW -> 0 < s <= 22 ->
   exists f,
     ofCategory Subnet_Scope pushed = [f]
     /\ In f (AnalysisResults.findings (analyzeRules rules portSettings))
     /\ AnalysisFinding.ruleId f = FirewallRule.id rule
     /\ AnalysisFinding.category f = Subnet_Scope
     /\ (0 < s <= 8 ->
         AnalysisFinding.severity f = CRITICAL /\ AnalysisFinding.score f = 80)
     /\ (8 < s <= 16 ->
         AnalysisFinding.severity f = HIGH /\ AnalysisFinding.score f = 80)
     /\ (17 <= s <= 22 ->
         AnalysisFinding.severity f = HIGH /\ AnalysisFinding.score f = 60))
  /\ (FirewallRule.action rule = Action.ALLOW -> s <= 0 \/ 22 < s ->
      ofCategory Subnet_Scope pushed = [])
  /\ (FirewallRule.action rule <> Action.ALLOW -> ofCategory Subnet_Scope pushed = [])
  /\ (FirewallRule.action rule = Action.ALLOW -> 0 < s <= 22 ->
      anyDest rule || anyProto rule || hasAnyPort rule = true ->
      exists f e,
        ofCategory Subnet_Scope pushed = [f]
        /\ ofCategory Excessive_Exposure pushed = [e]).
Proof.
  intros Hi s pushed.
  assert (Hseg : ofCategory Subnet_Scope pushed
                 = findings_arr
                     (subnetStep rule
                        (bool_decide (FirewallRule.action rule = Action.ALLOW))
                        s noArrays)) by apply pushedBy_subnet.
  assert (Hone : FirewallRule.action rule = Action.ALLOW -> 0 < s <= 22 ->
            exists f,
              ofCategory Subnet_Scope pushed = [f]
              /\ AnalysisFinding.ruleId f = FirewallRule.id rule
              /\ AnalysisFinding.category f = Subnet_Scope
              /\ (0 < s <= 8 ->
                  AnalysisFinding.severity f = CRITICAL /\ AnalysisFinding.score f = 80)
              /\ (8 < s <= 16 ->
                  AnalysisFinding.severity f = HIGH /\ AnalysisFinding.score f = 80)
              /\ (17 <= s <= 22 ->
                  AnalysisFinding.severity f = HIGH /\ AnalysisFinding.score f = 60)).
  { intros Hallow Hs. rewrite Hseg. unfold subnetStep.
    rewrite bool_decide_eq_true_2 by done.
    destruct (Z.leb_spec s 16), (Z.ltb_spec 0 s); cbn [andb]; try lia.
    - eexists. split; [reflexivity|].
      cbn [AnalysisFinding.ruleId AnalysisFinding.category
           AnalysisFinding.severity AnalysisFinding.score].
      destruct (Z.leb_spec s 8); repeat split; intros; try done; lia.
    - destruct (Z.leb_spec 17 s), (Z.leb_spec s 22); cbn [andb]; try lia.
      eexists. split; [reflexivity|].
      cbn [AnalysisFinding.ruleId AnalysisFinding.category
           AnalysisFinding.severity AnalysisFinding.score].
      repeat split; intros; try done; lia. }
  split; [|split; [|split]].
  - intros Hallow Hs. destruct (Hone Hallow Hs) as (f & Hf & Hrest).
    exists f. split; [done|]. split; [|done].
    apply (pushed_finding_in_result _ _ i rule); [done|].
    apply (ofCategory_in Subnet_Scope). fold pushed. rewrite Hf. by left.
  - intros Hallow Hs. rewrite Hseg. unfold subnetStep.
    rewrite bool_decide_eq_true_2 by done.
    destruct (Z.leb_spec s 16), (Z.ltb_spec 0 s), (Z.leb_spec 17 s),
      (Z.leb_spec s 22); cbn [andb]; try lia; done.
  - intros Hdeny. rewrite Hseg. unfold subnetStep.
    by rewrite bool_decide_eq_false_2.
  - intros Hallow Hs Hany. destruct (Hone Hallow Hs) as (f & Hf & _).
    destruct (exposure_exists rules portSettings i rule Hallow) as [e He].
    { revert Hany.
      by destruct (anySource rule), (anyDest rule), (anyProto rule), (hasAnyPort rule). }
    by exists f, e.
Qed.

Lemma subnet_scope_bands_witness :
  let rule := sampleRule "1" "10.0.0.0/8" "any" "443" Protocol.TCP Action.ALLOW true in
  exists f e,
    ofCategory Subnet_Scope (findings_arr (pushedBy [rule] [] 0 rule)) = [f]
    /\ ofCategory Excessive_Exposure (findings_arr (pushedBy [rule] [] 0 rule)) = [e].
Proof.
  intros rule.
  destruct (subnet_scope_bands [rule] [] 0 rule eq_refl) as (_ & _ & _ & H).
  apply H; [reflexivity|by vm_compute|reflexivity].
Defined.

(** ** Policy hygiene: what step 4 pushes *)

Lemma find_first {A} (p : A -> bool) (l : list A) x :
  find p l = Some x ->
  exists j, l !! j = Some x /\ p x = true
            /\ forall k y, (k < j)%nat -> l !! k = Some y -> p y = false.
Proof.
  induction l as [|a l IH]; simpl; [done|].
  destruct (p a) eqn:Ha.
  - intros [= ->]. exists 0%nat. repeat split; [done|]. intros k y Hk; lia.
  - intros Hf. destruct (IH Hf) as (j & Hj & Hx & Hmin).
    exists (S j). repeat split; [done..|].
    intros [|k] y Hk Hy; simpl in Hy; [by simplify_eq|].
    apply (Hmin k); [lia|done].
Qed.

Lemma find_none_lookup {A} (p : A -> bool) (l : list A) :
  find p l = None -> forall j y, l !! j = Some y -> p y = false.
Proof.
  intros Hf j y Hy. apply (List.find_none p l Hf).
  by apply list_elem_of_In, list_elem_of_lookup_2 with j.
Qed.

(** The scan of [rules.slice(0, i)] finds the first rule before [i] that
    satisfies the predicate. *)
Lemma find_slice (P : FirewallRule.t -> Prop) (p : FirewallRule.t -> bool)
    (rules : list FirewallRule.t) (i : nat) :
  (forall q, p q = true <-> P q) ->
  match find p (JS.slice0 i rules) with
  | Some prev => exists j, firstBefore P rules i j prev
  | None => forall j q, (j < i)%nat -> rules !! j = Some q -> ~ P q
  end.
Proof.
  intros Hp. unfold JS.slice0. destruct (find p (take i rules)) as [prev|] eqn:Hf.
  - destruct (find_first p _ _ Hf) as (j & Hj & Hprev & Hmin).
    apply lookup_take_Some in Hj as [Hj Hlt].
    exists j. repeat split; [done..|by apply Hp|].
    intros k q Hk Hq HP. apply Hp in HP.
    rewrite (Hmin k q) in HP; [done|lia|].
    apply lookup_take_Some. split; [done|lia].
  - intros j q Hj Hq HP. apply Hp in HP.
    rewrite (find_none_lookup p _ Hf j q) in HP; [done|].
    apply lookup_take_Some. by split.
Qed.

Lemma firstBefore_unique P rules i j1 p1 j2 p2 :
  firstBefore P rules i j1 p1 -> firstBefore P rules i j2 p2 ->
  j1 = j2 /\ p1 = p2.
Proof.
  intros (H1 & L1 & P1 & M1) (H2 & L2 & P2 & M2).
  assert (j1 = j2) as ->.
  { destruct (Nat.lt_trichotomy j1 j2) as [Hlt|[Heq|Hgt]]; [|done|].
    - by destruct (M2 j1 p1 Hlt L1).
    - by destruct (M1 j2 p2 Hgt L2). }
  split; [done|]. congruence.
Qed.

Lemma string_eqb_true s t : String.eqb s t = true <-> s = t.
Proof. apply String.eqb_eq. Qed.

Lemma lowerChar_letter c :
  Ascii.eqb (JS.lowerChar c) "a" = Ascii.eqb c "a" || Ascii.eqb c "A"
  /\ Ascii.eqb (JS.lowerChar c) "n" = Ascii.eqb c "n" || Ascii.eqb c "N"
  /\ Ascii.eqb (JS.lowerChar c) "y" = Ascii.eqb c "y" || Ascii.eqb c "Y".
Proof. destruct c as [[|] [|] [|] [|] [|] [|] [|] [|]]; by vm_compute. Qed.

(** The test of the scan, [s.toLowerCase() === 'any'], holds of the eight
    spellings of the word and of no other text. *)
Lemma wildcardText_test s :
  String.eqb (JS.toLowerCase s) "any" = true <-> wildcardText s.
Proof.
  unfold wildcardText.
  assert (Hb : String.eqb (JS.toLowerCase s) "any"
               = existsb (String.eqb s) anySpellings).
  { destruct s as [|c1 [|c2 [|c3 [|c4 s]]]]; try reflexivity;
      cbn [JS.toLowerCase String.eqb anySpellings existsb];
      try (destruct (lowerChar_letter c1) as (-> & _ & _);
           destruct (lowerChar_letter c2) as (_ & -> & _);
           destruct (lowerChar_letter c3) as (_ & _ & ->));
      repeat match goal with
             | |- context [Ascii.eqb ?a ?b] => destruct (Ascii.eqb a b)
             end;
      reflexivity. }
  rewrite Hb. rewrite existsb_exists. split.
  - intros (t & Hin & ->%String.eqb_eq). done.
  - intros Hin. exists s. split; [done|apply String.eqb_refl].
Qed.

Lemma shadows_eclipses rule prev : shadows rule prev = true <-> eclipses prev rule.
Proof.
  unfold shadows, eclipses.
  rewrite !andb_true_iff, !orb_true_iff, !bool_decide_eq_true, !wildcardText_test,
    !string_eqb_true.
  tauto.
Qed.

Lemma conflicts_contradicts rule prev :
  conflicts rule prev = true <-> contradicts prev rule.
Proof.
  unfold conflicts, contradicts.
  rewrite !andb_true_iff, negb_true_iff, bool_decide_eq_false, !string_eqb_true.
  tauto.
Qed.

(** The three parts of what step 4 pushes for one rule, in order. *)
Lemma hygiene_segment rules portSettings i rule :
  hygiene_arr (pushedBy rules portSettings i rule)
  = match find (shadows rule) (JS.slice0 i rules) with
    | Some prev =>
        if FirewallRule.enabled rule then [shadowingFinding rule prev] else []
    | None => []
    end
    ++ match find (conflicts rule) (JS.slice0 i rules) with
       | Some prev =>
           if FirewallRule.enabled rule then [conflictFinding rule prev] else []
       | None => []
       end
    ++ (if negb (FirewallRule.enabled rule)
           && bool_decide (FirewallRule.action rule = Action.ALLOW)
        then if anySource rule || hasAnyPort rule
             then [latentRiskFinding rule] else []
        else []).
Proof.
  rewrite pushedBy_hygiene. unfold hygieneStep.
  rewrite anySource_eqb, arrayIncludes_elem_of. fold (hasAnyPort rule).
  destruct (find (shadows rule) _), (find (conflicts rule) _),
    (FirewallRule.enabled rule),
    (bool_decide (FirewallRule.action rule = Action.ALLOW)),
    (anySource rule || hasAnyPort rule); done.
Qed.

Lemma filter_all {A} (p : A -> bool) (l : list A) :
  Forall (fun x => p x = true) l -> List.filter p l = l.
Proof.
  induction 1 as [|x l Hx _ IH]; cbn [List.filter]; [done|]. by rewrite Hx, IH.
Qed.

Lemma filter_none {A} (p : A -> bool) (l : list A) :
  Forall (fun x => p x = false) l -> List.filter p l = [].
Proof.
  induction 1 as [|x l Hx _ IH]; cbn [List.filter]; [done|]. by rewrite Hx, IH.
Qed.

Lemma filter_shadowing_segment (rule : FirewallRule.t) l1 l2 l3 :
  Forall (fun f => exists prev, f = shadowingFinding rule prev) l1 ->
  Forall (fun f => exists prev, f = conflictFinding rule prev) l2 ->
  Forall (fun f => f = latentRiskFinding rule) l3 ->
  List.filter isShadowing (l1 ++ l2 ++ l3) = l1
  /\ List.filter (hasCategory Correlation_Error) (l1 ++ l2 ++ l3) = l2
  /\ List.filter isLatentRisk (l1 ++ l2 ++ l3) = l3.
Proof.
  intros H1 H2 H3. rewrite !List.filter_app.
  rewrite (filter_all isShadowing l1), (filter_none isShadowing l2),
    (filter_none isShadowing l3),
    (filter_none (hasCategory Correlation_Error) l1),
    (filter_all (hasCategory Correlation_Error) l2),
    (filter_none (hasCategory Correlation_Error) l3),
    (filter_none isLatentRisk l1), (filter_none isLatentRisk l2),
    (filter_all isLatentRisk l3);
    [by rewrite !app_nil_r|..];
    first [ by eapply Forall_impl; [exact H1|]; intros f (prev & ->)
          | by eapply Forall_impl; [exact H2|]; intros f (prev & ->)
          | by eapply Forall_impl; [exact H3|]; intros f -> ].
Qed.

(** The shadowing, conflict and latent-risk findings among what one
    iteration pushes. *)
Lemma hygiene_parts rules portSettings i rule :
  let pushed := hygiene_arr (pushedBy rules portSettings i rule) in
  List.filter isShadowing pushed
  = match find (shadows rule) (JS.slice0 i rules) with
    | Some prev =>
        if FirewallRule.enabled rule then [shadowingFinding rule prev] else []
    | None => []
    end
  /\ ofCategory Correlation_Error pushed
     = match find (conflicts rule) (JS.slice0 i rules) with
       | Some prev =>
           if FirewallRule.enabled rule then [conflictFinding rule prev] else []
       | None => []
       end
  /\ List.filter isLatentRisk pushed
     = (if negb (FirewallRule.enabled rule)
           && bool_decide (FirewallRule.action rule = Action.ALLOW)
        then if anySource rule || hasAnyPort rule
             then [latentRiskFinding rule] else []
        else []).
Proof.
  intros pushed. unfold pushed, ofCategory. rewrite hygiene_segment.
  apply (filter_shadowing_segment rule).
  - destruct (find (shadows rule) _) as [prev|]; [|constructor].
    destruct (FirewallRule.enabled rule); repeat constructor. by exists prev.
  - destruct (find (conflicts rule) _) as [prev|]; [|constructor].
    destruct (FirewallRule.enabled rule); repeat constructor. by exists prev.
  - destruct (_ && _); [|constructor]. destruct (_ || _); repeat constructor.
Qed.

(** ** Shadowing *)

Lemma shadowing_scan rules i rule :
  match find (shadows rule) (JS.slice0 i rules) with
  | Some prev => exists j, firstBefore (fun q => eclipses q rule) rules i j prev
  | None => forall j q, (j < i)%nat -> rules !! j = Some q -> ~ eclipses q rule
  end.
Proof. apply find_slice. intros q. apply shadows_eclipses. Qed.

Lemma conflict_scan rules i rule :
  match find (conflicts rule) (JS.slice0 i rules) with
  | Some prev => exists j, firstBefore (fun q => contradicts q rule) rules i j prev
  | None => forall j q, (j < i)%nat -> rules !! j = Some q -> ~ contradicts q rule
  end.
Proof. apply find_slice. intros q. apply conflicts_contradicts. Qed.

Lemma wildcardText_clean s : wildcardText s -> cleanText s = "any".
Proof.
  unfold wildcardText, anySpellings. cbn [In].
  intros [<-|[<-|[<-|[<-|[<-|[<-|[<-|[<-|[]]]]]]]]]; reflexivity.
Qed.

(** What the scan accepts is equal-or-broader in the sense of the
    specification. *)
Lemma eclipses_specEclipses prev rule : eclipses prev rule -> specEclipses prev rule.
Proof.
  intros (Hen & Hact & Hs & Hd & Hp & Hport). split_and!; try done.
  - destruct Hs as [Hs|Hs]; [by left|right].
    unfold specWildcardAddress. rewrite (wildcardText_clean _ Hs). by left.
  - destruct Hd as [Hd|Hd]; [by left|right].
    unfold specWildcardAddress. rewrite (wildcardText_clean _ Hd). by left.
  - destruct Hport as [Hport|Hport]; [by left|right].
    unfold specWildcardPort. rewrite (wildcardText_clean _ Hport). by left.
Qed.

Lemma specEclipses_plain prev rule :
  plainWildcards prev -> specEclipses prev rule -> eclipses prev rule.
Proof.
  intros (Ps & Pd & Pp) (Hen & Hact & Hs & Hd & Hp & Hport).
  split_and!; try done.
  - destruct Hs as [Hs|Hs]; [by left|right; by apply Ps].
  - destruct Hd as [Hd|Hd]; [by left|right; by apply Pd].
  - destruct Hport as [Hport|Hport]; [by left|right; by apply Pp].
Qed.

Lemma firstBefore_ext (P Q : FirewallRule.t -> Prop) rules i j prev :
  (forall k q, (k < i)%nat -> rules !! k = Some q -> (P q <-> Q q)) ->
  firstBefore P rules i j prev -> firstBefore Q rules i j prev.
Proof.
  intros Hext (Hj & Hprev & HP & Hmin). split_and!; try done.
  - by apply (Hext j prev Hj Hprev).
  - intros k q Hk Hq HQ. apply (Hmin k q Hk Hq).
    apply (Hext k q); [lia|done|done].
Qed.

(** C6, as stated, fails.  The rule [starRule] is a wildcard on every
    dimension for both parsers, hence equal-or-broader than [narrowRule] in
    the sense of the specification; yet [narrowRule] behind it gets no
    shadowing finding.  And the broad rule of the example does not shadow
    the narrow one when the two name different protocols. *)
Lemma shadowing_misses_wildcard_tokens :
  ((exists j prev, (j < 1)%nat /\ [starRule; narrowRule] !! j = Some prev
                   /\ specEclipses prev narrowRule)
   /\ List.filter isShadowing
        (AnalysisResults.hygiene (analyzeRules [starRule; narrowRule] [])) = [])
  /\ AnalysisResults.hygiene (analyzeRules [broadTcpRule; narrowUdpRule] []) = [].
Proof.
  split_and!; [|by vm_compute..].
  exists 0%nat, starRule. split_and!; [lia|done|].
  unfold specEclipses, specWildcardAddress, specWildcardPort,
    isAddressWildcard, isPortWildcard.
  split_and!; try done.
  - right. do 3 right. reflexivity.
  - right. do 3 right. reflexivity.
  - by right.
  - right. do 2 right. left. reflexivity.
Qed.

(** C6, amended.  An enabled rule at index i gets a shadowing finding
    (Policy Hygiene, INFORMATIONAL, score 20) exactly when an enabled rule
    before it has the same action and, on source, destination and
    destination port, the very text of the rule or the word "any" in some
    letter case, and the protocol of the rule or ANY.  The finding names
    the first such rule, which is equal-or-broader in the sense of the
    specification.  When the rules before index i write their wildcards as
    "any", this is the statement of the specification: a finding exactly
    when an earlier rule is equal-or-broader, naming the first one.  A
    rule at index 0 that is "any" on source, destination and port shadows a
    later enabled rule of the same action whose protocol it has or
    generalises, and the rule at index 0 is never shadowed. *)
Theorem shadowing_first_match
    (rules : list FirewallRule.t) (portSettings : list InsecurePortSetting.t)
    (i : nat) (rule : FirewallRule.t) :
  rules !! i = Some rule ->
  FirewallRule.enabled rule = true ->
  let shadowing :=
    List.filter isShadowing (hygiene_arr (pushedBy rules portSettings i rule)) in
  ((exists j prev, (j < i)%nat /\ rules !! j = Some prev /\ eclipses prev rule)
   <-> shadowing <> [])
  /\ (forall f, In f shadowing ->
      exists j prev,
        firstBefore (fun q => eclipses q rule) rules i j prev
        /\ specEclipses prev rule
        /\ shadowing = [f]
        /\ In f (AnalysisResults.hygiene (analyzeRules rules portSettings))
        /\ AnalysisFinding.ruleId f = FirewallRule.id rule
        /\ AnalysisFinding.category f = Policy_Hygiene
        /\ AnalysisFinding.severity f = INFORMATIONAL
        /\ AnalysisFinding.score f = 20
        /\ AnalysisFinding.explanation f
           = KBEntry.explanation SECURITY_KNOWLEDGE_BASE.HYGIENE.SHADOWING
             +:+ " This specific rule is eclipsed by Rule ID: "
             +:+ FirewallRule.id prev +:+ ".")
  /\ (Forall plainWildcards (take i rules) ->
      ((exists j prev, (j < i)%nat /\ rules !! j = Some prev
                       /\ specEclipses prev rule)
       <-> shadowing <> [])
      /\ forall f, In f shadowing ->
           exists j prev,
             firstBefore (fun q => specEclipses q rule) rules i j prev
             /\ AnalysisFinding.explanation f
                = KBEntry.explanation SECURITY_KNOWLEDGE_BASE.HYGIENE.SHADOWING
                  +:+ " This specific rule is eclipsed by Rule ID: "
                  +:+ FirewallRule.id prev +:+ ".")
  /\ (forall broad,
      rules !! 0%nat = Some broad -> (0 < i)%nat ->
      FirewallRule.enabled broad = true ->
      FirewallRule.action broad = FirewallRule.action rule ->
      wildcardText (FirewallRule.source broad) ->
      wildcardText (FirewallRule.destination broad) ->
      wildcardText (FirewallRule.destinationPort broad) ->
      FirewallRule.protocol broad = FirewallRule.protocol rule
      \/ FirewallRule.protocol broad = Protocol.ANY ->
      shadowing = [shadowingFinding rule broad])
  /\ (i = 0%nat -> shadowing = []).
Proof.
  intros Hi Hen shadowing.
  destruct (hygiene_parts rules portSettings i rule) as (Hsh & _ & _).
  fold shadowing in Hsh. rewrite Hen in Hsh.
  pose proof (shadowing_scan rules i rule) as Hscan.
  (* the two readings agree on a prefix of plain wildcards *)
  assert (Hplain : Forall plainWildcards (take i rules) ->
            forall k q, (k < i)%nat -> rules !! k = Some q ->
                        (eclipses q rule <-> specEclipses q rule)).
  { intros Hall k q Hk Hq. split; [apply eclipses_specEclipses|].
    apply specEclipses_plain. rewrite List.Forall_forall in Hall. apply Hall.
    apply (proj1 (list_elem_of_In _ _)). apply list_elem_of_lookup. exists k.
    apply lookup_take_Some. by split. }
  destruct (find (shadows rule) (JS.slice0 i rules)) as [prev|].
  - destruct Hscan as [j Hfirst].
    assert (Hex : exists j prev,
              (j < i)%nat /\ rules !! j = Some prev /\ eclipses prev rule).
    { destruct Hfirst as (? & ? & ? & _). by exists j, prev. }
    split; [|split; [|split; [|split]]].
    + rewrite Hsh. split; [done|by intros _].
    + intros f Hf. rewrite Hsh in Hf. destruct Hf as [<-|[]].
      exists j, prev. split; [done|].
      split; [apply eclipses_specEclipses; by destruct Hfirst as (_ & _ & ? & _)|].
      split; [done|]. split; [|done].
      apply (pushed_hygiene_in_result _ _ i rule); [done|].
      assert (Hin : In (shadowingFinding rule prev) shadowing)
        by (rewrite Hsh; by left).
      unfold shadowing in Hin. apply List.filter_In in Hin. tauto.
    + intros Hall. split.
      * rewrite Hsh. split; [done|]. intros _.
        destruct Hfirst as (Hj & Hprev & He & _). exists j, prev.
        split_and!; try done. by apply eclipses_specEclipses.
      * intros f Hf. rewrite Hsh in Hf. destruct Hf as [<-|[]].
        exists j, prev. split; [|done].
        apply (firstBefore_ext (fun q => eclipses q rule)); [|done].
        by apply Hplain.
    + intros broad H0 Hpos Hb Hact Hsrc Hdst Hport Hproto.
      assert (Hbroad : firstBefore (fun q => eclipses q rule) rules i 0 broad).
      { split_and!; try done.
        - split_and!; try done; by right.
        - intros k q Hk; lia. }
      destruct (firstBefore_unique _ _ _ _ _ _ _ Hfirst Hbroad) as [_ ->].
      done.
    + intros ->. destruct Hfirst as (Hlt & _). lia.
  - split; [|split; [|split; [|split]]].
    + rewrite Hsh. split; [|done]. intros (j & prev & Hj & Hprev & He).
      by destruct (Hscan j prev Hj Hprev).
    + intros f Hf. rewrite Hsh in Hf. destruct Hf.
    + intros Hall. split.
      * rewrite Hsh. split; [|done]. intros (j & prev & Hj & Hprev & He).
        destruct (Hscan j prev Hj Hprev). by apply (Hplain Hall j prev).
      * intros f Hf. rewrite Hsh in Hf. destruct Hf.
    + intros broad H0 Hpos Hb Hact Hsrc Hdst Hport Hproto.
      destruct (Hscan 0%nat broad Hpos H0).
      split_and!; try done; by right.
    + done.
Qed.

Lemma shadowing_first_match_witness :
  List.filter isShadowing
    (hygiene_arr (pushedBy [capitalRule; narrowRule] [] 1 narrowRule))
  = [shadowingFinding narrowRule capitalRule]
  /\ List.filter isShadowing
       (hygiene_arr (pushedBy [narrowRule; broadRule] [] 0 narrowRule))
     = []
  /\ ((exists j prev, (j < 1)%nat /\ [broadRule; narrowRule] !! j = Some prev
                      /\ specEclipses prev narrowRule)
      <-> List.filter isShadowing
            (hygiene_arr (pushedBy [broadRule; narrowRule] [] 1 narrowRule)) <> []).
Proof.
  split_and!.
  - destruct (shadowing_first_match [capitalRule; narrowRule] [] 1 narrowRule
                eq_refl eq_refl) as (_ & _ & _ & H & _).
    apply (H capitalRule); try reflexivity; [lia| | | |by right].
    + do 7 right. by left.
    + do 4 right. by left.
    + do 3 right. by left.
  - destruct (shadowing_first_match [narrowRule; broadRule] [] 0 narrowRule
                eq_refl eq_refl) as (_ & _ & _ & _ & H).
    by apply H.
  - destruct (shadowing_first_match [broadRule; narrowRule] [] 1 narrowRule
                eq_refl eq_refl) as (_ & _ & H & _).
    apply H. constructor; [|constructor].
    split_and!; intros _; by left.
Defined.

(** The correlation scan compares text: the wildcard "*", which both
    parsers read as universal, does not make the earlier rule broader. *)
Lemma shadowing_compares_text :
  getCidrSize (FirewallRule.source starRule) = 0
  /\ parsePorts (FirewallRule.destinationPort starRule) = [-1]
  /\ hygiene_arr (pushedBy [starRule; narrowRule] [] 1 narrowRule) = [].
Proof. by vm_compute. Qed.

(** ** Conflicts *)

(** C1, as stated, fails: of two enabled rules with identical source,
    destination and port text and opposite actions only the later one is
    flagged; the earlier one gets no Correlation Error finding. *)
Lemma conflict_earlier_rule_not_flagged :
  let rules := [conflictRuleA; conflictRuleB] in
  let hygiene := AnalysisResults.hygiene (analyzeRules rules []) in
  (FirewallRule.enabled conflictRuleA = true
   /\ FirewallRule.enabled conflictRuleB = true
   /\ FirewallRule.source conflictRuleA = FirewallRule.source conflictRuleB
   /\ FirewallRule.destination conflictRuleA = FirewallRule.destination conflictRuleB
   /\ FirewallRule.destinationPort conflictRuleA
      = FirewallRule.destinationPort conflictRuleB
   /\ FirewallRule.action conflictRuleA <> FirewallRule.action conflictRuleB)
  /\ hygiene = [conflictFinding conflictRuleB conflictRuleA]
  /\ ~ (exists f,
          In f hygiene
          /\ AnalysisFinding.category f = Correlation_Error
          /\ AnalysisFinding.ruleId f = FirewallRule.id conflictRuleA).
Proof.
  intros rules hygiene.
  assert (Hh : hygiene = [conflictFinding conflictRuleB conflictRuleA])
    by (by vm_compute).
  split; [repeat split; done|]. split; [done|].
  rewrite Hh. intros (f & [<-|[]] & _ & Hid). by vm_compute in Hid.
Qed.

Lemma analyzeRules_hygiene_pair a b portSettings :
  AnalysisResults.hygiene (analyzeRules [a; b] portSettings)
  = hygiene_arr (pushedBy [a; b] portSettings 0 a)
    ++ hygiene_arr (pushedBy [a; b] portSettings 1 b).
Proof. rewrite analyzeRules_hygiene. simpl. by rewrite app_nil_r. Qed.

(** C1, amended. The conflict scan looks back only: the rule at index i
    gets a Correlation Error finding (MEDIUM, score 50) exactly when it is
    enabled and an enabled rule before it has another action and textually
    identical source, destination and destination port; the finding names
    the first such rule.  When the port texts of the only two rules differ,
    no Correlation Error finding is pushed at all. *)
Theorem conflict_flags_later_rule
    (rules : list FirewallRule.t) (portSettings : list InsecurePortSetting.t)
    (i : nat) (rule : FirewallRule.t) :
  rules !! i = Some rule ->
  let conflict :=
    ofCategory Correlation_Error
      (hygiene_arr (pushedBy rules portSettings i rule)) in
  (FirewallRule.enabled rule = true ->
   (exists j prev, (j < i)%nat /\ rules !! j = Some prev /\ contradicts prev rule) ->
   exists j prev,
     firstBefore (fun q => contradicts q rule) rules i j prev
     /\ conflict = [conflictFinding rule prev]
     /\ In (conflictFinding rule prev)
           (AnalysisResults.hygiene (analyzeRules rules portSettings)))
  /\ (forall f, In f conflict ->
      FirewallRule.enabled rule = true
      /\ exists j prev,
           firstBefore (fun q => contradicts q rule) rules i j prev
           /\ f = conflictFinding rule prev)
  /\ (forall prev,
      let f := conflictFinding rule prev in
      AnalysisFinding.ruleId f = FirewallRule.id rule
      /\ AnalysisFinding.category f = Correlation_Error
      /\ AnalysisFinding.severity f = MEDIUM
      /\ AnalysisFinding.score f = 50
      /\ AnalysisFinding.explanation f
         = KBEntry.explanation SECURITY_KNOWLEDGE_BASE.HYGIENE.CONFLICT
           +:+ " A direct action conflict exists with Rule ID: "
           +:+ FirewallRule.id prev +:+ ".")
  /\ (forall a b,
      rules = [a; b] ->
      FirewallRule.destinationPort a <> FirewallRule.destinationPort b ->
      ofCategory Correlation_Error
        (AnalysisResults.hygiene (analyzeRules rules portSettings)) = []).
Proof.
  intros Hi conflict.
  destruct (hygiene_parts rules portSettings i rule) as (_ & Hc & _).
  fold conflict in Hc.
  pose proof (conflict_scan rules i rule) as Hscan.
  split; [|split; [|split]].
  - intros Hen (j & prev & Hj & Hprev & Hcontra). rewrite Hen in Hc.
    destruct (find (conflicts rule) (JS.slice0 i rules)) as [first|].
    + destruct Hscan as [j0 Hfirst]. exists j0, first.
      split; [done|]. split; [done|].
      apply (pushed_hygiene_in_result _ _ i rule); [done|].
      apply (ofCategory_in Correlation_Error). fold conflict. rewrite Hc. by left.
    + by destruct (Hscan j prev Hj Hprev).
  - intros f Hf. rewrite Hc in Hf.
    destruct (find (conflicts rule) (JS.slice0 i rules)) as [first|]; [|done].
    destruct (FirewallRule.enabled rule); [|done].
    destruct Hf as [<-|[]]. split; [done|].
    destruct Hscan as [j0 Hfirst]. by exists j0, first.
  - done.
  - intros a b -> Hport. rewrite analyzeRules_hygiene_pair, ofCategory_app.
    destruct (hygiene_parts [a; b] portSettings 0 a) as (_ & -> & _).
    destruct (hygiene_parts [a; b] portSettings 1 b) as (_ & -> & _).
    pose proof (conflict_scan [a; b] 1 b) as Hb.
    change (JS.slice0 0 [a; b]) with (@nil FirewallRule.t). cbn [find app].
    destruct (find (conflicts b) (JS.slice0 1 [a; b])) as [prev|]; [|done].
    destruct Hb as (j & Hlt & Hprev & Hcontra & _).
    assert (j = 0%nat) as -> by lia. simpl in Hprev. simplify_eq.
    destruct Hcontra as (_ & _ & _ & _ & Heq). done.
Qed.

Lemma conflict_flags_later_rule_witness :
  exists j prev,
    firstBefore (fun q => contradicts q conflictRuleB)
      [conflictRuleA; conflictRuleB] 1 j prev
    /\ ofCategory Correlation_Error
         (hygiene_arr (pushedBy [conflictRuleA; conflictRuleB] [] 1 conflictRuleB))
       = [conflictFinding conflictRuleB prev]
    /\ In (conflictFinding conflictRuleB prev)
          (AnalysisResults.hygiene (analyzeRules [conflictRuleA; conflictRuleB] [])).
Proof.
  destruct (conflict_flags_later_rule [conflictRuleA; conflictRuleB] [] 1
              conflictRuleB eq_refl) as (H & _).
  apply H; [reflexivity|].
  exists 0%nat, conflictRuleA. split; [lia|]. split; [reflexivity|].
  repeat split; done.
Defined.

(** A trailing blank in the port text of one of the two rules is enough to
    suppress the conflict. *)
Lemma conflict_needs_identical_port_text :
  let spaced :=
    sampleRule "B" "10.0.0.1" "10.0.0.2" "443 " Protocol.TCP Action.DENY true in
  parsePorts (FirewallRule.destinationPort spaced)
  = parsePorts (FirewallRule.destinationPort conflictRuleA)
  /\ AnalysisResults.hygiene (analyzeRules [conflictRuleA; spaced] []) = [].
Proof. by vm_compute. Qed.

(** ** Latent risk *)

(** C9. A disabled ALLOW rule with a universal source or a wildcard port
    gets exactly one latent-risk finding (Policy Hygiene, LOW, score 40),
    and nothing else is pushed onto the hygiene array for it; an enabled
    rule gets none, and neither does a disabled ALLOW rule without a
    universal source and without a wildcard port. *)
Theorem latent_risk_of_disabled_rule
    (rules : list FirewallRule.t) (portSettings : list InsecurePortSetting.t)
    (i : nat) (rule : FirewallRule.t) :
  rules !! i = Some rule ->
  let pushed := hygiene_arr (pushedBy rules portSettings i rule) in
  let latent := List.filter isLatentRisk pushed in
  (FirewallRule.enabled rule = false ->
   FirewallRule.action rule = Action.ALLOW ->
   getCidrSize (FirewallRule.source rule) = 0
   \/ -1 ∈ parsePorts (FirewallRule.destinationPort rule) ->
   exists f,
     latent = [f] /\ pushed = [f]
     /\ In f (AnalysisResults.hygiene (analyzeRules rules portSettings))
     /\ AnalysisFinding.ruleId f = FirewallRule.id rule
     /\ AnalysisFinding.category f = Policy_Hygiene
     /\ AnalysisFinding.severity f = LOW
     /\ AnalysisFinding.score f = 40)
  /\ (FirewallRule.enabled rule = true -> latent = [])
  /\ (FirewallRule.enabled rule = false ->
      FirewallRule.action rule = Action.ALLOW ->
      getCidrSize (FirewallRule.source rule) <> 0 ->
      -1 ∉ parsePorts (FirewallRule.destinationPort rule) ->
      latent = [])
  /\ (FirewallRule.action rule <> Action.ALLOW -> latent = []).
Proof.
  intros Hi pushed latent.
  destruct (hygiene_parts rules portSettings i rule) as (_ & _ & Hl).
  fold pushed latent in Hl.
  pose proof (hygiene_segment rules portSettings i rule) as Hseg.
  fold pushed in Hseg.
  split; [|split; [|split]].
  - intros Hdis Hallow Hbroad.
    assert (Hb : anySource rule || hasAnyPort rule = true).
    { unfold anySource, hasAnyPort. apply orb_true_iff.
      destruct Hbroad; [left|right]; by apply bool_decide_eq_true_2. }
    rewrite Hdis, bool_decide_eq_true_2, Hb in Hl by done.
    rewrite Hdis, bool_decide_eq_true_2, Hb in Hseg by done.
    assert (Hp : pushed = [latentRiskFinding rule]).
    { rewrite Hseg.
      by destruct (find (shadows rule) _), (find (conflicts rule) _). }
    exists (latentRiskFinding rule). split; [done|]. split; [done|].
    split; [|done].
    apply (pushed_hygiene_in_result _ _ i rule); [done|].
    fold pushed. rewrite Hp. by left.
  - intros Hen. by rewrite Hl, Hen.
  - intros Hdis Hallow Hsrc Hport. rewrite Hl.
    unfold anySource, hasAnyPort.
    rewrite (bool_decide_eq_false_2 (getCidrSize _ = 0)) by done.
    rewrite (bool_decide_eq_false_2 (-1 ∈ _)) by done.
    by destruct (negb _ && _).
  - intros Hdeny. rewrite Hl, bool_decide_eq_false_2 by done.
    by rewrite andb_false_r.
Qed.

Lemma latent_risk_of_disabled_rule_witness :
  let rule := sampleRule "7" "10.0.0.5" "10.0.0.9" "any" Protocol.TCP Action.ALLOW false in
  exists f,
    List.filter isLatentRisk (hygiene_arr (pushedBy [rule] [] 0 rule)) = [f]
    /\ hygiene_arr (pushedBy [rule] [] 0 rule) = [f]
    /\ In f (AnalysisResults.hygiene (analyzeRules [rule] []))
    /\ AnalysisFinding.ruleId f = FirewallRule.id rule
    /\ AnalysisFinding.category f = Policy_Hygiene
    /\ AnalysisFinding.severity f = LOW
    /\ AnalysisFinding.score f = 40.
Proof.
  intros rule.
  destruct (latent_risk_of_disabled_rule [rule] [] 0 rule eq_refl) as (H & _).
  apply H; [reflexivity|reflexivity|].
  right. apply (bool_decide_unpack _). by vm_compute.
Defined.

(** ** The scoring findings do not depend on [enabled] *)

Lemma pushedBy_findings_setEnabled rules1 rules2 portSettings i1 i2 b rule :
  findings_arr (pushedBy rules1 portSettings i1 (setEnabled b rule))
  = findings_arr (pushedBy rules2 portSettings i2 rule).
Proof. by rewrite !pushedBy_findings. Qed.

Lemma findings_sameButEnabled rules1 rules2 l1 l2 portSettings k1 k2 :
  Forall2 sameButEnabled l1 l2 ->
  concat (imap (fun i r => findings_arr (pushedBy rules1 portSettings (k1 + i) r)) l1)
  = concat (imap (fun i r => findings_arr (pushedBy rules2 portSettings (k2 + i) r)) l2).
Proof.
  intros H. revert k1 k2.
  induction H as [|r1 r2 l1 l2 Hr _ IH]; intros k1 k2; [done|].
  cbn [imap concat]. f_equal.
  - rewrite Hr. symmetry. apply pushedBy_findings_setEnabled.
  - rewrite (imap_ext _ (fun i r => findings_arr
                                      (pushedBy rules1 portSettings (S k1 + i) r)) l1),
            (imap_ext _ (fun i r => findings_arr
                                      (pushedBy rules2 portSettings (S k2 + i) r)) l2).
    + apply IH.
    + intros i x _; simpl. do 2 f_equal; lia.
    + intros i x _; simpl. do 2 f_equal; lia.
Qed.

(** C10. Two rule lists that differ at most in [enabled] flags yield the
    same scoring findings, rule by rule and as a whole, and hence the same
    summary except for [enabledRules]. *)
Theorem findings_independent_of_enabled
    (rules1 rules2 : list FirewallRule.t)
    (portSettings : list InsecurePortSetting.t) :
  Forall2 sameButEnabled rules1 rules2 ->
  let out1 := analyzeRules rules1 portSettings in
  let out2 := analyzeRules rules2 portSettings in
  AnalysisResults.findings out1 = AnalysisResults.findings out2
  /\ (forall i r1 r2, rules1 !! i = Some r1 -> rules2 !! i = Some r2 ->
      findings_arr (pushedBy rules1 portSettings i r1)
      = findings_arr (pushedBy rules2 portSettings i r2))
  /\ Summary.totalRules (AnalysisResults.summary out1)
     = Summary.totalRules (AnalysisResults.summary out2)
  /\ Summary.criticalFindings (AnalysisResults.summary out1)
     = Summary.criticalFindings (AnalysisResults.summary out2)
  /\ Summary.highFindings (AnalysisResults.summary out1)
     = Summary.highFindings (AnalysisResults.summary out2)
  /\ Summary.mediumFindings (AnalysisResults.summary out1)
     = Summary.mediumFindings (AnalysisResults.summary out2)
  /\ Summary.lowFindings (AnalysisResults.summary out1)
     = Summary.lowFindings (AnalysisResults.summary out2)
  /\ Summary.averageRiskScore (AnalysisResults.summary out1)
     = Summary.averageRiskScore (AnalysisResults.summary out2).
Proof.
  intros H out1 out2.
  assert (Hf : AnalysisResults.findings out1 = AnalysisResults.findings out2).
  { unfold out1, out2. rewrite !analyzeRules_findings.
    apply (findings_sameButEnabled rules1 rules2 rules1 rules2 portSettings 0 0 H). }
  split; [done|]. split.
  - intros i r1 r2 H1 H2.
    assert (Hr : sameButEnabled r1 r2) by by eapply Forall2_lookup_lr.
    rewrite Hr. symmetry. apply pushedBy_findings_setEnabled.
  - change (AnalysisResults.findings out1)
      with (findings_arr (JS.forEach (analyzeRule rules1 (activeInsecurePorts portSettings))
                            rules1 (mkArrays [] []))) in Hf.
    change (AnalysisResults.findings out2)
      with (findings_arr (JS.forEach (analyzeRule rules2 (activeInsecurePorts portSettings))
                            rules2 (mkArrays [] []))) in Hf.
    unfold out1, out2, analyzeRules; cbn [AnalysisResults.summary
      Summary.totalRules Summary.criticalFindings Summary.highFindings
      Summary.mediumFindings Summary.lowFindings Summary.averageRiskScore].
    rewrite Hf. unfold JS.length. rewrite (Forall2_length _ _ _ H). done.
Qed.

Lemma findings_independent_of_enabled_witness :
  let on := sampleRule "1" "any" "10.0.0.9" "23" Protocol.TCP Action.ALLOW true in
  let off := sampleRule "1" "any" "10.0.0.9" "23" Protocol.TCP Action.ALLOW false in
  AnalysisResults.findings (analyzeRules [on] [])
  = AnalysisResults.findings (analyzeRules [off] []).
Proof.
  intros on off.
  assert (H : Forall2 sameButEnabled [on] [off]).
  { constructor; [reflexivity|constructor]. }
  exact (proj1 (findings_independent_of_enabled [on] [off] [] H)).
Defined.

(** ** The summary *)

Lemma countSeverity_countWhere s l :
  countSeverity s l = countWhere (fun f => AnalysisFinding.severity f = s) l.
Proof.
  unfold countSeverity, JS.length. induction l as [|f l IH]; [done|].
  cbn [List.filter countWhere]. rewrite <- IH.
  destruct (decide (AnalysisFinding.severity f = s)) as [e|e].
  - rewrite bool_decide_eq_true_2 by done. cbn [List.length]. lia.
  - rewrite bool_decide_eq_false_2 by done. lia.
Qed.

Lemma enabled_countWhere (rules : list FirewallRule.t) :
  JS.length (List.filter FirewallRule.enabled rules)
  = countWhere (fun r => FirewallRule.enabled r = true) rules.
Proof.
  unfold JS.length. induction rules as [|r l IH]; [done|].
  cbn [List.filter countWhere]. rewrite <- IH.
  destruct (FirewallRule.enabled r); cbn [List.length].
  - rewrite decide_True by done. lia.
  - rewrite decide_False by done. lia.
Qed.

Lemma reduce_totalScore l a :
  fold_left (fun a b => a + AnalysisFinding.score b) l a = a + totalScore l.
Proof.
  revert a. induction l as [|f l IH]; intros a; simpl; [lia|].
  rewrite IH. lia.
Qed.

(** [Math.round] of a quotient of integers, in integer arithmetic. *)
Lemma Math_round_quotient a n :
  0 < n ->
  JS.Math_round (inject_Z a / inject_Z n) = (2 * a + n) / (2 * n).
Proof.
  intros Hn. destruct n as [|p|p]; try lia.
  unfold JS.Math_round.
  rewrite <- (Qfloor_comp ((a # p) + (1 # 2))%Q)
    by (by rewrite Qmake_Qdiv).
  unfold Qplus, Qfloor; cbn [Qnum Qden].
  f_equal; lia.
Qed.

Lemma averageRiskScore_nearest l :
  l <> [] ->
  let n := Z.of_nat (List.length l) in
  let avg := averageRiskScore l in
  2 * n * avg <= 2 * totalScore l + n < 2 * n * (avg + 1).
Proof.
  intros Hl n avg.
  assert (Hn : 0 < n) by (unfold n; destruct l; [done|simpl; lia]).
  assert (Havg : avg = (2 * totalScore l + n) / (2 * n)).
  { unfold avg, averageRiskScore, JS.length. fold n.
    destruct (Z.ltb_spec 0 n); [|lia].
    by rewrite reduce_totalScore, Z.add_0_l, Math_round_quotient. }
  rewrite Havg.
  pose proof (Z.mul_div_le (2 * totalScore l + n) (2 * n) ltac:(lia)).
  pose proof (Z.mul_succ_div_gt (2 * totalScore l + n) (2 * n) ltac:(lia)).
  lia.
Qed.

(** C8. The summary counts the rules, the enabled rules and the scoring
    findings of each severity, the hygiene findings staying out of the
    counts, and reports the mean score of the scoring findings rounded to
    the nearest integer (a tie going up), or 0 when there are none. *)
Theorem summary_arithmetic
    (rules : list FirewallRule.t) (portSettings : list InsecurePortSetting.t) :
  let out := analyzeRules rules portSettings in
  let s := AnalysisResults.summary out in
  let fs := AnalysisResults.findings out in
  let n := Z.of_nat (List.length fs) in
  Summary.totalRules s = Z.of_nat (List.length rules)
  /\ Summary.enabledRules s
     = countWhere (fun r => FirewallRule.enabled r = true) rules
  /\ Summary.criticalFindings s
     = countWhere (fun f => AnalysisFinding.severity f = CRITICAL) fs
  /\ Summary.highFindings s
     = countWhere (fun f => AnalysisFinding.severity f = HIGH) fs
  /\ Summary.mediumFindings s
     = countWhere (fun f => AnalysisFinding.severity f = MEDIUM) fs
  /\ Summary.lowFindings s
     = countWhere (fun f => AnalysisFinding.severity f = LOW) fs
  /\ (fs = [] -> Summary.averageRiskScore s = 0)
  /\ (fs <> [] ->
      2 * n * Summary.averageRiskScore s <= 2 * totalScore fs + n
      /\ 2 * totalScore fs + n < 2 * n * (Summary.averageRiskScore s + 1))
  /\ (forall f1 f2 f3,
      fs = [f1; f2; f3] ->
      AnalysisFinding.score f1 = 100 -> AnalysisFinding.severity f1 = CRITICAL ->
      AnalysisFinding.score f2 = 80 -> AnalysisFinding.severity f2 = HIGH ->
      AnalysisFinding.score f3 = 60 -> AnalysisFinding.severity f3 = MEDIUM ->
      Summary.criticalFindings s = 1 /\ Summary.highFindings s = 1
      /\ Summary.mediumFindings s = 1 /\ Summary.lowFindings s = 0
      /\ Summary.averageRiskScore s = 80).
Proof.
  intros out s fs n.
  assert (Hsum : s = {| Summary.totalRules := JS.length rules;
                        Summary.enabledRules :=
                          JS.length (List.filter FirewallRule.enabled rules);
                        Summary.criticalFindings := countSeverity CRITICAL fs;
                        Summary.highFindings := countSeverity HIGH fs;
                        Summary.mediumFindings := countSeverity MEDIUM fs;
                        Summary.lowFindings := countSeverity LOW fs;
                        Summary.averageRiskScore := averageRiskScore fs |})
    by reflexivity.
  rewrite Hsum; cbn [Summary.totalRules Summary.enabledRules
    Summary.criticalFindings Summary.highFindings Summary.mediumFindings
    Summary.lowFindings Summary.averageRiskScore].
  rewrite enabled_countWhere, !countSeverity_countWhere.
  split_and!; try done.
  - by intros ->.
  - intros Hne. apply (averageRiskScore_nearest fs Hne).
  - intros f1 f2 f3 Hfs Hs1 Hv1 Hs2 Hv2 Hs3 Hv3. rewrite Hfs.
    cbn [countWhere]. rewrite Hv1, Hv2, Hv3.
    unfold averageRiskScore, JS.length.
    cbn [List.length fold_left]. rewrite Hs1, Hs2, Hs3. by vm_compute.
Qed.

Lemma summary_arithmetic_witness :
  let rules :=
    [ sampleRule "1" "any" "any" "any" Protocol.TCP Action.ALLOW true;
      sampleRule "2" "10.0.0.5" "any" "443" Protocol.TCP Action.ALLOW true;
      sampleRule "3" "10.0.0.5" "10.0.0.9" "any" Protocol.TCP Action.ALLOW false ] in
  let out := analyzeRules rules [] in
  let s := AnalysisResults.summary out in
  map AnalysisFinding.score (AnalysisResults.findings out) = [100; 80; 60]
  /\ map AnalysisFinding.severity (AnalysisResults.findings out)
     = [CRITICAL; HIGH; MEDIUM]
  /\ Summary.criticalFindings s = 1 /\ Summary.highFindings s = 1
  /\ Summary.mediumFindings s = 1 /\ Summary.lowFindings s = 0
  /\ Summary.averageRiskScore s = 80.
Proof.
  intros rules out s.
  split; [by vm_compute|]. split; [by vm_compute|].
  destruct (summary_arithmetic rules []) as (_ & _ & _ & _ & _ & _ & _ & _ & H).
  assert (Hfs : exists f1 f2 f3, AnalysisResults.findings out = [f1; f2; f3]).
  { unfold out. vm_compute. by eexists _, _, _. }
  destruct Hfs as (f1 & f2 & f3 & Hfs).
  assert (Hsc : map AnalysisFinding.score (AnalysisResults.findings out)
                = [100; 80; 60]) by (by vm_compute).
  assert (Hsv : map AnalysisFinding.severity (AnalysisResults.findings out)
                = [CRITICAL; HIGH; MEDIUM]) by (by vm_compute).
  rewrite Hfs in Hsc, Hsv. cbn [map] in Hsc, Hsv.
  apply (H f1 f2 f3 Hfs); congruence.
Defined.

(** ** Insecure ports *)

Lemma activeInsecurePorts_snoc portSettings s :
  activeInsecurePorts (portSettings ++ [s])
  = if InsecurePortSetting.enabled s
    then <[InsecurePortSetting.port s := s]> (activeInsecurePorts portSettings)
    else activeInsecurePorts portSettings.
Proof.
  unfold activeInsecurePorts. rewrite List.filter_app; cbn [List.filter].
  destruct (InsecurePortSetting.enabled s).
  - by rewrite fold_left_app.
  - by rewrite app_nil_r.
Qed.

(** The map holds, for each port, the last enabled setting of the policy. *)
Lemma activeInsecurePorts_lookup portSettings p :
  match activeInsecurePorts portSettings !! p with
  | Some s => lastEnabledFor portSettings p s
  | None => forall s, In s portSettings ->
                      InsecurePortSetting.enabled s = true ->
                      InsecurePortSetting.port s <> p
  end.
Proof.
  induction portSettings as [|s l IH] using rev_ind.
  - unfold activeInsecurePorts; cbn. rewrite lookup_empty. by intros s [].
  - rewrite activeInsecurePorts_snoc.
    destruct (InsecurePortSetting.enabled s) eqn:Hen.
    + destruct (decide (InsecurePortSetting.port s = p)) as [Hp|Hp].
      * rewrite Hp, lookup_insert_eq. exists l, []. by repeat split.
      * rewrite lookup_insert_ne by done.
        destruct (activeInsecurePorts l !! p) as [t|].
        -- destruct IH as (before & after & -> & Ht & Hpt & Hafter).
           exists before, (after ++ [s]). rewrite <- app_assoc. repeat split; try done.
           apply Forall_app. split; [done|]. constructor; [|done]. by intros [_ ?].
        -- intros t [Ht|[<-|[]]]%in_app_or; [by apply IH|done].
    + destruct (activeInsecurePorts l !! p) as [t|].
      * destruct IH as (before & after & -> & Ht & Hpt & Hafter).
        exists before, (after ++ [s]). rewrite <- app_assoc. repeat split; try done.
        apply Forall_app. split; [done|]. constructor; [|done].
        intros [? _]. congruence.
      * intros t [Ht|[<-|[]]]%in_app_or; [by apply IH|congruence].
Qed.

Lemma lastEnabledFor_unique portSettings p s t :
  lastEnabledFor portSettings p s -> lastEnabledFor portSettings p t -> s = t.
Proof.
  intros (b1 & a1 & E1 & Hs & Hps & F1) (b2 & a2 & E2 & Ht & Hpt & F2).
  rewrite E1 in E2. clear E1. revert b2 E2.
  induction b1 as [|x b1 IH]; intros [|y b2] E; simpl in E.
  - congruence.
  - injection E as -> ->. exfalso.
    apply Forall_app in F1 as [_ F1]. apply Forall_cons in F1 as [F1 _]. by apply F1.
  - injection E as -> <-. exfalso.
    apply Forall_app in F2 as [_ F2]. apply Forall_cons in F2 as [F2 _]. by apply F2.
  - injection E as -> E. by apply (IH b2).
Qed.

Lemma lastEnabledFor_exists portSettings p s :
  In s portSettings -> InsecurePortSetting.enabled s = true ->
  InsecurePortSetting.port s = p ->
  exists t, lastEnabledFor portSettings p t.
Proof.
  intros Hin Hen Hp. pose proof (activeInsecurePorts_lookup portSettings p) as H.
  destruct (activeInsecurePorts portSettings !! p) as [t|]; [by exists t|].
  by destruct (H s Hin Hen).
Qed.

(** C5. For an ALLOW rule the Insecure Port findings are pushed port by
    port, in the order of the parsed destination port list: nothing for the
    wildcard sentinel and nothing for a port without an enabled policy
    setting; otherwise one finding, with the severity of the setting that is
    active for the port (the last enabled one) and the score 100 for
    CRITICAL, 90 for HIGH and 60 for any other criticality.  A rule that is
    not ALLOW gets none. *)
Theorem insecure_port_findings
    (rules : list FirewallRule.t) (portSettings : list InsecurePortSetting.t)
    (i : nat) (rule : FirewallRule.t) :
  rules !! i = Some rule ->
  let ports := parsePorts (FirewallRule.destinationPort rule) in
  let found :=
    ofCategory Insecure_Port (findings_arr (pushedBy rules portSettings i rule)) in
  (FirewallRule.action rule = Action.ALLOW ->
   exists perPort : Z -> list AnalysisFinding.t,
     found = flat_map perPort ports
     /\ forall p,
          (p = -1 -> perPort p = [])
          /\ (p <> -1 ->
              (forall s, In s portSettings ->
                         InsecurePortSetting.enabled s = true ->
                         InsecurePortSetting.port s <> p) ->
              perPort p = [])
          /\ (p <> -1 ->
              (exists s, In s portSettings
                         /\ InsecurePortSetting.enabled s = true
                         /\ InsecurePortSetting.port s = p) ->
              exists s f,
                lastEnabledFor portSettings p s
                /\ perPort p = [f]
                /\ (p ∈ ports ->
                    In f (AnalysisResults.findings (analyzeRules rules portSettings)))
                /\ AnalysisFinding.ruleId f = FirewallRule.id rule
                /\ AnalysisFinding.category f = Insecure_Port
                /\ AnalysisFinding.severity f = InsecurePortSetting.criticality s
                /\ AnalysisFinding.score f
                   = match InsecurePortSetting.criticality s with
                     | CRITICAL => 100
                     | HIGH => 90
                     | _ => 60
                     end))
  /\ (FirewallRule.action rule <> Action.ALLOW -> found = []).
Proof.
  intros Hi ports found.
  assert (Hseg : found
                 = findings_arr
                     (insecurePortStep rule
                        (bool_decide (FirewallRule.action rule = Action.ALLOW))
                        ports (activeInsecurePorts portSettings) noArrays))
    by apply pushedBy_insecurePort.
  split.
  - intros Hallow. unfold insecurePortStep in Hseg.
    rewrite bool_decide_eq_true_2, insecurePort_fold in Hseg by done.
    cbn [findings_arr noArrays app] in Hseg.
    eexists. split; [exact Hseg|]. intros p.
    unfold insecurePortCallback.
    pose proof (activeInsecurePorts_lookup portSettings p) as Hlook.
    destruct (Z.eqb_spec p (-1)) as [Hw|Hw].
    { split; [done|]. split; intros Hne; by destruct Hne. }
    split; [done|]. split.
    + intros _ Hnone.
      destruct (activeInsecurePorts portSettings !! p) as [s|] eqn:Hact; [|done].
      destruct Hlook as (before & after & -> & Hen & Hp & _).
      destruct (Hnone s); [|done..]. apply in_or_app. right. by left.
    + intros _ (s0 & Hin & Hen & Hport).
      destruct (activeInsecurePorts portSettings !! p) as [s|] eqn:Hact;
        [|by destruct (Hlook s0 Hin Hen)].
      exists s. eexists. split; [done|]. split; [reflexivity|].
      cbn [findings_arr pushFinding noArrays app AnalysisFinding.ruleId
           AnalysisFinding.category AnalysisFinding.severity AnalysisFinding.score].
      split.
      { intros Hp. apply (pushed_finding_in_result _ _ i rule); [done|].
        apply (ofCategory_in Insecure_Port). fold found. rewrite Hseg.
        apply in_flat_map. exists p. split; [by apply list_elem_of_In|].
        unfold insecurePortCallback.
        destruct (Z.eqb_spec p (-1)); [done|]. rewrite Hact. by left. }
      split; [done|]. split; [done|]. split; [done|].
      by destruct (InsecurePortSetting.criticality s).
  - intros Hdeny. rewrite Hseg. unfold insecurePortStep.
    by rewrite bool_decide_eq_false_2.
Qed.

Lemma insecure_port_findings_witness :
  let rule := sampleRule "1" "10.0.0.5" "10.0.0.9" "445" Protocol.TCP Action.ALLOW true in
  let smb := InsecurePortSetting.mk 445 "SMB" HIGH "Ransomware, lateral movement" in
  (exists f,
     ofCategory Insecure_Port (findings_arr (pushedBy [rule] [smb true] 0 rule)) = [f]
     /\ AnalysisFinding.severity f = HIGH /\ AnalysisFinding.score f = 90)
  /\ ofCategory Insecure_Port (findings_arr (pushedBy [rule] [smb false] 0 rule)) = [].
Proof.
  intros rule smb. split.
  - destruct (insecure_port_findings [rule] [smb true] 0 rule eq_refl) as [H _].
    destruct (H eq_refl) as (perPort & Hfound & Hper).
    destruct (Hper 445) as (_ & _ & Hsome).
    destruct Hsome as (s & f & Hlast & Hf & _ & _ & _ & Hsev & Hscore).
    { lia. }
    { exists (smb true). split; [by left|]. by split. }
    assert (Hs : s = smb true).
    { apply (lastEnabledFor_unique [smb true] 445); [done|].
      exists [], []. repeat split; done. }
    subst s. exists f. split; [|by split].
    rewrite Hfound. change (parsePorts (FirewallRule.destinationPort rule)) with [445].
    cbn [flat_map]. by rewrite Hf.
  - destruct (insecure_port_findings [rule] [smb false] 0 rule eq_refl) as [H _].
    destruct (H eq_refl) as (perPort & Hfound & Hper).
    destruct (Hper 445) as (_ & Hnone & _).
    rewrite Hfound. change (parsePorts (FirewallRule.destinationPort rule)) with [445].
    cbn [flat_map]. rewrite Hnone; [done|lia|].
    intros s [<-|[]] Hen. discriminate Hen.
Defined.

(** ** The port parser *)

Lemma pushRange_spec fuel i end_ result :
  pushRange fuel i end_ result
  = result ++ map (fun k => i + Z.of_nat k)
                  (seq 0 (min fuel (Z.to_nat (end_ - i + 1)))).
Proof.
  revert i result. induction fuel as [|fuel IH]; intros i result.
  - simpl. by rewrite app_nil_r.
  - cbn [pushRange]. destruct (Z.leb_spec i end_) as [Hle|Hgt].
    + rewrite IH.
      replace (Z.to_nat (end_ - i + 1)) with (S (Z.to_nat (end_ - (i + 1) + 1))) by lia.
      cbn [min Nat.min seq map]. rewrite <- app_assoc. cbn [app].
      rewrite Z.add_0_r. do 2 f_equal.
      rewrite <- seq_shift, map_map. apply map_ext. intros k. lia.
    + replace (Z.to_nat (end_ - i + 1)) with 0%nat by lia.
      rewrite Nat.min_0_r. simpl. by rewrite app_nil_r.
Qed.

(** The loop pushes the whole range, and more fuel changes nothing: it
    leaves through its own test. *)
Lemma forRange_spec start end_ result :
  forRange start end_ result = result ++ inclusiveRange start end_.
Proof.
  unfold forRange, inclusiveRange. by rewrite pushRange_spec, Nat.min_r by lia.
Qed.

Lemma pushRange_enough_fuel fuel start end_ result :
  (Z.to_nat (end_ - start + 1) <= fuel)%nat ->
  pushRange fuel start end_ result = forRange start end_ result.
Proof.
  intros Hf. unfold forRange. rewrite !pushRange_spec.
  by rewrite !Nat.min_r by lia.
Qed.

Lemma inclusiveRange_In a b x : In x (inclusiveRange a b) <-> a <= x <= b.
Proof.
  unfold inclusiveRange. rewrite in_map_iff. split.
  - intros (k & <- & Hk). apply in_seq in Hk. lia.
  - intros Hx. exists (Z.to_nat (x - a)). split; [lia|]. apply in_seq. lia.
Qed.



(** The callback appends to the ports read so far. *)
Lemma parsePortToken_appends result p :
  parsePortToken result p = result ++ parsePortToken [] p.
Proof.
  unfold parsePortToken. destruct (JS.includes "-" p).
  - destruct (map (fun x => JS.parseInt (JS.trim x)) (JS.split "-" p))
      as [|[a|] [|[b|] rest]]; try (by rewrite app_nil_r).
    by rewrite !forRange_spec.
  - destruct (JS.parseInt p); [done|by rewrite app_nil_r].
Qed.

(** The loop over the tokens: token after token, what the callback reads
    from each. *)
Lemma fold_parsePortToken parts result :
  fold_left parsePortToken parts result
  = result ++ flat_map (parsePortToken []) parts.
Proof.
  revert result. induction parts as [|p parts IH]; intros result; simpl.
  - by rewrite app_nil_r.
  - by rewrite IH, (parsePortToken_appends result p), app_assoc.
Qed.

Lemma port_wildcard_test clean :
  String.eqb clean "any" || String.eqb clean "all"
  || String.eqb clean "*" || String.eqb clean "0-65535" = true
  <-> isPortWildcard clean.
Proof.
  unfold isPortWildcard. rewrite !orb_true_iff, !String.eqb_eq. tauto.
Qed.



(** ** The scope parser *)

Lemma split_slash s :
  JS.split "/" s
  = beforeSlash s :: match afterSlash s with
                     | Some r => JS.split "/" r
                     | None => []
                     end.
Proof.
  induction s as [|c s IH]; cbn [JS.split beforeSlash afterSlash]; [done|].
  destruct (Ascii.eqb c "/"); [done|]. by rewrite IH.
Qed.

(** [parts[1]] is the text between the first '/' and the next. *)
Lemma split_slash_second s : JS.split "/" s !! 1%nat = prefixText s.
Proof.
  rewrite split_slash. unfold prefixText. cbn [lookup list_lookup].
  destruct (afterSlash s) as [r|]; [|done]. by rewrite (split_slash r).
Qed.

Lemma includes_slash s :
  JS.includes "/" s = match afterSlash s with Some _ => true | None => false end.
Proof.
  induction s as [|c s IH]; cbn [JS.includes afterSlash]; [done|].
  destruct (Ascii.eqb c "/"); [done|]. by rewrite IH.
Qed.

Lemma address_wildcard_test clean :
  String.eqb clean "any" || String.eqb clean "all"
  || String.eqb clean "0.0.0.0/0" || String.eqb clean "*" = true
  <-> isAddressWildcard clean.
Proof.
  unfold isAddressWildcard. rewrite !orb_true_iff, !String.eqb_eq. tauto.
Qed.

Lemma getCidrSize_cases addr :
  (isAddressWildcard (cleanText addr) /\ getCidrSize addr = 0)
  \/ (~ isAddressWildcard (cleanText addr)
      /\ getCidrSize addr
         = match prefixText (cleanText addr) with
           | Some t => match JS.parseInt t with Some n => n | None => 32 end
           | None => 32
           end).
Proof.
  unfold getCidrSize. fold (cleanText addr).
  destruct (_ || _) eqn:Hw.
  - left. split; [by apply address_wildcard_test|done].
  - right. split.
    { intros H. apply address_wildcard_test in H. congruence. }
    rewrite includes_slash, split_slash_second. unfold prefixText.
    by destruct (afterSlash (cleanText addr)).
Qed.

Lemma parseInt_digits s :
  JS.startsWithDigit s = true -> JS.parseInt s = Some (JS.parseDigits 0 s).
Proof.
  destruct s as [|c r]; [done|].
  destruct c as [[|] [|] [|] [|] [|] [|] [|] [|]]; try discriminate; intros _.
  all: vm_compute; f_equal.
  all: match goal with |- match ?x with _ => _ end = _ => by destruct x end.
Qed.

Lemma parseInt_minus_digits s :
  JS.startsWithDigit s = true ->
  JS.parseInt (String "-" s) = Some (- JS.parseDigits 0 s).
Proof.
  intros Hs. unfold JS.parseInt.
  change (JS.trimStart (String "-" s)) with (String "-" s). cbn iota beta.
  rewrite Hs. f_equal; lia.
Qed.

Lemma parseDigits_of_uint_acc d acc :
  JS.parseDigits (Z.pos acc) (NilEmpty.string_of_uint d)
  = Z.pos (Pos.of_uint_acc d acc).
Proof.
  revert acc.
  induction d as [|d IH|d IH|d IH|d IH|d IH|d IH|d IH|d IH|d IH|d IH];
    intros acc; cbn [NilEmpty.string_of_uint JS.parseDigits Pos.of_uint_acc];
    [done|..];
    read_digit; cbn iota beta; rewrite <- IH; f_equal; lia.
Qed.

Lemma parseDigits_of_uint d :
  JS.parseDigits 0 (NilEmpty.string_of_uint d) = Z.of_N (Pos.of_uint d).
Proof.
  induction d as [|d IH|d IH|d IH|d IH|d IH|d IH|d IH|d IH|d IH|d IH];
    cbn [NilEmpty.string_of_uint JS.parseDigits Pos.of_uint]; [done|..];
    read_digit; cbn iota beta;
    first [ exact IH | apply parseDigits_of_uint_acc ].
Qed.

Lemma startsWithDigit_of_uint d :
  d <> Decimal.Nil -> JS.startsWithDigit (NilEmpty.string_of_uint d) = true.
Proof. by destruct d. Qed.

(** Reading back the decimal rendering of an integer. *)
Lemma parseInt_toString n : JS.parseInt (JS.toString n) = Some n.
Proof.
  unfold JS.toString. destruct n as [|p|p]; [done|..];
    cbn [Z.to_int NilZero.string_of_int];
    pose proof (DecimalPos.Unsigned.to_uint_nonnil p) as Hnil;
    pose proof (DecimalPos.Unsigned.of_to p) as Hp;
    unfold NilZero.string_of_uint;
    destruct (Pos.to_uint p) as [|d|d|d|d|d|d|d|d|d|d] eqn:E; try done.
  all: try (rewrite parseInt_digits by done;
            rewrite parseDigits_of_uint, Hp; done).
  all: rewrite parseInt_minus_digits by done;
       rewrite parseDigits_of_uint, Hp; done.
Qed.

(** C2, as stated, fails: the prefix length is not clamped to [0,32]. *)
Lemma getCidrSize_above_32 : ~ (0 <= getCidrSize "10.0.0.0/64" <= 32).
Proof.
  assert (H : getCidrSize "10.0.0.0/64" = 64) by reflexivity.
  rewrite H. lia.
Qed.

(** C2, amended. [getCidrSize] yields 0 for a wildcard token; for any other
    token with a '/', the integer [parseInt] reads from the text between the
    first '/' and the next, or 32 when it reads none; and 32 for a token
    without '/'.  A prefix written as a decimal numeral is returned as it
    is, so the result lies in [0,32] whenever that numeral does, and
    outside otherwise. *)
Theorem getCidrSize_spec (addr : string) :
  let clean := cleanText addr in
  (isAddressWildcard clean -> getCidrSize addr = 0)
  /\ (~ isAddressWildcard clean -> prefixText clean = None ->
      getCidrSize addr = 32)
  /\ (~ isAddressWildcard clean ->
      forall t, prefixText clean = Some t -> JS.parseInt t = None ->
      getCidrSize addr = 32)
  /\ (~ isAddressWildcard clean ->
      forall t n, prefixText clean = Some t -> JS.parseInt t = Some n ->
      getCidrSize addr = n)
  /\ (forall n, prefixText clean = Some (JS.toString n) ->
      getCidrSize addr = n)
  /\ (forall n, prefixText clean = Some (JS.toString n) -> 0 <= n <= 32 ->
      0 <= getCidrSize addr <= 32)
  /\ (0 <= getCidrSize addr <= 32
      \/ exists t n,
           prefixText clean = Some t /\ JS.parseInt t = Some n
           /\ getCidrSize addr = n /\ (n < 0 \/ 32 < n)).
Proof.
  intros clean.
  assert (Hroundtrip : forall n, prefixText clean = Some (JS.toString n) ->
                                 getCidrSize addr = n).
  { intros n Hn. destruct (getCidrSize_cases addr) as [[Hw H]|[Hw H]].
    - rewrite H. fold clean in Hw.
      destruct Hw as [Hc|[Hc|[Hc|Hc]]]; rewrite Hc in Hn;
        try discriminate Hn.
      injection Hn as Hn. apply (f_equal JS.parseInt) in Hn.
      rewrite parseInt_toString in Hn. by injection Hn.
    - rewrite H. fold clean. by rewrite Hn, parseInt_toString. }
  destruct (getCidrSize_cases addr) as [[Hw H]|[Hw H]]; fold clean in Hw, H.
  - split_and!; try done.
    + intros n Hn Hr. by rewrite H.
    + left. by rewrite H.
  - split_and!; try done.
    + intros _ Hnone. by rewrite H, Hnone.
    + intros _ t Ht Hp. by rewrite H, Ht, Hp.
    + intros _ t n Ht Hp. by rewrite H, Ht, Hp.
    + intros n Hn Hr. by rewrite (Hroundtrip n Hn).
    + rewrite H. destruct (prefixText clean) as [t|]; [|left; lia].
      destruct (JS.parseInt t) as [n|] eqn:Hp; [|left; lia].
      destruct (decide (0 <= n <= 32)); [by left|].
      right. exists t, n. repeat split; try done. lia.
Qed.

Lemma getCidrSize_spec_witness :
  getCidrSize "10.0.0.0/8" = 8
  /\ getCidrSize "0.0.0.0/0" = 0
  /\ getCidrSize "10.0.0.5" = 32
  /\ getCidrSize "10.0.0.0/xx" = 32.
Proof.
  split_and!.
  - destruct (getCidrSize_spec "10.0.0.0/8") as (_ & _ & _ & _ & H & _).
    by apply (H 8).
  - destruct (getCidrSize_spec "0.0.0.0/0") as (H & _).
    apply H. right; right; left. reflexivity.
  - destruct (getCidrSize_spec "10.0.0.5") as (_ & H & _).
    apply H; [|reflexivity].
    intros [H1|[H1|[H1|H1]]]; by vm_compute in H1.
  - destruct (getCidrSize_spec "10.0.0.0/xx") as (_ & _ & H & _).
    apply (H ltac:(intros [H1|[H1|[H1|H1]]]; by vm_compute in H1) "xx");
      reflexivity.
Defined.

(** ** The port parser, token by token *)


Lemma allDigits_of_uint d : allDigits (NilEmpty.string_of_uint d) = true.
Proof.
  induction d as [|d IH|d IH|d IH|d IH|d IH|d IH|d IH|d IH|d IH|d IH];
    cbn [NilEmpty.string_of_uint allDigits]; [done|..];
    read_digit; cbn iota beta; exact IH.
Qed.

Lemma allDigits_toString n :
  0 <= n -> allDigits (JS.toString n) = true /\ JS.toString n <> EmptyString.
Proof.
  intros Hn. unfold JS.toString. destruct n as [|p|p]; [done| |lia].
  cbn [Z.to_int NilZero.string_of_int]. unfold NilZero.string_of_uint.
  pose proof (DecimalPos.Unsigned.to_uint_nonnil p) as Hnil.
  pose proof (allDigits_of_uint (Pos.to_uint p)) as Hd.
  destruct (Pos.to_uint p); done.
Qed.


























(** * Further properties of the engine *)

(** ** The result as a function of the rule list *)

Lemma Forall_concat_imap {A B} (P : B -> Prop) (f : nat -> A -> list B) (l : list A) :
  (forall i x, l !! i = Some x -> Forall P (f i x)) ->
  Forall P (concat (imap f l)).
Proof.
  intros H. apply List.Forall_forall. intros y Hy.
  apply concat_imap_in in Hy as (i & x & Hx & Hy).
  specialize (H i x Hx). rewrite List.Forall_forall in H. by apply H.
Qed.

Lemma pushedBy_findings_scoringOf rules portSettings i rule :
  findings_arr (pushedBy rules portSettings i rule) = scoringOf portSettings rule.
Proof. unfold scoringOf. by rewrite !pushedBy_findings. Qed.

Lemma analyzeRules_findings_flat_map rules portSettings :
  AnalysisResults.findings (analyzeRules rules portSettings)
  = flat_map (scoringOf portSettings) rules.
Proof.
  rewrite analyzeRules_findings.
  rewrite (imap_ext _ (fun _ r => scoringOf portSettings r) rules)
    by (intros; apply pushedBy_findings_scoringOf).
  induction rules as [|r l IH]; [done|].
  cbn [imap concat flat_map]. f_equal. exact IH.
Qed.

Lemma pushedBy_hygiene_hygieneAfter rules portSettings i rule :
  (i <= List.length rules)%nat ->
  hygiene_arr (pushedBy rules portSettings i rule)
  = hygieneAfter (take i rules) rule.
Proof.
  intros Hi. unfold hygieneAfter. rewrite !hygiene_segment. unfold JS.slice0.
  rewrite length_take_le by done. by rewrite take_take, Nat.min_id.
Qed.

Lemma hygiene_imap_walk rules portSettings l k :
  take k rules ++ l = rules -> k = List.length (take k rules) ->
  concat (imap (fun i r => hygiene_arr (pushedBy rules portSettings (k + i) r)) l)
  = hygieneWalk (take k rules) l.
Proof.
  revert k. induction l as [|r l IH]; intros k Hsplit Hk; [done|].
  cbn [imap concat hygieneWalk].
  assert (Hlen : (k < List.length rules)%nat).
  { rewrite <- Hsplit, length_app; simpl. lia. }
  assert (Hr : rules !! k = Some r).
  { rewrite <- Hsplit at 1. rewrite lookup_app_r by lia.
    by replace (k - List.length (take k rules))%nat with 0%nat by lia. }
  assert (Htake : take (S k) rules = take k rules ++ [r]) by by apply take_S_r.
  rewrite Nat.add_0_r, pushedBy_hygiene_hygieneAfter by lia. f_equal.
  rewrite (imap_ext _ (fun i x => hygiene_arr
                                    (pushedBy rules portSettings (S k + i) x)) l).
  - rewrite <- Htake. apply IH.
    + rewrite Htake, <- app_assoc. exact Hsplit.
    + rewrite length_take_le; lia.
  - intros i x _; simpl. do 2 f_equal; lia.
Qed.

(** The hygiene array, rule after rule, each one seen against the rules
    before it. *)
Lemma analyzeRules_hygiene_walk rules portSettings :
  AnalysisResults.hygiene (analyzeRules rules portSettings) = hygieneWalk [] rules.
Proof.
  rewrite analyzeRules_hygiene.
  apply (hygiene_imap_walk rules portSettings rules 0); done.
Qed.

Lemma hygieneWalk_app prefix l1 l2 :
  hygieneWalk prefix (l1 ++ l2)
  = hygieneWalk prefix l1 ++ hygieneWalk (prefix ++ l1) l2.
Proof.
  revert prefix. induction l1 as [|r l1 IH]; intros prefix; cbn [app hygieneWalk].
  - by rewrite app_nil_r.
  - rewrite IH, <- !app_assoc. done.
Qed.

(** X1. Scoring is rule by rule, so the findings of a concatenation are the
    findings of its parts; and what the hygiene scan reported for a list
    stays as it is, at the front, when more rules are appended. *)
Theorem analysis_of_longer_list
    (rules more : list FirewallRule.t) (portSettings : list InsecurePortSetting.t) :
  AnalysisResults.findings (analyzeRules (rules ++ more) portSettings)
  = AnalysisResults.findings (analyzeRules rules portSettings)
    ++ AnalysisResults.findings (analyzeRules more portSettings)
  /\ exists later,
       AnalysisResults.hygiene (analyzeRules (rules ++ more) portSettings)
       = AnalysisResults.hygiene (analyzeRules rules portSettings) ++ later.
Proof.
  split.
  - rewrite !analyzeRules_findings_flat_map. apply flat_map_app.
  - exists (hygieneWalk rules more).
    rewrite !analyzeRules_hygiene_walk. apply hygieneWalk_app.
Qed.

(** ** The shape of every finding *)

Lemma scoring_finding_shape portSettings rule f :
  In f (scoringOf portSettings rule) ->
  FirewallRule.action rule = Action.ALLOW
  /\ AnalysisFinding.ruleId f = FirewallRule.id rule
  /\ AnalysisFinding.ruleName f = FirewallRule.name rule
  /\ ((AnalysisFinding.category f = Excessive_Exposure
       /\ ((AnalysisFinding.severity f = CRITICAL /\ AnalysisFinding.score f = 100)
           \/ (AnalysisFinding.severity f = HIGH /\ AnalysisFinding.score f = 85)
           \/ (AnalysisFinding.severity f = HIGH /\ AnalysisFinding.score f = 80)
           \/ (AnalysisFinding.severity f = MEDIUM /\ AnalysisFinding.score f = 60)))
      \/ (AnalysisFinding.category f = Subnet_Scope
          /\ ((AnalysisFinding.severity f = CRITICAL /\ AnalysisFinding.score f = 80)
              \/ (AnalysisFinding.severity f = HIGH /\ AnalysisFinding.score f = 80)
              \/ (AnalysisFinding.severity f = HIGH /\ AnalysisFinding.score f = 60)))
      \/ (AnalysisFinding.category f = Insecure_Port
          /\ exists s,
               In s portSettings
               /\ InsecurePortSetting.enabled s = true
               /\ AnalysisFinding.severity f = InsecurePortSetting.criticality s
               /\ AnalysisFinding.score f
                  = match InsecurePortSetting.criticality s with
                    | CRITICAL => 100
                    | HIGH => 90
                    | _ => 60
                    end)).
Proof.
  unfold scoringOf. rewrite pushedBy_findings; cbv zeta.
  destruct (decide (FirewallRule.action rule = Action.ALLOW)) as [Hallow|Hdeny].
  2:{ rewrite (bool_decide_eq_false_2 _ Hdeny).
      unfold exposureStep, subnetStep, insecurePortStep. cbn. by intros []. }
  rewrite (bool_decide_eq_true_2 _ Hallow).
  intros [Hf|[Hf|Hf]%in_app_or]%in_app_or; (split; [done|]).
  - revert Hf. unfold exposureStep. cbn [andb].
    destruct (_ || _); [|by intros []].
    destruct (Qle_bool _ _),
      (getCidrSize (FirewallRule.source rule) =? 0),
      (getCidrSize (FirewallRule.destination rule) =? 0);
      intros [<-|[]]; cbn; split_and!; try done; left; split; try done; tauto.
  - revert Hf. unfold subnetStep.
    destruct (_ && _).
    + intros [<-|[]]; cbn; split_and!; try done. right; left. split; [done|].
      destruct (_ <=? 8); tauto.
    + destruct (_ && _); [|by intros []].
      intros [<-|[]]; cbn; split_and!; try done. right; left. split; [done|].
      tauto.
  - revert Hf. unfold insecurePortStep. rewrite insecurePort_fold.
    cbn [findings_arr noArrays app]. rewrite in_flat_map.
    intros (p & _ & Hf). revert Hf. unfold insecurePortCallback.
    destruct (p =? -1); [by intros []|].
    pose proof (activeInsecurePorts_lookup portSettings p) as Hlook.
    destruct (activeInsecurePorts portSettings !! p) as [s|]; [|by intros []].
    destruct Hlook as (before & after & -> & Hen & _ & _).
    intros [<-|[]]; cbn; split_and!; try done. right; right. split; [done|].
    exists s. split_and!; try done.
    + apply in_or_app. right. by left.
    + by destruct (InsecurePortSetting.criticality s).
Qed.

Lemma hygiene_finding_shape prefix rule f :
  In f (hygieneAfter prefix rule) ->
  AnalysisFinding.ruleId f = FirewallRule.id rule
  /\ AnalysisFinding.ruleName f = FirewallRule.name rule
  /\ ((AnalysisFinding.category f = Policy_Hygiene
       /\ AnalysisFinding.severity f = INFORMATIONAL /\ AnalysisFinding.score f = 20
       /\ FirewallRule.enabled rule = true /\ prefix <> [])
      \/ (AnalysisFinding.category f = Correlation_Error
          /\ AnalysisFinding.severity f = MEDIUM /\ AnalysisFinding.score f = 50
          /\ FirewallRule.enabled rule = true /\ prefix <> [])
      \/ (AnalysisFinding.category f = Policy_Hygiene
          /\ AnalysisFinding.severity f = LOW /\ AnalysisFinding.score f = 40
          /\ FirewallRule.enabled rule = false
          /\ FirewallRule.action rule = Action.ALLOW)).
Proof.
  unfold hygieneAfter. rewrite hygiene_segment. unfold JS.slice0.
  rewrite firstn_all.
  intros [Hf|[Hf|Hf]%in_app_or]%in_app_or.
  - destruct prefix as [|q prefix]; [by destruct Hf|].
    destruct (find _ _); [|by destruct Hf].
    destruct (FirewallRule.enabled rule) eqn:Hen; [|by destruct Hf].
    destruct Hf as [<-|[]]. split_and!; try done. left. by split_and!.
  - destruct prefix as [|q prefix]; [by destruct Hf|].
    destruct (find _ _); [|by destruct Hf].
    destruct (FirewallRule.enabled rule) eqn:Hen; [|by destruct Hf].
    destruct Hf as [<-|[]]. split_and!; try done. right; left. by split_and!.
  - destruct (FirewallRule.enabled rule) eqn:Hen; [by destruct Hf|].
    destruct (decide (FirewallRule.action rule = Action.ALLOW)) as [Hallow|Hdeny].
    2:{ rewrite (bool_decide_eq_false_2 _ Hdeny) in Hf. by destruct Hf. }
    rewrite (bool_decide_eq_true_2 _ Hallow) in Hf. cbn [negb andb] in Hf.
    destruct (_ || _); [|by destruct Hf].
    destruct Hf as [<-|[]]. split_and!; try done. right; right. by split_and!.
Qed.

Lemma hygieneWalk_in prefix l f :
  In f (hygieneWalk prefix l) ->
  exists k rule, l !! k = Some rule /\ In f (hygieneAfter (prefix ++ take k l) rule).
Proof.
  revert prefix. induction l as [|r l IH]; intros prefix; cbn [hygieneWalk]; [done|].
  intros [Hf|Hf]%in_app_or.
  - exists 0%nat, r. split; [done|]. by rewrite app_nil_r.
  - destruct (IH _ Hf) as (k & rule & Hk & Hin).
    exists (S k), rule. split; [done|]. cbn [take]. by rewrite <- app_assoc in Hin.
Qed.

(** X2. Severity and score of a finding always come in one of a few fixed
    pairs, and each array holds its own categories only: exposure, subnet
    and port findings in [findings]; shadowing, conflict and latent-risk
    findings in [hygiene]. *)
Theorem finding_catalogue
    (rules : list FirewallRule.t) (portSettings : list InsecurePortSetting.t) :
  let out := analyzeRules rules portSettings in
  (forall f, In f (AnalysisResults.findings out) ->
     (AnalysisFinding.category f = Excessive_Exposure
      /\ ((AnalysisFinding.severity f = CRITICAL /\ AnalysisFinding.score f = 100)
          \/ (AnalysisFinding.severity f = HIGH /\ AnalysisFinding.score f = 85)
          \/ (AnalysisFinding.severity f = HIGH /\ AnalysisFinding.score f = 80)
          \/ (AnalysisFinding.severity f = MEDIUM /\ AnalysisFinding.score f = 60)))
     \/ (AnalysisFinding.category f = Subnet_Scope
         /\ ((AnalysisFinding.severity f = CRITICAL /\ AnalysisFinding.score f = 80)
             \/ (AnalysisFinding.severity f = HIGH /\ AnalysisFinding.score f = 80)
             \/ (AnalysisFinding.severity f = HIGH /\ AnalysisFinding.score f = 60)))
     \/ (AnalysisFinding.category f = Insecure_Port
         /\ ((AnalysisFinding.severity f = CRITICAL /\ AnalysisFinding.score f = 100)
             \/ (AnalysisFinding.severity f = HIGH /\ AnalysisFinding.score f = 90)
             \/ (AnalysisFinding.severity f <> CRITICAL
                 /\ AnalysisFinding.severity f <> HIGH
                 /\ AnalysisFinding.score f = 60))))
  /\ (forall h, In h (AnalysisResults.hygiene out) ->
        (AnalysisFinding.category h = Policy_Hygiene
         /\ AnalysisFinding.severity h = INFORMATIONAL /\ AnalysisFinding.score h = 20)
        \/ (AnalysisFinding.category h = Correlation_Error
            /\ AnalysisFinding.severity h = MEDIUM /\ AnalysisFinding.score h = 50)
        \/ (AnalysisFinding.category h = Policy_Hygiene
            /\ AnalysisFinding.severity h = LOW /\ AnalysisFinding.score h = 40)).
Proof.
  intros out. split.
  - intros f Hf. unfold out in Hf. rewrite analyzeRules_findings_flat_map in Hf.
    apply in_flat_map in Hf as (rule & _ & Hf).
    destruct (scoring_finding_shape _ _ _ Hf) as (_ & _ & _ & [H|[H|H]]);
      [by left|by right; left|right; right].
    destruct H as (Hc & s & _ & _ & -> & ->). split; [done|].
    destruct (InsecurePortSetting.criticality s);
      first [ by left | by right; left | by right; right ].
  - intros h Hh. unfold out in Hh. rewrite analyzeRules_hygiene_walk in Hh.
    apply hygieneWalk_in in Hh as (k & rule & _ & Hh).
    destruct (hygiene_finding_shape _ _ _ Hh) as (_ & _ & [H|[H|H]]); tauto.
Qed.

Lemma totalScore_bounds (l : list AnalysisFinding.t) lo hi :
  Forall (fun f => lo <= AnalysisFinding.score f <= hi) l ->
  lo * Z.of_nat (List.length l) <= totalScore l <= hi * Z.of_nat (List.length l).
Proof.
  induction 1 as [|f l Hf _ IH]; cbn [totalScore List.length]; lia.
Qed.

Lemma scoring_scores rules portSettings :
  Forall (fun f => 60 <= AnalysisFinding.score f <= 100)
         (AnalysisResults.findings (analyzeRules rules portSettings)).
Proof.
  rewrite analyzeRules_findings_flat_map. apply List.Forall_forall. intros f Hf.
  apply in_flat_map in Hf as (r & _ & Hf).
  destruct (scoring_finding_shape _ _ _ Hf) as (_ & _ & _ & H).
  destruct H as [[_ H]|[[_ H]|[_ H]]].
  - destruct H as [[_ ->]|[[_ ->]|[[_ ->]|[_ ->]]]]; lia.
  - destruct H as [[_ ->]|[[_ ->]|[_ ->]]]; lia.
  - destruct H as (s & _ & _ & _ & ->).
    destruct (InsecurePortSetting.criticality s); lia.
Qed.

Lemma averageRiskScore_bounds (l : list AnalysisFinding.t) :
  l <> [] ->
  Forall (fun f => 60 <= AnalysisFinding.score f <= 100) l ->
  60 <= averageRiskScore l <= 100.
Proof.
  intros Hne Hscore.
  pose proof (averageRiskScore_nearest _ Hne) as Hn. cbv zeta in Hn.
  pose proof (totalScore_bounds l 60 100 Hscore) as Hb.
  assert (0 < Z.of_nat (List.length l)) by (destruct l; [done|simpl; lia]).
  nia.
Qed.

Lemma averageRiskScore_of_analysis rules portSettings :
  AnalysisResults.findings (analyzeRules rules portSettings) <> [] ->
  60 <= Summary.averageRiskScore
          (AnalysisResults.summary (analyzeRules rules portSettings)) <= 100.
Proof.
  intros Hne.
  change (Summary.averageRiskScore
            (AnalysisResults.summary (analyzeRules rules portSettings)))
    with (averageRiskScore
            (AnalysisResults.findings (analyzeRules rules portSettings))).
  apply averageRiskScore_bounds; [done|apply scoring_scores].
Qed.

Lemma averageRiskScore_of_none rules portSettings :
  AnalysisResults.findings (analyzeRules rules portSettings) = [] ->
  Summary.averageRiskScore
    (AnalysisResults.summary (analyzeRules rules portSettings)) = 0.
Proof.
  intros He.
  change (Summary.averageRiskScore
            (AnalysisResults.summary (analyzeRules rules portSettings)))
    with (averageRiskScore
            (AnalysisResults.findings (analyzeRules rules portSettings))).
  by rewrite He.
Qed.

(** X3. The average risk score of the summary is 0 exactly when there is
    no scoring finding, and lies between 60 and 100 otherwise: no scoring
    finding has a score below 60. *)
Theorem average_risk_score_range
    (rules : list FirewallRule.t) (portSettings : list InsecurePortSetting.t) :
  let out := analyzeRules rules portSettings in
  let avg := Summary.averageRiskScore (AnalysisResults.summary out) in
  (forall f, In f (AnalysisResults.findings out) ->
             60 <= AnalysisFinding.score f <= 100)
  /\ (AnalysisResults.findings out = [] <-> avg = 0)
  /\ (AnalysisResults.findings out <> [] -> 60 <= avg <= 100).
Proof.
  intros out avg.
  assert (Hscore : forall f, In f (AnalysisResults.findings out) ->
                             60 <= AnalysisFinding.score f <= 100).
  { apply List.Forall_forall, scoring_scores. }
  assert (Hrange : AnalysisResults.findings out <> [] -> 60 <= avg <= 100).
  { intros Hne. apply averageRiskScore_of_analysis. done. }
  split; [done|]. split; [|done]. split.
  - intros He. unfold avg.
    change (Summary.averageRiskScore (AnalysisResults.summary out))
      with (averageRiskScore (AnalysisResults.findings out)).
    by rewrite He.
  - intros H0. destruct (AnalysisResults.findings out) eqn:E; [done|].
    assert (60 <= avg <= 100) by (apply Hrange; congruence). lia.
Qed.

(** ** Where a finding comes from *)

(** X4. Every finding carries the id and the name of a rule of the list:
    a scoring finding those of an ALLOW rule, a latent-risk finding those
    of a disabled ALLOW rule, a shadowing or conflict finding those of an
    enabled rule that is not the first.  A list without ALLOW rules has no
    scoring finding at all. *)
Theorem finding_provenance
    (rules : list FirewallRule.t) (portSettings : list InsecurePortSetting.t) :
  let out := analyzeRules rules portSettings in
  (forall f, In f (AnalysisResults.findings out) ->
     exists i rule,
       rules !! i = Some rule
       /\ FirewallRule.action rule = Action.ALLOW
       /\ AnalysisFinding.ruleId f = FirewallRule.id rule
       /\ AnalysisFinding.ruleName f = FirewallRule.name rule)
  /\ (forall h, In h (AnalysisResults.hygiene out) ->
        exists i rule,
          rules !! i = Some rule
          /\ AnalysisFinding.ruleId h = FirewallRule.id rule
          /\ AnalysisFinding.ruleName h = FirewallRule.name rule
          /\ (AnalysisFinding.severity h = LOW ->
              FirewallRule.enabled rule = false
              /\ FirewallRule.action rule = Action.ALLOW)
          /\ (AnalysisFinding.severity h <> LOW ->
              FirewallRule.enabled rule = true /\ (0 < i)%nat))
  /\ ((forall rule, In rule rules -> FirewallRule.action rule <> Action.ALLOW) ->
      AnalysisResults.findings out = []
      /\ Summary.averageRiskScore (AnalysisResults.summary out) = 0).
Proof.
  intros out.
  assert (Hscoring : forall f, In f (AnalysisResults.findings out) ->
            exists i rule,
              rules !! i = Some rule
              /\ FirewallRule.action rule = Action.ALLOW
              /\ AnalysisFinding.ruleId f = FirewallRule.id rule
              /\ AnalysisFinding.ruleName f = FirewallRule.name rule).
  { intros f Hf. unfold out in Hf. rewrite analyzeRules_findings_flat_map in Hf.
    apply in_flat_map in Hf as (rule & Hrule & Hf).
    apply list_elem_of_In, list_elem_of_lookup in Hrule as [i Hi].
    destruct (scoring_finding_shape _ _ _ Hf) as (Ha & Hid & Hname & _).
    by exists i, rule. }
  split; [done|]. split.
  - intros h Hh. unfold out in Hh. rewrite analyzeRules_hygiene_walk in Hh.
    apply hygieneWalk_in in Hh as (k & rule & Hk & Hh).
    destruct (hygiene_finding_shape _ _ _ Hh) as (Hid & Hname & Hshape).
    exists k, rule. split_and!; try done.
    + intros Hlow. destruct Hshape as [H|[H|H]]; [| |tauto];
        destruct H as (_ & Hsev & _); congruence.
    + intros Hnot. cbn [app] in Hshape.
      assert (Hk0 : take k rules <> [] -> (0 < k)%nat).
      { destruct k; [done|lia]. }
      destruct Hshape as [H|[H|H]]; [| |destruct H as (_ & Hsev & _); done];
        destruct H as (_ & _ & _ & Hen & Hpre); auto.
  - intros Hnone.
    assert (He : AnalysisResults.findings out = []).
    { destruct (AnalysisResults.findings out) as [|f l] eqn:E; [done|].
      destruct (Hscoring f) as (i & rule & Hi & Ha & _); [by left|].
      destruct (Hnone rule); [|done].
      by apply list_elem_of_In, list_elem_of_lookup_2 with i. }
    split; [done|].
    change (Summary.averageRiskScore (AnalysisResults.summary out))
      with (averageRiskScore (AnalysisResults.findings out)).
    by rewrite He.
Qed.

Lemma finding_provenance_witness :
  AnalysisResults.findings
    (analyzeRules [conflictRuleB; sampleRule "9" "any" "any" "any" Protocol.ANY
                                    Action.OTHER true] []) = [].
Proof.
  destruct (finding_provenance
              [conflictRuleB; sampleRule "9" "any" "any" "any" Protocol.ANY
                                Action.OTHER true] []) as (_ & _ & H).
  apply H. intros rule [<-|[<-|[]]]; discriminate.
Defined.

(** ** Disabled rules *)

Lemma hygieneAfter_unfold prefix rule :
  hygieneAfter prefix rule
  = match find (shadows rule) prefix with
    | Some prev =>
        if FirewallRule.enabled rule then [shadowingFinding rule prev] else []
    | None => []
    end
    ++ match find (conflicts rule) prefix with
       | Some prev =>
           if FirewallRule.enabled rule then [conflictFinding rule prev] else []
       | None => []
       end
    ++ (if negb (FirewallRule.enabled rule)
           && bool_decide (FirewallRule.action rule = Action.ALLOW)
        then if anySource rule || hasAnyPort rule
             then [latentRiskFinding rule] else []
        else []).
Proof.
  unfold hygieneAfter. rewrite hygiene_segment. unfold JS.slice0.
  by rewrite firstn_all.
Qed.

Lemma find_skip {A} (p : A -> bool) l1 d l2 :
  p d = false -> find p (l1 ++ d :: l2) = find p (l1 ++ l2).
Proof.
  intros Hd. induction l1 as [|x l1 IH]; cbn [app find].
  - by rewrite Hd.
  - by rewrite IH.
Qed.

Lemma shadows_disabled rule d :
  FirewallRule.enabled d = false -> shadows rule d = false.
Proof. intros Hd. unfold shadows. by rewrite Hd. Qed.

Lemma conflicts_disabled rule d :
  FirewallRule.enabled d = false -> conflicts rule d = false.
Proof. intros Hd. unfold conflicts. by rewrite Hd. Qed.

Lemma hygieneAfter_skip_disabled l1 d l2 rule :
  FirewallRule.enabled d = false ->
  hygieneAfter (l1 ++ d :: l2) rule = hygieneAfter (l1 ++ l2) rule.
Proof.
  intros Hd. rewrite !hygieneAfter_unfold.
  by rewrite !find_skip by auto using shadows_disabled, conflicts_disabled.
Qed.

Lemma hygieneAfter_of_disabled prefix d :
  FirewallRule.enabled d = false -> hygieneAfter prefix d = hygieneAfter [] d.
Proof.
  intros Hd. rewrite !hygieneAfter_unfold, Hd.
  by destruct (find (shadows d) prefix), (find (conflicts d) prefix).
Qed.

Lemma hygieneWalk_skip_disabled l1 d l2 l :
  FirewallRule.enabled d = false ->
  hygieneWalk (l1 ++ d :: l2) l = hygieneWalk (l1 ++ l2) l.
Proof.
  intros Hd. revert l2. induction l as [|r l IH]; intros l2; cbn [hygieneWalk]; [done|].
  rewrite hygieneAfter_skip_disabled by done. f_equal.
  rewrite <- !app_assoc. cbn [app]. apply IH.
Qed.

(** X5. A disabled rule is inert for the rules around it: it never shadows
    and never conflicts, so taking it out of the list removes its own
    latent-risk finding, if it has one, and nothing else from the hygiene
    array. *)
Theorem disabled_rule_is_inert
    (before after : list FirewallRule.t) (d : FirewallRule.t)
    (portSettings : list InsecurePortSetting.t) :
  FirewallRule.enabled d = false ->
  exists rest,
    AnalysisResults.hygiene (analyzeRules (before ++ d :: after) portSettings)
    = AnalysisResults.hygiene (analyzeRules before portSettings)
      ++ AnalysisResults.hygiene (analyzeRules [d] portSettings) ++ rest
    /\ AnalysisResults.hygiene (analyzeRules (before ++ after) portSettings)
       = AnalysisResults.hygiene (analyzeRules before portSettings) ++ rest.
Proof.
  intros Hd. exists (hygieneWalk before after).
  rewrite !analyzeRules_hygiene_walk, !hygieneWalk_app. cbn [hygieneWalk app].
  rewrite app_nil_r, (hygieneAfter_of_disabled before d Hd).
  split; [|done]. do 2 f_equal.
  rewrite (hygieneWalk_skip_disabled before d [] after Hd).
  by rewrite app_nil_r.
Qed.

Lemma disabled_rule_is_inert_witness :
  exists rest,
    AnalysisResults.hygiene
      (analyzeRules ([] ++ setEnabled false broadRule :: [narrowRule]) [])
    = AnalysisResults.hygiene (analyzeRules [] [])
      ++ AnalysisResults.hygiene (analyzeRules [setEnabled false broadRule] [])
      ++ rest
    /\ AnalysisResults.hygiene (analyzeRules ([] ++ [narrowRule]) [])
       = AnalysisResults.hygiene (analyzeRules [] []) ++ rest.
Proof.
  apply (disabled_rule_is_inert [] [narrowRule] (setEnabled false broadRule) []).
  reflexivity.
Defined.

(** ** Severity counts *)

Lemma countSeverity_add_up (l : list AnalysisFinding.t) :
  Forall (fun f => AnalysisFinding.severity f <> INFORMATIONAL) l ->
  countSeverity CRITICAL l + countSeverity HIGH l
  + countSeverity MEDIUM l + countSeverity LOW l
  = JS.length l.
Proof.
  unfold countSeverity, JS.length.
  induction 1 as [|f l Hf _ IH]; [done|].
  cbn [List.filter].
  destruct (AnalysisFinding.severity f) eqn:E; try done;
    repeat case_bool_decide; try congruence; cbn [List.length]; lia.
Qed.

(** X6. When no enabled policy setting is marked INFORMATIONAL, the four
    severity counts of the summary add up to the number of scoring
    findings. *)
Theorem severity_counts_add_up
    (rules : list FirewallRule.t) (portSettings : list InsecurePortSetting.t) :
  (forall s, In s portSettings -> InsecurePortSetting.enabled s = true ->
             InsecurePortSetting.criticality s <> INFORMATIONAL) ->
  let out := analyzeRules rules portSettings in
  let s := AnalysisResults.summary out in
  Summary.criticalFindings s + Summary.highFindings s
  + Summary.mediumFindings s + Summary.lowFindings s
  = Z.of_nat (List.length (AnalysisResults.findings out)).
Proof.
  intros Hpolicy out s.
  apply (countSeverity_add_up (AnalysisResults.findings out)).
  apply List.Forall_forall. intros f Hf.
  unfold out in Hf. rewrite analyzeRules_findings_flat_map in Hf.
  apply in_flat_map in Hf as (rule & _ & Hf).
  destruct (scoring_finding_shape _ _ _ Hf) as (_ & _ & _ & [H|[H|H]]).
  - destruct H as (_ & [H|[H|[H|H]]]); destruct H as [-> _]; done.
  - destruct H as (_ & [H|[H|H]]); destruct H as [-> _]; done.
  - destruct H as (_ & st & Hin & Hen & -> & _). by apply Hpolicy.
Qed.

Lemma severity_counts_add_up_witness :
  let out :=
    analyzeRules [sampleRule "1" "10.0.0.0/8" "any" "23" Protocol.TCP Action.ALLOW true]
                 [InsecurePortSetting.mk 23 "Telnet" HIGH "Cleartext remote login" true] in
  let s := AnalysisResults.summary out in
  Summary.criticalFindings s + Summary.highFindings s
  + Summary.mediumFindings s + Summary.lowFindings s
  = Z.of_nat (List.length (AnalysisResults.findings out)).
Proof.
  apply (severity_counts_add_up
           [sampleRule "1" "10.0.0.0/8" "any" "23" Protocol.TCP Action.ALLOW true]
           [InsecurePortSetting.mk 23 "Telnet" HIGH "Cleartext remote login" true]).
  intros s [<-|[]] _. discriminate.
Defined.

(** ** The parsers: sentinel, letter case and blanks *)

Lemma digitValue_range c d : JS.digitValue c = Some d -> 0 <= d <= 9.
Proof.
  unfold JS.digitValue.
  destruct (Z.leb_spec 48 (JS.code c)), (Z.leb_spec (JS.code c) 57);
    cbn [andb]; intros [= <-]; lia.
Qed.

Lemma parseDigits_nonneg s acc : 0 <= acc -> 0 <= JS.parseDigits acc s.
Proof.
  revert acc. induction s as [|c s IH]; intros acc Hacc; cbn [JS.parseDigits]; [done|].
  destruct (JS.digitValue c) as [d|] eqn:Hd; [|done].
  apply IH. pose proof (digitValue_range c d Hd). lia.
Qed.

(** [JS.parseInt] with the sign test written as a comparison. *)
Lemma parseInt_unfold s :
  JS.parseInt s
  = match JS.trimStart s with
    | EmptyString => None
    | String c r =>
        if Ascii.eqb c "-" then
          if JS.startsWithDigit r then Some (- JS.parseDigits 0 r) else None
        else if Ascii.eqb c "+" then
          if JS.startsWithDigit r then Some (JS.parseDigits 0 r) else None
        else
          if JS.startsWithDigit (String c r)
          then Some (JS.parseDigits 0 (String c r)) else None
    end.
Proof.
  unfold JS.parseInt. destruct (JS.trimStart s) as [|c r]; [done|].
  destruct c as [[|] [|] [|] [|] [|] [|] [|] [|]]; cbn [Ascii.eqb Bool.eqb];
    cbn iota beta; destruct (JS.startsWithDigit _); try done; f_equal;
    match goal with |- context [?k * ?x] => destruct x end; done.
Qed.

Lemma includes_trimStart c s :
  JS.includes c s = false -> JS.includes c (JS.trimStart s) = false.
Proof.
  induction s as [|d s IH]; cbn [JS.trimStart JS.includes]; [done|].
  intros [Hd Hs]%orb_false_elim. destruct (JS.isWhiteSpace d); [by apply IH|].
  cbn [JS.includes]. by rewrite Hd, Hs.
Qed.

Lemma includes_trimEnd c s :
  JS.includes c s = false -> JS.includes c (JS.trimEnd s) = false.
Proof.
  induction s as [|d s IH]; cbn [JS.trimEnd JS.includes]; [done|].
  intros [Hd Hs]%orb_false_elim. destruct (_ && _); [done|].
  cbn [JS.includes]. by rewrite Hd, IH.
Qed.

Lemma includes_trim c s :
  JS.includes c s = false -> JS.includes c (JS.trim s) = false.
Proof. intros H. by apply includes_trimEnd, includes_trimStart. Qed.

(** Without a minus sign in the text, [parseInt] never reads a negative
    number. *)
Lemma parseInt_nonneg s n :
  JS.includes "-" s = false -> JS.parseInt s = Some n -> 0 <= n.
Proof.
  intros Hs%includes_trimStart. rewrite parseInt_unfold.
  destruct (JS.trimStart s) as [|c r]; [done|].
  cbn [JS.includes] in Hs. apply orb_false_elim in Hs as [Hc _]. rewrite Hc.
  destruct (Ascii.eqb c "+"); destruct (JS.startsWithDigit _); try done;
    intros Hn%(inj Some); rewrite <- Hn; by apply parseDigits_nonneg.
Qed.

Lemma split_no_separator sep s :
  Forall (fun t => JS.includes sep t = false) (JS.split sep s).
Proof.
  induction s as [|c s IH]; cbn [JS.split]; [by repeat constructor|].
  destruct (Ascii.eqb c sep) eqn:Hc; [by constructor|].
  destruct (JS.split sep s) as [|t ts].
  - constructor; [|done]. cbn. by rewrite Hc.
  - apply Forall_cons in IH as [Ht Hts]. constructor; [|done].
    cbn. by rewrite Hc, Ht.
Qed.

Lemma parsePortToken_nonneg t x : In x (parsePortToken [] t) -> 0 <= x.
Proof.
  unfold parsePortToken. destruct (JS.includes "-" t) eqn:Hdash.
  - pose proof (split_no_separator "-" t) as Hsplit.
    destruct (JS.split "-" t) as [|l [|r rest]]; cbn [map].
    + done.
    + by destruct (JS.parseInt (JS.trim l)).
    + apply Forall_cons in Hsplit as [Hl _].
      destruct (JS.parseInt (JS.trim l)) as [a|] eqn:Ha; [|done].
      destruct (JS.parseInt (JS.trim r)) as [b|]; [|done].
      rewrite forRange_spec. cbn [app]. intros Hx%inclusiveRange_In.
      pose proof (parseInt_nonneg _ _ (includes_trim _ _ Hl) Ha). lia.
  - destruct (JS.parseInt t) as [n|] eqn:Hn; [|done].
    intros [<-|[]]. by apply (parseInt_nonneg t).
Qed.

(** X7. The sentinel -1 stands in a parsed port list only when the whole
    text is a wildcard token, and then it stands alone; every other parsed
    port is a non-negative integer.  A wildcard inside a list, as in
    "any,80", is dropped like any token that does not parse. *)
Theorem parsed_ports_sentinel (s : string) :
  (In (-1) (parsePorts s) <-> s <> EmptyString /\ isPortWildcard (cleanText s))
  /\ (In (-1) (parsePorts s) -> parsePorts s = [-1])
  /\ (~ In (-1) (parsePorts s) -> forall x, In x (parsePorts s) -> 0 <= x).
Proof.
  unfold parsePorts. destruct s as [|c s]; cbn [JS.isEmpty].
  { split_and!; try done. split; [done|]. by intros [? _]. }
  fold (cleanText (String c s)).
  destruct (_ || _) eqn:Hw.
  - apply port_wildcard_test in Hw. split_and!; try done.
    + split; [done|]. intros _. by left.
    + intros Hn. destruct Hn. by left.
  - assert (Hnw : ~ isPortWildcard (cleanText (String c s))).
    { intros H. apply port_wildcard_test in H. congruence. }
    rewrite fold_parsePortToken. cbn [app].
    assert (Hpos : forall x,
              In x (flat_map (parsePortToken [])
                      (JS.splitPortSeparators (cleanText (String c s)))) -> 0 <= x).
    { intros x (t & _ & Hx)%in_flat_map. by apply (parsePortToken_nonneg t). }
    split_and!.
    + split; [|tauto]. intros H%Hpos. lia.
    + intros H%Hpos. lia.
    + intros _. exact Hpos.
Qed.

Lemma parsed_ports_sentinel_witness :
  parsePorts " ANY " = [-1] /\ forall x, In x (parsePorts "any,80") -> 0 <= x.
Proof.
  split.
  - apply (parsed_ports_sentinel " ANY "). by left.
  - apply (parsed_ports_sentinel "any,80").
    change (parsePorts "any,80") with [80]. intros [H|[]]. discriminate H.
Defined.

Lemma lowerChar_idem c : JS.lowerChar (JS.lowerChar c) = JS.lowerChar c.
Proof. by destruct c as [[|] [|] [|] [|] [|] [|] [|] [|]]. Qed.

Lemma isWhiteSpace_lowerChar c : JS.isWhiteSpace (JS.lowerChar c) = JS.isWhiteSpace c.
Proof. by destruct c as [[|] [|] [|] [|] [|] [|] [|] [|]]. Qed.

Lemma toLowerCase_idem s : JS.toLowerCase (JS.toLowerCase s) = JS.toLowerCase s.
Proof.
  induction s as [|c s IH]; cbn [JS.toLowerCase]; [done|].
  by rewrite lowerChar_idem, IH.
Qed.

Lemma trimStart_toLowerCase s :
  JS.trimStart (JS.toLowerCase s) = JS.toLowerCase (JS.trimStart s).
Proof.
  induction s as [|c s IH]; cbn [JS.toLowerCase JS.trimStart]; [done|].
  rewrite isWhiteSpace_lowerChar. by destruct (JS.isWhiteSpace c).
Qed.

Lemma isEmpty_toLowerCase s : JS.isEmpty (JS.toLowerCase s) = JS.isEmpty s.
Proof. by destruct s. Qed.

Lemma trimEnd_toLowerCase s :
  JS.trimEnd (JS.toLowerCase s) = JS.toLowerCase (JS.trimEnd s).
Proof.
  induction s as [|c s IH]; cbn [JS.toLowerCase JS.trimEnd]; [done|].
  rewrite isWhiteSpace_lowerChar, IH, isEmpty_toLowerCase.
  by destruct (_ && _).
Qed.

Lemma trim_toLowerCase s : JS.trim (JS.toLowerCase s) = JS.toLowerCase (JS.trim s).
Proof. unfold JS.trim. by rewrite trimStart_toLowerCase, trimEnd_toLowerCase. Qed.

Lemma trimEnd_idem s : JS.trimEnd (JS.trimEnd s) = JS.trimEnd s.
Proof.
  induction s as [|c s IH]; cbn [JS.trimEnd]; [done|].
  destruct (JS.isWhiteSpace c && JS.isEmpty (JS.trimEnd s)) eqn:H; [done|].
  cbn [JS.trimEnd]. by rewrite IH, H.
Qed.

Lemma trimStart_trimEnd_trimStart s :
  JS.trimStart (JS.trimEnd (JS.trimStart s)) = JS.trimEnd (JS.trimStart s).
Proof.
  induction s as [|c s IH]; cbn [JS.trimStart]; [done|].
  destruct (JS.isWhiteSpace c) eqn:Hc; [done|].
  cbn [JS.trimEnd]. rewrite Hc. cbn [andb JS.trimStart]. by rewrite Hc.
Qed.

Lemma trim_idem s : JS.trim (JS.trim s) = JS.trim s.
Proof.
  unfold JS.trim. by rewrite trimStart_trimEnd_trimStart, trimEnd_idem.
Qed.

Lemma cleanText_trim s : cleanText (JS.trim s) = cleanText s.
Proof. unfold cleanText. by rewrite trim_idem. Qed.

Lemma cleanText_toLowerCase s : cleanText (JS.toLowerCase s) = cleanText s.
Proof. unfold cleanText. by rewrite trim_toLowerCase, toLowerCase_idem. Qed.

Lemma parsePorts_cleanText s t :
  cleanText s = cleanText t ->
  (JS.isEmpty s = true -> cleanText t = EmptyString) ->
  (JS.isEmpty t = true -> cleanText s = EmptyString) ->
  parsePorts s = parsePorts t.
Proof.
  intros Hc Hs Ht. unfold parsePorts. fold (cleanText s) (cleanText t).
  destruct (JS.isEmpty s) eqn:Es, (JS.isEmpty t) eqn:Et; try done.
  - by rewrite (Hs eq_refl).
  - by rewrite (Ht eq_refl).
  - by rewrite Hc.
Qed.

(** X8. Both parsers ignore letter case and surrounding white space: an
    address or a port text gives the same scope, and the same port list,
    as its trimmed or lower-cased form. *)
Theorem parsers_ignore_case_and_blanks (s : string) :
  getCidrSize (JS.trim s) = getCidrSize s
  /\ getCidrSize (JS.toLowerCase s) = getCidrSize s
  /\ parsePorts (JS.trim s) = parsePorts s
  /\ parsePorts (JS.toLowerCase s) = parsePorts s.
Proof.
  split_and!.
  - unfold getCidrSize. fold (cleanText (JS.trim s)) (cleanText s).
    by rewrite cleanText_trim.
  - unfold getCidrSize. fold (cleanText (JS.toLowerCase s)) (cleanText s).
    by rewrite cleanText_toLowerCase.
  - apply parsePorts_cleanText; [apply cleanText_trim|..].
    + unfold cleanText. by destruct (JS.trim s).
    + by destruct s.
  - apply parsePorts_cleanText; [apply cleanText_toLowerCase|..].
    + rewrite isEmpty_toLowerCase. by destruct s.
    + rewrite cleanText_toLowerCase. by destruct s.
Qed.

(** ** The port policy as a map *)

Lemma lastEnabledFor_in portSettings p s :
  lastEnabledFor portSettings p s ->
  In s (List.filter InsecurePortSetting.enabled portSettings)
  /\ InsecurePortSetting.port s = p.
Proof.
  intros (before & after & -> & Hen & Hp & _). split; [|done].
  apply List.filter_In. split; [|done]. apply in_or_app. right. by left.
Qed.

Lemma NoDup_map_eq {A B} (f : A -> B) (l : list A) x y :
  List.NoDup (map f l) -> In x l -> In y l -> f x = f y -> x = y.
Proof.
  induction l as [|a l IH]; cbn [map]; [done|].
  intros Hnd [->|Hx] [->|Hy] Hf; try done.
  - apply List.NoDup_cons_iff in Hnd as [Hn _]. destruct Hn.
    rewrite Hf. by apply in_map.
  - apply List.NoDup_cons_iff in Hnd as [Hn _]. destruct Hn.
    rewrite <- Hf. by apply in_map.
  - apply List.NoDup_cons_iff in Hnd as [_ Hnd]. by apply IH.
Qed.

Lemma activeInsecurePorts_perm ps1 ps2 :
  Permutation (List.filter InsecurePortSetting.enabled ps1)
              (List.filter InsecurePortSetting.enabled ps2) ->
  List.NoDup (map InsecurePortSetting.port
                (List.filter InsecurePortSetting.enabled ps1)) ->
  activeInsecurePorts ps1 = activeInsecurePorts ps2.
Proof.
  intros Hperm Hnd. apply map_eq. intros p.
  pose proof (activeInsecurePorts_lookup ps1 p) as H1.
  pose proof (activeInsecurePorts_lookup ps2 p) as H2.
  destruct (activeInsecurePorts ps1 !! p) as [s1|],
           (activeInsecurePorts ps2 !! p) as [s2|]; try done.
  - apply lastEnabledFor_in in H1 as [I1 P1].
    apply lastEnabledFor_in in H2 as [I2 P2].
    f_equal. apply (NoDup_map_eq InsecurePortSetting.port _ _ _ Hnd I1).
    + by apply (Permutation_in _ (Permutation_sym Hperm)).
    + congruence.
  - apply lastEnabledFor_in in H1 as [I1 P1].
    apply (Permutation_in _ Hperm) in I1.
    apply List.filter_In in I1 as [I1 E1]. by destruct (H2 s1 I1 E1).
  - apply lastEnabledFor_in in H2 as [I2 P2].
    apply (Permutation_in _ (Permutation_sym Hperm)) in I2.
    apply List.filter_In in I2 as [I2 E2]. by destruct (H1 s2 I2 E2).
Qed.

(** X9. Only the enabled settings of the policy count, and when no two of
    them share a port their order does not: two policies whose enabled
    settings are the same up to order give the same analysis. *)
Theorem policy_order_is_irrelevant
    (rules : list FirewallRule.t) (ps1 ps2 : list InsecurePortSetting.t) :
  Permutation (List.filter InsecurePortSetting.enabled ps1)
              (List.filter InsecurePortSetting.enabled ps2) ->
  List.NoDup (map InsecurePortSetting.port
                (List.filter InsecurePortSetting.enabled ps1)) ->
  analyzeRules rules ps1 = analyzeRules rules ps2.
Proof.
  intros Hperm Hnd. unfold analyzeRules.
  by rewrite (activeInsecurePorts_perm ps1 ps2 Hperm Hnd).
Qed.

Lemma policy_order_is_irrelevant_witness :
  let ftp := InsecurePortSetting.mk 21 "FTP" HIGH "Cleartext credentials & data" true in
  let ssh := InsecurePortSetting.mk 22 "SSH" MEDIUM "Weak ciphers possible in legacy configs" true in
  let off := InsecurePortSetting.mk 21 "FTP" LOW "switched off" false in
  analyzeRules [narrowRule] [ftp; off; ssh] = analyzeRules [narrowRule] [ssh; ftp].
Proof.
  intros ftp ssh off.
  apply (policy_order_is_irrelevant [narrowRule] [ftp; off; ssh] [ssh; ftp]).
  - apply perm_swap.
  - change (List.NoDup [21; 22]).
    constructor; [intros [H|[]]; discriminate H|].
    constructor; [intros []|constructor].
Defined.

(** * The settings page *)

Lemma keepDigits_allDigits v : allDigits (JSLib.keepDigits v) = true.
Proof.
  induction v as [|c v IH]; cbn [JSLib.keepDigits allDigits]; [done|].
  destruct (JS.digitValue c) eqn:Hc; [|done]. cbn [allDigits]. by rewrite Hc.
Qed.

Lemma digit_is_not_x c d :
  JS.digitValue c = Some d -> Ascii.eqb c "x" || Ascii.eqb c "X" = false.
Proof. destruct c as [[|] [|] [|] [|] [|] [|] [|] [|]]; by vm_compute. Qed.

(** A text of decimal digits is read in radix 10, never as a negative
    number. *)
Lemma parseInt_allDigits s p :
  allDigits s = true -> JSLib.parseInt s = Some p -> 0 <= p.
Proof.
  destruct s as [|c r]; [done|]. cbn [allDigits].
  destruct (JS.digitValue c) as [d|] eqn:Hc; [|done]. intros Hr.
  assert (Hpos : 0 <= JS.parseDigits 0 (String c r))
    by (by apply parseDigits_nonneg).
  destruct r as [|x r].
  - destruct c as [[|] [|] [|] [|] [|] [|] [|] [|]]; try discriminate Hc;
      vm_compute; intros [= <-]; done.
  - cbn [allDigits] in Hr. destruct (JS.digitValue x) as [dx|] eqn:Hx; [|done].
    pose proof (digit_is_not_x x dx Hx) as Hnx.
    destruct c as [[|] [|] [|] [|] [|] [|] [|] [|]]; try discriminate Hc;
      unfold JSLib.parseInt; cbn [JS.trimStart];
      match goal with
      | |- context [JS.isWhiteSpace ?c] =>
          let v := eval vm_compute in (JS.isWhiteSpace c) in
          change (JS.isWhiteSpace c) with v
      end; cbn iota beta; rewrite ?Hnx;
      unfold JS.startsWithDigit; rewrite ?Hc; cbn iota beta;
      intros Hp%(inj Some); rewrite <- Hp; lia.
Qed.

Lemma flipEnabled_involutive s : flipEnabled (flipEnabled s) = s.
Proof. destruct s as [p l c w e]. unfold flipEnabled; cbn. by rewrite negb_involutive. Qed.

Lemma togglePort_ports port st :
  map InsecurePortSetting.port (SettingsState.currentSettings (togglePort port st))
  = map InsecurePortSetting.port (SettingsState.currentSettings st).
Proof.
  unfold togglePort; cbn. rewrite map_map. apply map_ext. intros s.
  by destruct (InsecurePortSetting.port s =? port).
Qed.

Lemma NoDup_map_filter {A B} (f : A -> B) (p : A -> bool) (l : list A) :
  List.NoDup (map f l) -> List.NoDup (map f (List.filter p l)).
Proof.
  induction l as [|a l IH]; cbn [map List.filter]; [done|].
  intros [Hn Hnd]%List.NoDup_cons_iff. destruct (p a); [|by apply IH].
  cbn [map]. apply List.NoDup_cons; [|by apply IH].
  intros (x & Hx & [Hin _]%List.filter_In)%in_map_iff.
  apply Hn. rewrite <- Hx. by apply in_map.
Qed.

Lemma existsb_port_false (l : list InsecurePortSetting.t) p :
  existsb (fun s => InsecurePortSetting.port s =? p) l = false
  <-> ~ In p (map InsecurePortSetting.port l).
Proof.
  induction l as [|s l IH]; cbn [existsb map In]; [tauto|].
  rewrite orb_false_iff, IH, Z.eqb_neq. tauto.
Qed.

Lemma addCustomPort_cases st :
  let current := SettingsState.currentSettings st in
  let form := SettingsState.newPort st in
  (   fst (addCustomPort st) = st)
  \/ (exists p,
        JSLib.parseInt (NewPort.port form) = Some p
        /\ NewPort.label form <> EmptyString
        /\ ~ In p (map InsecurePortSetting.port current)
        /\ snd (addCustomPort st) = None
        /\ fst (addCustomPort st)
           = {| SettingsState.currentSettings :=
                  current ++ [InsecurePortSetting.mk p (NewPort.label form)
                                (NewPort.criticality form)
                                "User-defined custom risk" true];
                SettingsState.newPort := SettingsState.newPort (openSettings []) |}).
Proof.
  intros current form. unfold addCustomPort. fold current form.
  destruct (JSLib.parseInt (NewPort.port form)) as [p|]; [|by left].
  destruct (NewPort.label form) as [|c l] eqn:Hl; [by left|]. cbn [JS.isEmpty].
  destruct (existsb _ current) eqn:Hex; [by left|].
  right. exists p. split_and!; try done. by apply existsb_port_false.
Qed.

(** X10. The operations of the settings page keep the port list well
    formed: starting from a list with pairwise distinct, non-negative ports
    and no INFORMATIONAL entry, as the default list is, whatever the user
    toggles, types, adds or removes, the ports stay pairwise distinct and
    non-negative and no entry becomes INFORMATIONAL. *)
Theorem settings_stay_well_formed
    (settings : list InsecurePortSetting.t) (events : list SettingsEvent) :
  distinctPorts settings ->
  Forall (fun s => 0 <= InsecurePortSetting.port s
                   /\ InsecurePortSetting.criticality s <> INFORMATIONAL) settings ->
  let st := fold_left settingsStep events (openSettings settings) in
  distinctPorts (SettingsState.currentSettings st)
  /\ Forall (fun s => 0 <= InsecurePortSetting.port s
                      /\ InsecurePortSetting.criticality s <> INFORMATIONAL)
            (SettingsState.currentSettings st).
Proof.
  intros Hd Hf st.
  set (Inv := fun st : SettingsState.t =>
    distinctPorts (SettingsState.currentSettings st)
    /\ Forall (fun s => 0 <= InsecurePortSetting.port s
                        /\ InsecurePortSetting.criticality s <> INFORMATIONAL)
              (SettingsState.currentSettings st)
    /\ allDigits (NewPort.port (SettingsState.newPort st)) = true
    /\ NewPort.criticality (SettingsState.newPort st) <> INFORMATIONAL).
  assert (Hstep : forall s e, Inv s -> Inv (settingsStep s e)).
  { intros s e (H1 & H2 & H3 & H4). destruct e as [p|v|v|o| |p]; cbn [settingsStep].
    - split_and!; try done.
      + unfold distinctPorts. by rewrite togglePort_ports.
      + unfold togglePort; cbn. apply Forall_map.
        eapply Forall_impl; [exact H2|]. intros x [Hx1 Hx2].
        by destruct (InsecurePortSetting.port x =? p).
    - split_and!; try done. apply keepDigits_allDigits.
    - by split_and!.
    - split_and!; try done. by destruct o.
    - destruct (addCustomPort_cases s) as [->|(p & Hp & Hl & Hnew & _ & ->)];
        [by split_and!|].
      unfold Inv.
      cbn [SettingsState.currentSettings SettingsState.newPort openSettings
           NewPort.port NewPort.criticality allDigits].
      split_and!; try done.
      + unfold distinctPorts. rewrite List.map_app. cbn [map].
        apply List.NoDup_app; [exact H1|repeat constructor; by intros []|].
        intros x Hx [<-|[]]. by apply Hnew.
      + apply Forall_app. split; [done|]. constructor; [|done]. cbn. split; [|done].
        by apply (parseInt_allDigits (NewPort.port (SettingsState.newPort s))).
    - split_and!; try done.
      + unfold distinctPorts, removePort; cbn. by apply NoDup_map_filter.
      + unfold removePort; cbn. apply List.Forall_forall.
        intros x [Hx _]%List.filter_In. rewrite List.Forall_forall in H2. by apply H2.
  }
  assert (Hrun : forall evs s, Inv s -> Inv (fold_left settingsStep evs s)).
  { induction evs as [|e evs IH]; intros s Hs; [done|]. cbn. by apply IH, Hstep. }
  destruct (Hrun events (openSettings settings)) as (H1 & H2 & _); [|done].
  by split_and!.
Qed.

Lemma distinctb_NoDup l : distinctb l = true -> List.NoDup l.
Proof.
  induction l as [|x l IH]; cbn [distinctb]; [constructor|].
  intros [Hx Hl]%andb_true_iff. constructor; [|by apply IH].
  intros Hin. apply negb_true_iff in Hx.
  assert (existsb (Z.eqb x) l = true); [|congruence].
  apply existsb_exists. exists x. split; [done|apply Z.eqb_refl].
Qed.

(** The default list is well formed. *)
Lemma default_settings_well_formed :
  distinctPorts DEFAULT_INSECURE_PORTS
  /\ Forall (fun s => 0 <= InsecurePortSetting.port s
                      /\ InsecurePortSetting.criticality s <> INFORMATIONAL)
            DEFAULT_INSECURE_PORTS.
Proof.
  split.
  - apply distinctb_NoDup. by vm_compute.
  - unfold DEFAULT_INSECURE_PORTS.
    repeat (constructor; [cbn; split; [lia|discriminate]|]). constructor.
Qed.

Lemma settings_stay_well_formed_witness :
  let st :=
    fold_left settingsStep
      [TypePort "80a80"; TypeLabel "Alt HTTP"; ChooseCriticality OptHigh;
       AddCustomPort; TogglePort 23; RemovePort 21; TypePort "8080"; AddCustomPort]
      (openSettings DEFAULT_INSECURE_PORTS) in
  distinctPorts (SettingsState.currentSettings st)
  /\ Forall (fun s => 0 <= InsecurePortSetting.port s
                      /\ InsecurePortSetting.criticality s <> INFORMATIONAL)
            (SettingsState.currentSettings st).
Proof.
  apply (settings_stay_well_formed DEFAULT_INSECURE_PORTS);
    apply default_settings_well_formed.
Defined.

(** X11. Toggling a port twice restores the settings exactly; one toggle
    keeps the ports and their order, leaves the entries of other ports
    untouched, and takes an enabled port out of the map the engine looks
    ports up in, as long as the ports are pairwise distinct. *)
Theorem togglePort_round_trip (port : Z) (st : SettingsState.t) :
  togglePort port (togglePort port st) = st
  /\ map InsecurePortSetting.port (SettingsState.currentSettings (togglePort port st))
     = map InsecurePortSetting.port (SettingsState.currentSettings st)
  /\ (forall s, In s (SettingsState.currentSettings st) ->
                InsecurePortSetting.port s <> port ->
                In s (SettingsState.currentSettings (togglePort port st)))
  /\ (distinctPorts (SettingsState.currentSettings st) ->
      forall s, In s (SettingsState.currentSettings st) ->
                InsecurePortSetting.port s = port ->
                InsecurePortSetting.enabled s = true ->
      activeInsecurePorts (SettingsState.currentSettings (togglePort port st)) !! port
      = None).
Proof.
  split_and!.
  - destruct st as [current form]. unfold togglePort; cbn. f_equal.
    rewrite map_map. rewrite <- (map_id current) at 2. apply map_ext. intros s.
    destruct (Z.eqb_spec (InsecurePortSetting.port s) port) as [Hp|Hp].
    + change (InsecurePortSetting.port (flipEnabled s))
        with (InsecurePortSetting.port s).
      destruct (Z.eqb_spec (InsecurePortSetting.port s) port); [|done].
      apply flipEnabled_involutive.
    + by destruct (Z.eqb_spec (InsecurePortSetting.port s) port).
  - apply togglePort_ports.
  - intros s Hs Hp. unfold togglePort; cbn. apply in_map_iff. exists s.
    split; [|done]. by destruct (Z.eqb_spec (InsecurePortSetting.port s) port).
  - intros Hd s Hs Hp Hen.
    pose proof (activeInsecurePorts_lookup
                  (SettingsState.currentSettings (togglePort port st)) port) as Hl.
    destruct (activeInsecurePorts _ !! port) as [t|]; [|done]. exfalso.
    apply lastEnabledFor_in in Hl as [[Ht Hten]%List.filter_In Htp].
    unfold togglePort in Ht; cbn in Ht. apply in_map_iff in Ht as (u & Hu & Hin).
    assert (u = s) as ->.
    { apply (NoDup_map_eq InsecurePortSetting.port _ u s Hd Hin Hs).
      rewrite Hp, <- Htp, <- Hu.
      by destruct (InsecurePortSetting.port u =? port). }
    rewrite Hp, Z.eqb_refl in Hu. subst t. cbn in Hten.
    by rewrite Hen in Hten.
Qed.

Lemma togglePort_round_trip_witness :
  activeInsecurePorts
    (SettingsState.currentSettings (togglePort 23 (openSettings DEFAULT_INSECURE_PORTS)))
  !! 23 = None.
Proof.
  destruct (togglePort_round_trip 23 (openSettings DEFAULT_INSECURE_PORTS))
    as (_ & _ & _ & H).
  apply (H (proj1 default_settings_well_formed)
           (InsecurePortSetting.mk 23 "Telnet" HIGH "Cleartext remote login" true));
    [|reflexivity..].
  right; left. reflexivity.
Defined.

Lemma filter_other_ports (l : list InsecurePortSetting.t) p :
  ~ In p (map InsecurePortSetting.port l) ->
  List.filter (fun s => negb (InsecurePortSetting.port s =? p)) l = l.
Proof.
  induction l as [|s l IH]; cbn [map In List.filter]; [done|].
  intros Hn. destruct (Z.eqb_spec (InsecurePortSetting.port s) p) as [Hp|Hp];
    [tauto|]. cbn [negb]. rewrite IH; tauto.
Qed.

(** X12. [addCustomPort] either leaves the settings as they are (no number
    in the port field, no label, or a port that is already listed, which
    raises the alert) or appends one enabled entry for the new port with
    the chosen label and criticality and clears the form.  The new entry is
    the one the engine finds for that port, and removing the port again
    gives back the list as it was. *)
Theorem addCustomPort_behaviour (st : SettingsState.t) :
  let current := SettingsState.currentSettings st in
  let form := SettingsState.newPort st in
  let st' := fst (addCustomPort st) in
  (JSLib.parseInt (NewPort.port form) = None \/ NewPort.label form = EmptyString ->
   addCustomPort st = (st, None))
  /\ (forall p, JSLib.parseInt (NewPort.port form) = Some p ->
      NewPort.label form <> EmptyString ->
      In p (map InsecurePortSetting.port current) ->
      st' = st /\ snd (addCustomPort st) <> None)
  /\ (forall p, JSLib.parseInt (NewPort.port form) = Some p ->
      NewPort.label form <> EmptyString ->
      ~ In p (map InsecurePortSetting.port current) ->
      let item := InsecurePortSetting.mk p (NewPort.label form)
                    (NewPort.criticality form) "User-defined custom risk" true in
      SettingsState.currentSettings st' = current ++ [item]
      /\ SettingsState.newPort st' = SettingsState.newPort (openSettings [])
      /\ snd (addCustomPort st) = None
      /\ activeInsecurePorts (SettingsState.currentSettings st') !! p = Some item
      /\ SettingsState.currentSettings (removePort p st') = current).
Proof.
  intros current form st'. split_and!.
  - intros Hbad. unfold addCustomPort. fold form.
    destruct (JSLib.parseInt (NewPort.port form)) as [p|]; [|done].
    destruct Hbad as [Hbad|Hbad]; [done|]. by rewrite Hbad.
  - intros p Hp Hl Hin. unfold st', addCustomPort. fold form current. rewrite Hp.
    destruct (NewPort.label form); [done|]. cbn [JS.isEmpty].
    destruct (existsb _ current) eqn:Hex; [done|].
    apply existsb_port_false in Hex. done.
  - intros p Hp Hl Hnew item.
    assert (Hst : addCustomPort st
                  = ({| SettingsState.currentSettings := current ++ [item];
                        SettingsState.newPort := SettingsState.newPort (openSettings []) |},
                     None)).
    { unfold addCustomPort. fold form current. rewrite Hp.
      destruct (NewPort.label form); [done|]. cbn [JS.isEmpty].
      apply existsb_port_false in Hnew. by rewrite Hnew. }
    unfold st'. rewrite Hst. cbn [fst snd SettingsState.currentSettings
                                  SettingsState.newPort removePort].
    split_and!; try done.
    + rewrite activeInsecurePorts_snoc. cbn. apply lookup_insert_eq.
    + rewrite List.filter_app. cbn [List.filter InsecurePortSetting.port].
      rewrite Z.eqb_refl. cbn [negb]. rewrite app_nil_r.
      by apply filter_other_ports.
Qed.

Lemma addCustomPort_behaviour_witness :
  let st :=
    typeLabel "Alt HTTP" (typePort "8081" (openSettings DEFAULT_INSECURE_PORTS)) in
  activeInsecurePorts (SettingsState.currentSettings (fst (addCustomPort st))) !! 8081
  = Some (InsecurePortSetting.mk 8081 "Alt HTTP" MEDIUM "User-defined custom risk" true).
Proof.
  intros st.
  destruct (addCustomPort_behaviour st) as (_ & _ & H).
  apply (H 8081); [reflexivity|discriminate|].
  intros Hin. apply (bool_decide_pack _) in Hin. by vm_compute in Hin.
Defined.

(** ** A change of the policy is local *)

Lemma insecurePortCallback_other rule (m : gmap Z InsecurePortSetting.t) item q :
  q <> InsecurePortSetting.port item ->
  insecurePortCallback rule (<[InsecurePortSetting.port item := item]> m) noArrays q
  = insecurePortCallback rule m noArrays q.
Proof.
  intros Hq. unfold insecurePortCallback. by rewrite lookup_insert_ne.
Qed.

Lemma insecurePortCallback_unlisted rule (m : gmap Z InsecurePortSetting.t) p :
  m !! p = None -> findings_arr (insecurePortCallback rule m noArrays p) = [].
Proof.
  intros Hp. unfold insecurePortCallback. rewrite Hp. by destruct (p =? -1).
Qed.

Lemma insecurePortCallback_listed rule (m : gmap Z InsecurePortSetting.t) item :
  0 <= InsecurePortSetting.port item ->
  List.length
    (findings_arr
       (insecurePortCallback rule (<[InsecurePortSetting.port item := item]> m)
          noArrays (InsecurePortSetting.port item))) = 1%nat.
Proof.
  intros Hp. unfold insecurePortCallback. rewrite lookup_insert_eq.
  destruct (Z.eqb_spec (InsecurePortSetting.port item) (-1)); [lia|done].
Qed.

Lemma insecurePorts_grow rule (m : gmap Z InsecurePortSetting.t) item ports :
  m !! InsecurePortSetting.port item = None ->
  0 <= InsecurePortSetting.port item ->
  let old := flat_map (fun q => findings_arr (insecurePortCallback rule m noArrays q))
                      ports in
  let new :=
    flat_map (fun q => findings_arr
                         (insecurePortCallback rule
                            (<[InsecurePortSetting.port item := item]> m) noArrays q))
             ports in
  sublist old new
  /\ List.length new
     = (List.length old
        + List.length (List.filter (Z.eqb (InsecurePortSetting.port item)) ports))%nat.
Proof.
  intros Hnone Hp. induction ports as [|q ports [IHs IHl]]; cbn [flat_map List.filter].
  - split; [constructor|done].
  - destruct (Z.eqb_spec (InsecurePortSetting.port item) q) as [<-|Hq].
    + rewrite (insecurePortCallback_unlisted rule m _ Hnone). cbn [app].
      split.
      * by apply sublist_inserts_l.
      * rewrite !length_app, IHl, insecurePortCallback_listed by done.
        cbn [List.length]. lia.
    + rewrite insecurePortCallback_other by done. split.
      * by apply sublist_app.
      * rewrite !length_app, IHl. lia.
Qed.

Lemma insecurePort_flat_map_category rule (m : gmap Z InsecurePortSetting.t) ports :
  Forall (fun f => AnalysisFinding.category f = Insecure_Port)
         (flat_map (fun q => findings_arr (insecurePortCallback rule m noArrays q))
                   ports).
Proof.
  pose proof (insecurePortStep_category rule true ports m) as H.
  unfold insecurePortStep in H. by rewrite insecurePort_fold in H.
Qed.

Lemma scoringOf_parts portSettings rule :
  scoringOf portSettings rule
  = ofCategory Excessive_Exposure (scoringOf portSettings rule)
    ++ ofCategory Subnet_Scope (scoringOf portSettings rule)
    ++ ofCategory Insecure_Port (scoringOf portSettings rule).
Proof.
  unfold scoringOf.
  rewrite pushedBy_exposure, pushedBy_subnet, pushedBy_insecurePort.
  apply pushedBy_findings.
Qed.

Lemma scoringOf_grow portSettings item rule :
  ~ In (InsecurePortSetting.port item) (map InsecurePortSetting.port portSettings) ->
  InsecurePortSetting.enabled item = true ->
  0 <= InsecurePortSetting.port item ->
  sublist (scoringOf portSettings rule) (scoringOf (portSettings ++ [item]) rule)
  /\ List.length (scoringOf (portSettings ++ [item]) rule)
     = (List.length (scoringOf portSettings rule)
        + portUses (InsecurePortSetting.port item) rule)%nat
  /\ forall c, c <> Insecure_Port ->
       ofCategory c (scoringOf (portSettings ++ [item]) rule)
       = ofCategory c (scoringOf portSettings rule).
Proof.
  intros Hnew Hen Hp.
  assert (Hnone : activeInsecurePorts portSettings !! InsecurePortSetting.port item = None).
  { pose proof (activeInsecurePorts_lookup portSettings (InsecurePortSetting.port item)) as H.
    destruct (activeInsecurePorts portSettings !! _) as [s|]; [|done]. exfalso.
    apply lastEnabledFor_in in H as [[Hin _]%List.filter_In Hs].
    apply Hnew. rewrite <- Hs. by apply in_map. }
  unfold scoringOf. rewrite !pushedBy_findings. cbv zeta.
  rewrite activeInsecurePorts_snoc, Hen. unfold insecurePortStep, portUses.
  destruct (bool_decide (FirewallRule.action rule = Action.ALLOW)) eqn:Hallow.
  - rewrite !insecurePort_fold. cbn [findings_arr noArrays app].
    destruct (insecurePorts_grow rule (activeInsecurePorts portSettings) item
                (parsePorts (FirewallRule.destinationPort rule)) Hnone Hp) as [Hs Hl].
    split_and!.
    + apply sublist_app; [done|]. by apply sublist_app.
    + rewrite !length_app. cbv zeta in Hl. rewrite Hl. lia.
    + intros c Hc. rewrite !ofCategory_app. do 2 f_equal.
      rewrite !(ofCategory_other c Insecure_Port); try done.
      * apply insecurePort_flat_map_category.
      * apply insecurePort_flat_map_category.
  - split_and!; [done|lia|done].
Qed.

(** X13. A port that is added to the policy, as the settings page adds it
    (enabled, not negative, not yet listed), only adds findings: the
    findings of the earlier analysis stay, in their order; one Insecure Port
    finding is added for every look-up of the port by an ALLOW rule; the
    findings of the other categories and the hygiene findings are the
    same. *)
Theorem new_port_only_adds_findings
    (rules : list FirewallRule.t) (portSettings : list InsecurePortSetting.t)
    (item : InsecurePortSetting.t) :
  ~ In (InsecurePortSetting.port item) (map InsecurePortSetting.port portSettings) ->
  InsecurePortSetting.enabled item = true ->
  0 <= InsecurePortSetting.port item ->
  let before := analyzeRules rules portSettings in
  let after := analyzeRules rules (portSettings ++ [item]) in
  sublist (AnalysisResults.findings before) (AnalysisResults.findings after)
  /\ List.length (AnalysisResults.findings after)
     = (List.length (AnalysisResults.findings before)
        + list_sum (map (portUses (InsecurePortSetting.port item)) rules))%nat
  /\ (forall c, c <> Insecure_Port ->
        ofCategory c (AnalysisResults.findings after)
        = ofCategory c (AnalysisResults.findings before))
  /\ AnalysisResults.hygiene after = AnalysisResults.hygiene before.
Proof.
  intros Hnew Hen Hp before after. unfold before, after.
  rewrite !analyzeRules_findings_flat_map, !analyzeRules_hygiene_walk.
  split_and!; [| | |done].
  - induction rules as [|r l IH]; cbn [flat_map]; [constructor|].
    apply sublist_app; [|done]. by apply scoringOf_grow.
  - induction rules as [|r l IH]; cbn [flat_map map]; [done|]. unfold list_sum; cbn [fold_right]; fold (list_sum (map (portUses (InsecurePortSetting.port item)) l)).
    rewrite !length_app, IH.
    destruct (scoringOf_grow portSettings item r Hnew Hen Hp) as (_ & -> & _). lia.
  - intros c Hc. induction rules as [|r l IH]; cbn [flat_map]; [done|].
    rewrite !ofCategory_app, IH. f_equal.
    by apply scoringOf_grow.
Qed.

Lemma new_port_only_adds_findings_witness :
  let rules := [sampleRule "1" "10.0.0.0/24" "10.0.1.5" "8081, 443" Protocol.TCP
                  Action.ALLOW true] in
  let item := InsecurePortSetting.mk 8081 "Alt HTTP" MEDIUM "User-defined custom risk"
                true in
  List.length (AnalysisResults.findings
                 (analyzeRules rules (DEFAULT_INSECURE_PORTS ++ [item])))
  = (List.length (AnalysisResults.findings (analyzeRules rules DEFAULT_INSECURE_PORTS))
     + list_sum (map (portUses 8081) rules))%nat.
Proof.
  intros rules item.
  apply (new_port_only_adds_findings rules DEFAULT_INSECURE_PORTS item).
  - intros Hin. apply (bool_decide_pack _) in Hin. by vm_compute in Hin.
  - reflexivity.
  - by vm_compute.
Defined.

(** ** The dashboard on the results of the engine *)

Lemma scoring_categories rules portSettings :
  Forall (fun f => AnalysisFinding.category f = Excessive_Exposure
                   \/ AnalysisFinding.category f = Subnet_Scope
                   \/ AnalysisFinding.category f = Insecure_Port)
         (AnalysisResults.findings (analyzeRules rules portSettings)).
Proof.
  rewrite analyzeRules_findings_flat_map. apply List.Forall_forall. intros f Hf.
  apply in_flat_map in Hf as (r & _ & Hf).
  destruct (scoring_finding_shape _ _ _ Hf) as (_ & _ & _ & [H|[H|H]]);
    destruct H as [H _]; tauto.
Qed.

Lemma three_categories_split (l : list AnalysisFinding.t) :
  Forall (fun f => AnalysisFinding.category f = Excessive_Exposure
                   \/ AnalysisFinding.category f = Subnet_Scope
                   \/ AnalysisFinding.category f = Insecure_Port) l ->
  List.filter (hasCategory Correlation_Error) l = []
  /\ List.filter (hasCategory Policy_Hygiene) l = []
  /\ JS.length (List.filter (hasCategory Subnet_Scope) l)
     + JS.length (List.filter (hasCategory Insecure_Port) l)
     + JS.length (List.filter (hasCategory Excessive_Exposure) l)
     = JS.length l.
Proof.
  unfold JS.length.
  induction 1 as [|f l Hf _ (IH1 & IH2 & IH3)]; cbn [List.filter List.length];
    [done|].
  assert (Hc : forall c, hasCategory c f
                         = bool_decide (AnalysisFinding.category f = c)) by done.
  rewrite !Hc.
  destruct Hf as [Hf|[Hf|Hf]]; rewrite Hf;
    repeat case_bool_decide; try congruence; cbn [List.length];
    split_and!; try done; lia.
Qed.

Lemma hasCategory_countWhere c (l : list AnalysisFinding.t) :
  JS.length (List.filter (hasCategory c) l)
  = countWhere (fun f => AnalysisFinding.category f = c) l.
Proof.
  unfold JS.length. induction l as [|f l IH]; [done|].
  cbn [List.filter countWhere]. rewrite <- IH. unfold hasCategory at 1.
  destruct (decide (AnalysisFinding.category f = c)) as [Hc|Hc].
  - rewrite bool_decide_eq_true_2 by done. cbn [List.length]. lia.
  - rewrite bool_decide_eq_false_2 by done. lia.
Qed.

(** X14. On the findings of an analysis the radar chart of the dashboard
    has two dead axes: 'Lateral Mov.' and 'Hygiene' are always 0, since the
    findings they count are kept in the hygiene array.  The other three
    axes account for every finding once: 'Broad Scope' shows ten times the
    number of Subnet Scope findings, 'Services' ten times the number of
    Insecure Port findings, and 'ANY/ANY' twenty times the number of
    Excessive Exposure findings. *)
Theorem radar_axes_of_an_analysis
    (rules : list FirewallRule.t) (portSettings : list InsecurePortSetting.t) :
  let findings := AnalysisResults.findings (analyzeRules rules portSettings) in
  let count c := countWhere (fun f => AnalysisFinding.category f = c) findings in
  Dashboard.outlookData findings
  = [ OutlookDatum.mk "Broad Scope" (count Subnet_Scope * 10) 100 Subnet_Scope;
      OutlookDatum.mk "Services" (count Insecure_Port * 10) 100 Insecure_Port;
      OutlookDatum.mk "Lateral Mov." 0 100 Correlation_Error;
      OutlookDatum.mk "ANY/ANY" (count Excessive_Exposure * 20) 100 Excessive_Exposure;
      OutlookDatum.mk "Hygiene" 0 100 Policy_Hygiene ]
  /\ count Correlation_Error = 0 /\ count Policy_Hygiene = 0
  /\ count Subnet_Scope + count Insecure_Port + count Excessive_Exposure
     = JS.length findings.
Proof.
  intros findings count.
  destruct (three_categories_split findings (scoring_categories rules portSettings))
    as (Hce & Hph & Hsum).
  unfold count. rewrite <- !hasCategory_countWhere.
  unfold Dashboard.outlookData. rewrite Hce, Hph.
  split_and!; done.
Qed.

Lemma filter_flat_map {A B} (p : B -> bool) (g : A -> list B) (l : list A) :
  List.filter p (flat_map g l) = flat_map (fun x => List.filter p (g x)) l.
Proof.
  induction l as [|x l IH]; cbn [flat_map]; [done|].
  by rewrite List.filter_app, IH.
Qed.

Lemma length_flat_map_flags {A B} (b : A -> bool) (g : A -> list B) (l : list A) :
  (forall x, List.length (g x) = if b x then 1%nat else 0%nat) ->
  JS.length (flat_map g l) = JS.length (List.filter b l).
Proof.
  intros Hg. unfold JS.length. f_equal.
  induction l as [|x l IH]; cbn [flat_map List.filter]; [done|].
  rewrite length_app, Hg, IH. by destruct (b x).
Qed.

Lemma anyFindings_of_analysis rules portSettings :
  Dashboard.anyFindings (AnalysisResults.findings (analyzeRules rules portSettings))
  = flat_map exposureOf rules.
Proof.
  rewrite analyzeRules_findings_flat_map. unfold Dashboard.anyFindings.
  rewrite filter_flat_map. apply flat_map_ext. intros r.
  apply (exposure_segment [r] portSettings 0 r).
Qed.

Lemma exposureOf_length rule :
  List.length (exposureOf rule) = if isExposed rule then 1%nat else 0%nat.
Proof.
  unfold exposureOf, isExposed, exposureStep.
  by destruct (isAllow rule), (anySource rule), (anyDest rule), (anyProto rule),
    (hasAnyPort rule).
Qed.

Lemma exposureOf_mentions rule :
  List.length (List.filter (Dashboard.mentions "source") (exposureOf rule))
  = (if sourceSlice rule then 1%nat else 0%nat)
  /\ List.length (List.filter (Dashboard.mentions "destination") (exposureOf rule))
     = (if destSlice rule then 1%nat else 0%nat)
  /\ List.length (List.filter (Dashboard.mentions "protocol") (exposureOf rule))
     = (if serviceSlice rule then 1%nat else 0%nat)
  /\ List.length (List.filter (Dashboard.mentions "port") (exposureOf rule))
     = (if serviceSlice rule then 1%nat else 0%nat).
Proof.
  unfold exposureOf, sourceSlice, destSlice, serviceSlice, exposureStep.
  destruct (isAllow rule), (anySource rule), (anyDest rule), (anyProto rule),
    (hasAnyPort rule); by vm_compute.
Qed.

(** X15. The trends of the first cards.  The 'Policy Risk Score' card
    reads STABLE exactly when the analysis has no scoring finding: a single
    finding lifts the average to 60 or more, hence to ELEVATED or CRITICAL.
    The 'ANY Exposure' card reads SAFE exactly when no ALLOW rule has a
    wildcard source, destination, protocol or port. *)
Theorem dashboard_trends
    (rules : list FirewallRule.t) (portSettings : list InsecurePortSetting.t) :
  let out := analyzeRules rules portSettings in
  (Dashboard.riskTrend (AnalysisResults.summary out) = "STABLE"
   <-> AnalysisResults.findings out = [])
  /\ (Dashboard.anyTrend (AnalysisResults.findings out) = "SAFE"
      <-> Forall (fun r => isExposed r = false) rules).
Proof.
  intros out. split.
  - unfold Dashboard.riskTrend. split.
    + intros Ht. destruct (AnalysisResults.findings out) eqn:E; [done|].
      assert (Hne : AnalysisResults.findings out <> []) by congruence.
      pose proof (averageRiskScore_of_analysis rules portSettings Hne) as Havg.
      fold out in Havg.
      destruct (Z.ltb_spec 70 (Summary.averageRiskScore (AnalysisResults.summary out)));
        [done|].
      destruct (Z.ltb_spec 40 (Summary.averageRiskScore (AnalysisResults.summary out)));
        [done|lia].
    + intros He. unfold out. by rewrite averageRiskScore_of_none.
  - unfold Dashboard.anyTrend, out. rewrite anyFindings_of_analysis.
    rewrite (length_flat_map_flags isExposed) by apply exposureOf_length.
    unfold JS.length. induction rules as [|r l IH]; cbn [List.filter].
    + split; [constructor|done].
    + destruct (isExposed r) eqn:Hr.
      * cbn [List.length]. split.
        -- destruct (Z.ltb_spec 0 (Z.of_nat (S (List.length (List.filter isExposed l)))));
             [done|lia].
        -- intros H. apply Forall_cons in H as [H _]. congruence.
      * rewrite IH. split; [by constructor|].
        intros H. by apply Forall_cons in H as [_ H].
Qed.

(** X16. The slices of the 'ANY' pie are cut by words of the explanation
    text.  On the findings of an analysis 'Source ANY' counts every ALLOW
    rule with a wildcard source; 'Dest ANY' counts the ALLOW rules with a
    wildcard destination except those whose source is a wildcard while
    their ports are not; 'Proto ANY' and 'Port ANY' are always the same
    number: the ALLOW rules with a specific source and destination and a
    wildcard protocol or port.  A slice of value 0 is left out. *)
Theorem any_exposure_slices
    (rules : list FirewallRule.t) (portSettings : list InsecurePortSetting.t) :
  Dashboard.anyStats (AnalysisResults.findings (analyzeRules rules portSettings))
  = List.filter (fun d => 0 <? AnyStat.value d)
      [ AnyStat.mk "Source ANY" (JS.length (List.filter sourceSlice rules))
          "#ef4444" "source";
        AnyStat.mk "Dest ANY" (JS.length (List.filter destSlice rules))
          "#f87171" "destination";
        AnyStat.mk "Proto ANY" (JS.length (List.filter serviceSlice rules))
          "#dc2626" "protocol";
        AnyStat.mk "Port ANY" (JS.length (List.filter serviceSlice rules))
          "#991b1b" "port" ].
Proof.
  unfold Dashboard.anyStats. cbv zeta. rewrite anyFindings_of_analysis.
  rewrite !filter_flat_map.
  rewrite (length_flat_map_flags sourceSlice) by (intros r; apply exposureOf_mentions).
  rewrite (length_flat_map_flags destSlice) by (intros r; apply exposureOf_mentions).
  rewrite (length_flat_map_flags serviceSlice
             (fun r => List.filter (Dashboard.mentions "protocol") (exposureOf r)))
    by (intros r; apply exposureOf_mentions).
  rewrite (length_flat_map_flags serviceSlice
             (fun r => List.filter (Dashboard.mentions "port") (exposureOf r)))
    by (intros r; apply exposureOf_mentions).
  done.
Qed.

(** ** The counters of the hygiene page *)

Lemma startsWith_before_separator a sep b p :
  JS.includes sep p = false ->
  JSText.startsWith (a +:+ String sep b) p = JSText.startsWith a p.
Proof.
  revert p. induction a as [|x a IH]; intros [|c p]; try done.
  - cbn [JS.includes]. intros [Hc _]%orb_false_iff.
    change (EmptyString +:+ String sep b) with (String sep b).
    cbn [JSText.startsWith]. rewrite Ascii.eqb_sym in Hc. by rewrite Hc.
  - cbn [JS.includes]. intros [_ Hp]%orb_false_iff.
    change (String x a +:+ String sep b) with (String x (a +:+ String sep b)).
    cbn [JSText.startsWith]. by rewrite IH.
Qed.

(** A search text without the character [sep] is found in a text cut by
    [sep] exactly when it is found in one of the two pieces. *)
Lemma includes_around_separator a sep b p :
  JS.includes sep p = false -> p <> EmptyString ->
  JSText.includes (a +:+ String sep b) p
  = JSText.includes a p || JSText.includes b p.
Proof.
  intros Hsep Hp. induction a as [|x a IH].
  - destruct p as [|c p]; [done|]. cbn [JS.includes] in Hsep.
    apply orb_false_iff in Hsep as [Hc _]. rewrite Ascii.eqb_sym in Hc.
    change (EmptyString +:+ String sep b) with (String sep b).
    cbn [JSText.includes JSText.startsWith JS.isEmpty]. by rewrite Hc.
  - change (String x a +:+ String sep b) with (String x (a +:+ String sep b)).
    cbn [JSText.includes]. rewrite IH.
    change (String x (a +:+ String sep b)) with (String x a +:+ String sep b).
    rewrite startsWith_before_separator by done.
    by rewrite orb_assoc.
Qed.

(** The rule id is set off from the fixed text by a blank and a full
    stop. *)
Lemma includes_text_with_id kb id p :
  JS.includes " " p = false -> JS.includes "." p = false -> p <> EmptyString ->
  JSText.includes (kb +:+ String " " (id +:+ ".")) p
  = JSText.includes kb p || JSText.includes id p.
Proof.
  intros Hb Hs Hp. rewrite includes_around_separator by done.
  rewrite (includes_around_separator id "." EmptyString) by done.
  destruct p; [done|]. cbn [JSText.includes JS.isEmpty]. by rewrite orb_false_r.
Qed.

Lemma shadowingFinding_words rule prev p :
  JS.includes " " p = false -> JS.includes "." p = false -> p <> EmptyString ->
  JSText.includes (AnalysisFinding.explanation (shadowingFinding rule prev)) p
  = JSText.includes
      (KBEntry.explanation SECURITY_KNOWLEDGE_BASE.HYGIENE.SHADOWING
       +:+ " This specific rule is eclipsed by Rule ID:") p
    || JSText.includes (FirewallRule.id prev) p.
Proof. intros. by rewrite <- includes_text_with_id. Qed.

Lemma conflictFinding_words rule prev p :
  JS.includes " " p = false -> JS.includes "." p = false -> p <> EmptyString ->
  JSText.includes (AnalysisFinding.explanation (conflictFinding rule prev)) p
  = JSText.includes
      (KBEntry.explanation SECURITY_KNOWLEDGE_BASE.HYGIENE.CONFLICT
       +:+ " A direct action conflict exists with Rule ID:") p
    || JSText.includes (FirewallRule.id prev) p.
Proof. intros. by rewrite <- includes_text_with_id. Qed.

Lemma find_In {A} (p : A -> bool) (l : list A) x : find p l = Some x -> In x l.
Proof. intros H. by apply find_some in H as [H _]. Qed.

(** Every hygiene finding of an analysis is one of the three kinds, with the
    rule it names taken from the list. *)
Lemma hygiene_kinds rules portSettings :
  Forall (fun h =>
            exists rule,
              (exists prev, In prev rules /\ h = shadowingFinding rule prev)
              \/ (exists prev, In prev rules /\ h = conflictFinding rule prev)
              \/ h = latentRiskFinding rule)
         (AnalysisResults.hygiene (analyzeRules rules portSettings)).
Proof.
  rewrite analyzeRules_hygiene_walk. apply List.Forall_forall. intros h Hh.
  apply hygieneWalk_in in Hh as (k & rule & Hk & Hh). cbn [app] in Hh.
  exists rule. rewrite hygieneAfter_unfold in Hh.
  assert (Hsub : forall x, In x (take k rules) -> In x rules).
  { intros x Hx. rewrite <- (take_drop k rules). apply in_or_app. by left. }
  apply in_app_or in Hh as [Hh|Hh]; [|apply in_app_or in Hh as [Hh|Hh]].
  - destruct (find (shadows rule) (take k rules)) as [prev|] eqn:Hf; [|done].
    destruct (FirewallRule.enabled rule); [|done]. destruct Hh as [<-|[]].
    left. exists prev. split; [|done]. by apply Hsub, (find_In _ _ _ Hf).
  - destruct (find (conflicts rule) (take k rules)) as [prev|] eqn:Hf; [|done].
    destruct (FirewallRule.enabled rule); [|done]. destruct Hh as [<-|[]].
    right; left. exists prev. split; [|done]. by apply Hsub, (find_In _ _ _ Hf).
  - destruct (negb _ && _); [|done]. destruct (_ || _); [|done].
    destruct Hh as [<-|[]]. by right; right.
Qed.

Lemma hygiene_counters_sum (l : list AnalysisFinding.t) :
  Forall (fun h =>
            JSText.includes (AnalysisFinding.explanation h) "Shadowed" = isShadowing h
            /\ JSText.includes (AnalysisFinding.explanation h) "Disabled"
               = isLatentRisk h
            /\ (if isShadowing h then 1 else 0)
               + (if hasCategory Correlation_Error h then 1 else 0)
               + (if isLatentRisk h then 1 else 0) = 1) l ->
  HygieneTab.shadowedRules l = JS.length (List.filter isShadowing l)
  /\ HygieneTab.latentRisk l = JS.length (List.filter isLatentRisk l)
  /\ HygieneTab.shadowedRules l + HygieneTab.logicConflicts l + HygieneTab.latentRisk l
     = JS.length l.
Proof.
  unfold HygieneTab.shadowedRules, HygieneTab.logicConflicts, HygieneTab.latentRisk,
    JS.length.
  induction 1 as [|h l (Hs & Hd & Hone) _ (IH1 & IH2 & IH3)];
    cbn [List.filter List.length]; [done|].
  rewrite Hs, Hd.
  destruct (isShadowing h), (hasCategory Correlation_Error h), (isLatentRisk h);
    cbn [List.length]; split_and!; lia.
Qed.

(** X17. If no rule id contains the words "Shadowed" or "Disabled", the
    three counters of the hygiene page split the hygiene findings of an
    analysis: 'Shadowed Rules' counts the shadowing findings, 'Latent Risk'
    the latent risk findings, 'Logic Conflicts' the conflicts, and the
    three add up to the number of hygiene findings.  The first and the last
    counter search the explanation text, which quotes a rule id. *)
Theorem hygiene_counters
    (rules : list FirewallRule.t) (portSettings : list InsecurePortSetting.t) :
  Forall (fun r => JSText.includes (FirewallRule.id r) "Shadowed" = false
                   /\ JSText.includes (FirewallRule.id r) "Disabled" = false) rules ->
  let hygiene := AnalysisResults.hygiene (analyzeRules rules portSettings) in
  HygieneTab.shadowedRules hygiene = JS.length (List.filter isShadowing hygiene)
  /\ HygieneTab.latentRisk hygiene = JS.length (List.filter isLatentRisk hygiene)
  /\ HygieneTab.shadowedRules hygiene + HygieneTab.logicConflicts hygiene
     + HygieneTab.latentRisk hygiene
     = JS.length hygiene.
Proof.
  intros Hids hygiene. apply hygiene_counters_sum.
  pose proof (hygiene_kinds rules portSettings) as Hk. fold hygiene in Hk.
  rewrite List.Forall_forall in Hids.
  eapply Forall_impl; [exact Hk|]. intros h (rule & [H|[H|H]]).
  - destruct H as (prev & Hin & ->). destruct (Hids prev Hin) as [Hs Hd].
    rewrite !shadowingFinding_words, Hs, Hd by done. by vm_compute.
  - destruct H as (prev & Hin & ->). destruct (Hids prev Hin) as [Hs Hd].
    rewrite !conflictFinding_words, Hs, Hd by done. by vm_compute.
  - subst h. by vm_compute.
Qed.

Lemma hygiene_counters_witness :
  let hygiene :=
    AnalysisResults.hygiene
      (analyzeRules [broadRule; narrowRule; conflictRuleA; conflictRuleB] []) in
  HygieneTab.shadowedRules hygiene + HygieneTab.logicConflicts hygiene
  + HygieneTab.latentRisk hygiene
  = JS.length hygiene.
Proof.
  apply (hygiene_counters [broadRule; narrowRule; conflictRuleA; conflictRuleB] []).
  repeat constructor.
Defined.

(** ** The findings page *)

Lemma insertSorted_perm {A} (cmp : A -> A -> Z) x l :
  Permutation (JSText.insertSorted cmp x l) (x :: l).
Proof.
  induction l as [|y l IH]; cbn [JSText.insertSorted]; [done|].
  destruct (cmp x y <=? 0); [done|].
  rewrite IH. apply perm_swap.
Qed.

Lemma sort_perm {A} (cmp : A -> A -> Z) l : Permutation (JSText.sort cmp l) l.
Proof.
  induction l as [|x l IH]; cbn [JSText.sort fold_right]; [done|].
  fold (JSText.sort cmp l). rewrite insertSorted_perm. by constructor.
Qed.

Lemma sort_length {A} (cmp : A -> A -> Z) l :
  List.length (JSText.sort cmp l) = List.length l.
Proof. apply Permutation_length, sort_perm. Qed.

Lemma insertSorted_descending x l :
  descending l ->
  descending
    (JSText.insertSorted
       (fun a b => AnalysisFinding.score b - AnalysisFinding.score a) x l).
Proof.
  induction l as [|y l IH]; cbn [JSText.insertSorted descending].
  - by split.
  - intros [Hy Hl].
    destruct (Z.leb_spec (AnalysisFinding.score y - AnalysisFinding.score x) 0) as [Hle|Hgt].
    + cbn [descending]. split_and!; try done. constructor; [lia|].
      eapply Forall_impl; [exact Hy|]. cbn. intros; lia.
    + cbn [descending]. split; [|by apply IH].
      rewrite (insertSorted_perm _ x l). constructor; [lia|done].
Qed.

Lemma sort_descending l :
  descending
    (JSText.sort (fun a b => AnalysisFinding.score b - AnalysisFinding.score a) l).
Proof.
  induction l as [|x l IH]; cbn [JSText.sort fold_right]; [done|].
  by apply insertSorted_descending.
Qed.

Lemma insertSorted_withScore n x l :
  withScore n
    (JSText.insertSorted
       (fun a b => AnalysisFinding.score b - AnalysisFinding.score a) x l)
  = withScore n (x :: l).
Proof.
  unfold withScore.
  induction l as [|y l IH]; cbn [JSText.insertSorted]; [done|].
  destruct (Z.leb_spec (AnalysisFinding.score y - AnalysisFinding.score x) 0) as [Hle|Hgt];
    [done|].
  cbn [List.filter] in IH |- *. rewrite IH.
  destruct (Z.eqb_spec (AnalysisFinding.score x) n),
           (Z.eqb_spec (AnalysisFinding.score y) n); try done. lia.
Qed.

Lemma sort_withScore n l :
  withScore n
    (JSText.sort (fun a b => AnalysisFinding.score b - AnalysisFinding.score a) l)
  = withScore n l.
Proof.
  induction l as [|x l IH]; cbn [JSText.sort fold_right]; [done|].
  rewrite insertSorted_withScore. unfold withScore in *. cbn [List.filter].
  fold (JSText.sort (fun a b => AnalysisFinding.score b - AnalysisFinding.score a) l).
  by rewrite IH.
Qed.

(** X18. The findings page lists exactly the findings that pass the
    filter, each as often as it occurs, with the scores never going up, and
    findings of equal score in the order of the analysis.  Without a quick
    search text and without clauses every finding is listed. *)
Theorem findings_page_order
    (rules : list FirewallRule.t) (filters : FilterState.t)
    (findings : list AnalysisFinding.t) :
  let shown := FindingsList.filtered rules filters findings in
  Permutation shown (List.filter (FindingsList.keeps rules filters) findings)
  /\ descending shown
  /\ (forall n, withScore n shown
                = withScore n (List.filter (FindingsList.keeps rules filters) findings))
  /\ (FilterState.quickSearch filters = EmptyString ->
      FilterState.clauses filters = [] ->
      Permutation shown findings).
Proof.
  intros shown. unfold shown, FindingsList.filtered. split_and!.
  - apply sort_perm.
  - apply sort_descending.
  - intros n. apply sort_withScore.
  - intros Hq Hc. rewrite sort_perm.
    rewrite filter_all; [done|]. apply List.Forall_forall. intros f _.
    unfold FindingsList.keeps, FindingsList.quickSearchMatch. by rewrite Hq, Hc.
Qed.

Lemma findings_page_order_witness :
  let findings :=
    AnalysisResults.findings (analyzeRules [narrowRule; broadRule] DEFAULT_INSECURE_PORTS) in
  Permutation
    (FindingsList.filtered [narrowRule; broadRule]
       (FilterState.mk [] EmptyString) findings)
    findings.
Proof.
  intros findings.
  by apply (findings_page_order [narrowRule; broadRule] (FilterState.mk [] EmptyString)
              findings).
Defined.

(** ** From the dashboard to the findings page *)

Lemma severity_clause rules f id k lo :
  FindingsList.evaluateClause rules f
    {| FilterClause.id := id;
       FilterClause.field := FilterField.severity;
       FilterClause.operator := FilterOperator.EQUALS;
       FilterClause.value := severityText k;
       FilterClause.logicalOperator := lo |}
  = hasSeverity k f.
Proof.
  unfold FindingsList.evaluateClause, hasSeverity.
  cbn [FilterClause.field FilterClause.operator FilterClause.value].
  destruct (AnalysisFinding.severity f), k; by vm_compute.
Qed.

Lemma category_clause rules f id c lo :
  FindingsList.evaluateClause rules f
    {| FilterClause.id := id;
       FilterClause.field := FilterField.category;
       FilterClause.operator := FilterOperator.EQUALS;
       FilterClause.value := categoryText c;
       FilterClause.logicalOperator := lo |}
  = hasCategory c f.
Proof.
  unfold FindingsList.evaluateClause, hasCategory.
  cbn [FilterClause.field FilterClause.operator FilterClause.value].
  destruct (AnalysisFinding.category f), c; by vm_compute.
Qed.

(** A page opened with one clause and no quick search text shows as many
    findings as pass the clause. *)
Lemma findingsPage_one_clause out tab clause :
  JS.length (findingsPage out (tab, [clause]))
  = JS.length
      (List.filter (fun f => FindingsList.evaluateClause (AnalysisResults.rules out)
                               f clause)
                   (AnalysisResults.findings out)).
Proof.
  unfold findingsPage, FindingsList.filtered, JS.length. by rewrite sort_length.
Qed.

(** X19. The numbers of the dashboard agree with the findings page they
    link to.  The page that the 'Critical Blocks' card opens lists as many
    findings as the card shows; the page behind a bar of the severity chart
    lists as many findings as the bar is high; and the page behind an axis
    of the radar chart lists the findings the axis counts, ten a piece and
    twenty for 'ANY/ANY'. *)
Theorem dashboard_numbers_match_findings_page
    (rules : list FirewallRule.t) (portSettings : list InsecurePortSetting.t) :
  let out := analyzeRules rules portSettings in
  JS.length (findingsPage out Dashboard.criticalBlocksClick)
  = Summary.criticalFindings (AnalysisResults.summary out)
  /\ (forall d, In d (Dashboard.severityData (AnalysisResults.summary out)) ->
        JS.length (findingsPage out (Dashboard.handleSeverityBarClick d))
        = SeverityDatum.value d)
  /\ (forall d, In d (Dashboard.outlookData (AnalysisResults.findings out)) ->
        JS.length (findingsPage out (Dashboard.handleRadarClick d))
        * (if decide (OutlookDatum.category d = Excessive_Exposure) then 20 else 10)
        = OutlookDatum.A d).
Proof.
  intros out. split_and!.
  - unfold Dashboard.criticalBlocksClick. rewrite findingsPage_one_clause.
    rewrite (filter_ext _ (hasSeverity CRITICAL))
      by (intros f; apply (severity_clause _ f _ CRITICAL)).
    done.
  - intros d Hd. unfold Dashboard.handleSeverityBarClick.
    rewrite findingsPage_one_clause.
    rewrite (filter_ext _ (hasSeverity (SeverityDatum.key d)))
      by (intros f; apply severity_clause).
    unfold Dashboard.severityData in Hd. apply List.filter_In in Hd as [Hd _].
    cbn [In] in Hd. destruct Hd as [<-|[<-|[<-|[<-|[]]]]]; done.
  - intros d Hd. unfold Dashboard.handleRadarClick.
    rewrite findingsPage_one_clause.
    rewrite (filter_ext _ (hasCategory (OutlookDatum.category d)))
      by (intros f; apply category_clause).
    unfold Dashboard.outlookData in Hd. cbn [In] in Hd.
    destruct Hd as [<-|[<-|[<-|[<-|[<-|[]]]]]]; done.
Qed.

(** ** The clauses of a filter *)

Lemma allDigits_toLowerCase t : allDigits t = true -> JS.toLowerCase t = t.
Proof.
  induction t as [|c t IH]; cbn [allDigits JS.toLowerCase]; [done|].
  destruct (JS.digitValue c) eqn:Hc; [|done]. intros Ht. rewrite (IH Ht). f_equal.
  destruct c as [[|] [|] [|] [|] [|] [|] [|] [|]]; try discriminate Hc; done.
Qed.

Lemma allDigits_keepDigits t : allDigits t = true -> JSLib.keepDigits t = t.
Proof.
  induction t as [|c t IH]; cbn [allDigits JSLib.keepDigits]; [done|].
  destruct (JS.digitValue c); [|done]. intros Ht. by rewrite (IH Ht).
Qed.

Lemma allDigits_splitClass t :
  allDigits t = true -> JSText.splitClass JSText.isCommaOrDash t = [t].
Proof.
  induction t as [|c t IH]; cbn [allDigits JSText.splitClass]; [done|].
  destruct (JS.digitValue c) eqn:Hc; [|done]. intros Ht. rewrite (IH Ht).
  destruct c as [[|] [|] [|] [|] [|] [|] [|] [|]]; try discriminate Hc; done.
Qed.

Lemma splitClass_first_piece d sep t :
  allDigits d = true -> JSText.isCommaOrDash sep = true ->
  hd EmptyString (JSText.splitClass JSText.isCommaOrDash (d +:+ String sep t)) = d.
Proof.
  intros Hd Hsep. induction d as [|c d IH].
  - change (EmptyString +:+ String sep t) with (String sep t).
    cbn [JSText.splitClass]. by rewrite Hsep.
  - change (String c d +:+ String sep t) with (String c (d +:+ String sep t)).
    cbn [allDigits] in Hd. destruct (JS.digitValue c) eqn:Hc; [|done].
    cbn [JSText.splitClass].
    assert (Hno : JSText.isCommaOrDash c = false)
      by (destruct c as [[|] [|] [|] [|] [|] [|] [|] [|]]; try discriminate Hc; done).
    rewrite Hno. specialize (IH Hd).
    destruct (JSText.splitClass JSText.isCommaOrDash (d +:+ String sep t)); cbn in *;
      by subst.
Qed.

(** X20. On the port field the two order operators compare numbers, not
    text: the number of the clause with the first number of the rule's port
    text, the one in front of the first comma or dash.  For a rule with the
    ports "443" or "443-445" the clause 'greater than 80' holds, although
    the text "443" sorts before "80". *)
Theorem port_clauses_compare_numbers
    (rules : list FirewallRule.t) (f : AnalysisFinding.t) (r : FirewallRule.t)
    (n m : Z) (tail : string) (id : string) (lo : LogicalOperator.t) :
  find (fun x => String.eqb (FirewallRule.id x) (AnalysisFinding.ruleId f)) rules
  = Some r ->
  0 <= n -> 0 <= m ->
  FirewallRule.destinationPort r = JS.toString n +:+ tail ->
  tail = EmptyString
  \/ (exists t, tail = String "," t) \/ (exists t, tail = String "-" t) ->
  let clause op :=
    {| FilterClause.id := id;
       FilterClause.field := FilterField.destinationPort;
       FilterClause.operator := op;
       FilterClause.value := JS.toString m;
       FilterClause.logicalOperator := lo |} in
  FindingsList.evaluateClause rules f (clause FilterOperator.GREATER_THAN)
  = (m <? n)
  /\ FindingsList.evaluateClause rules f (clause FilterOperator.LESS_THAN)
     = (n <? m).
Proof.
  intros Hfind Hn Hm Hport Htail clause.
  destruct (allDigits_toString n Hn) as [Hdn Hnn].
  destruct (allDigits_toString m Hm) as [Hdm Hnm].
  assert (Hfirst :
            hd EmptyString
               (JSText.splitClass JSText.isCommaOrDash (JS.toString n +:+ tail))
            = JS.toString n).
  { destruct Htail as [->|[[t ->]|[t ->]]].
    - assert (Happ : forall s : string, s +:+ EmptyString = s).
      { induction s as [|c s IH]; [done|].
        change (String c s +:+ EmptyString) with (String c (s +:+ EmptyString)).
        by rewrite IH. }
      by rewrite Happ, allDigits_splitClass.
    - by apply splitClass_first_piece.
    - by apply splitClass_first_piece. }
  unfold FindingsList.evaluateClause, clause.
  cbn [FilterClause.field FilterClause.operator FilterClause.value].
  rewrite Hfind, Hport, Hfirst, (allDigits_toLowerCase _ Hdm).
  rewrite (allDigits_keepDigits _ Hdn), !parseInt_toString.
  done.
Qed.

Lemma port_clauses_compare_numbers_witness :
  let rule := sampleRule "7" "10.0.0.0/24" "10.0.1.5" "443-445" Protocol.TCP
                Action.ALLOW true in
  let f := AnalysisFinding.mk "7" "Rule 7" Subnet_Scope 60 HIGH EmptyString EmptyString in
  FindingsList.evaluateClause [rule] f
    {| FilterClause.id := "c";
       FilterClause.field := FilterField.destinationPort;
       FilterClause.operator := FilterOperator.GREATER_THAN;
       FilterClause.value := "80";
       FilterClause.logicalOperator := LogicalOperator.AND |}
  = true.
Proof.
  intros rule f.
  apply (port_clauses_compare_numbers [rule] f rule 443 80 "-445" "c"
           LogicalOperator.AND); [reflexivity|lia|lia|reflexivity|].
  right; right. by exists "445".
Defined.

Lemma combine_all_and rules f rest acc :
  Forall (fun c => FilterClause.logicalOperator c = LogicalOperator.AND) rest ->
  fold_left (FindingsList.combine rules f) rest acc
  = acc && forallb (FindingsList.evaluateClause rules f) rest.
Proof.
  intros H. revert acc. induction H as [|c rest Hc _ IH]; intros acc;
    cbn [fold_left forallb].
  - by rewrite andb_true_r.
  - rewrite IH. unfold FindingsList.combine. rewrite Hc. by rewrite andb_assoc.
Qed.

Lemma combine_all_or rules f rest acc :
  Forall (fun c => FilterClause.logicalOperator c = LogicalOperator.OR) rest ->
  fold_left (FindingsList.combine rules f) rest acc
  = acc || existsb (FindingsList.evaluateClause rules f) rest.
Proof.
  intros H. revert acc. induction H as [|c rest Hc _ IH]; intros acc;
    cbn [fold_left existsb].
  - by rewrite orb_false_r.
  - rewrite IH. unfold FindingsList.combine. rewrite Hc. by rewrite orb_assoc.
Qed.

(** X21. The clauses of a filter are combined strictly from left to
    right, without precedence between AND and OR: a clause added at the end
    is joined to the result of all the clauses before it by its own
    operator, so that 'A, OR B, AND C' means '(A or B) and C'.  The operator
    of the first clause is never read.  With AND on every further clause a
    finding is kept when all clauses hold, with OR when one of them does.
    (Stated for a finding that the quick search lets through.) *)
Theorem clauses_combine_left_to_right
    (rules : list FirewallRule.t) (quick : string) (f : AnalysisFinding.t)
    (first : FilterClause.t) (rest : list FilterClause.t) :
  FindingsList.quickSearchMatch (FilterState.mk [] quick) f = true ->
  let keeps cs := FindingsList.keeps rules (FilterState.mk cs quick) f in
  let holds c := FindingsList.evaluateClause rules f c in
  (forall c,
     keeps ((first :: rest) ++ [c])
     = match FilterClause.logicalOperator c with
       | LogicalOperator.AND => keeps (first :: rest) && holds c
       | LogicalOperator.OR => keeps (first :: rest) || holds c
       end)
  /\ (forall lo,
        keeps ({| FilterClause.id := FilterClause.id first;
                  FilterClause.field := FilterClause.field first;
                  FilterClause.operator := FilterClause.operator first;
                  FilterClause.value := FilterClause.value first;
                  FilterClause.logicalOperator := lo |} :: rest)
        = keeps (first :: rest))
  /\ (Forall (fun c => FilterClause.logicalOperator c = LogicalOperator.AND) rest ->
      keeps (first :: rest) = forallb holds (first :: rest))
  /\ (Forall (fun c => FilterClause.logicalOperator c = LogicalOperator.OR) rest ->
      keeps (first :: rest) = existsb holds (first :: rest)).
Proof.
  intros Hq keeps holds.
  assert (Hkeeps : forall c0 cs,
            keeps (c0 :: cs)
            = fold_left (FindingsList.combine rules f) cs (holds c0)).
  { intros c0 cs. unfold keeps, FindingsList.keeps.
    change (FindingsList.quickSearchMatch (FilterState.mk (c0 :: cs) quick) f)
      with (FindingsList.quickSearchMatch (FilterState.mk [] quick) f).
    by rewrite Hq. }
  split_and!.
  - intros c. change ((first :: rest) ++ [c]) with (first :: (rest ++ [c])).
    rewrite !Hkeeps, fold_left_app. done.
  - intros lo. by rewrite !Hkeeps.
  - intros Hand. rewrite Hkeeps. by apply combine_all_and.
  - intros Hor. rewrite Hkeeps. by apply combine_all_or.
Qed.

Lemma clauses_combine_left_to_right_witness :
  let f := AnalysisFinding.mk "7" "Rule 7" Subnet_Scope 60 HIGH EmptyString EmptyString in
  let a := FilterClause.mk "a" FilterField.severity FilterOperator.EQUALS "LOW"
             LogicalOperator.AND in
  let b := FilterClause.mk "b" FilterField.severity FilterOperator.EQUALS "HIGH"
             LogicalOperator.OR in
  let c := FilterClause.mk "c" FilterField.category FilterOperator.EQUALS "Insecure Port"
             LogicalOperator.AND in
  FindingsList.keeps [] (FilterState.mk [a; b; c] EmptyString) f
  = FindingsList.keeps [] (FilterState.mk [a; b] EmptyString) f
    && FindingsList.evaluateClause [] f c.
Proof.
  intros f a b c.
  destruct (clauses_combine_left_to_right [] EmptyString f a [b]) as [H _];
    [reflexivity|].
  apply (H c).
Defined.

(** ** The order of the rules, and the fields the engine does not read *)

Lemma summary_of_analysis rules portSettings :
  AnalysisResults.summary (analyzeRules rules portSettings)
  = {| Summary.totalRules := JS.length rules;
       Summary.enabledRules := JS.length (List.filter FirewallRule.enabled rules);
       Summary.criticalFindings :=
         countSeverity CRITICAL (AnalysisResults.findings (analyzeRules rules portSettings));
       Summary.highFindings :=
         countSeverity HIGH (AnalysisResults.findings (analyzeRules rules portSettings));
       Summary.mediumFindings :=
         countSeverity MEDIUM (AnalysisResults.findings (analyzeRules rules portSettings));
       Summary.lowFindings :=
         countSeverity LOW (AnalysisResults.findings (analyzeRules rules portSettings));
       Summary.averageRiskScore :=
         averageRiskScore (AnalysisResults.findings (analyzeRules rules portSettings)) |}.
Proof. reflexivity. Qed.

Lemma length_filter_perm {A} (p : A -> bool) (l l' : list A) :
  Permutation l l' -> JS.length (List.filter p l) = JS.length (List.filter p l').
Proof.
  unfold JS.length. intros H. f_equal.
  induction H as [|x l l' _ IH|x y l|l l' l'' _ IH1 _ IH2]; cbn [List.filter].
  - done.
  - destruct (p x); cbn [List.length]; by rewrite IH.
  - by destruct (p x), (p y).
  - by rewrite IH1.
Qed.

Lemma totalScore_perm l l' : Permutation l l' -> totalScore l = totalScore l'.
Proof.
  induction 1 as [|x l l' _ IH|x y l|l l' l'' _ IH1 _ IH2]; cbn [totalScore]; lia.
Qed.

Lemma averageRiskScore_perm l l' :
  Permutation l l' -> averageRiskScore l = averageRiskScore l'.
Proof.
  intros H. unfold averageRiskScore, JS.length.
  rewrite !reduce_totalScore, (totalScore_perm _ _ H), (Permutation_length H). done.
Qed.

(** X22. The order of the rules matters for the hygiene findings only.
    When the rules are put in another order, the scoring findings are the
    same up to their order, and the summary is the same in all its seven
    numbers. *)
Theorem rule_order_and_scoring
    (rules rules' : list FirewallRule.t) (portSettings : list InsecurePortSetting.t) :
  Permutation rules rules' ->
  Permutation (AnalysisResults.findings (analyzeRules rules portSettings))
              (AnalysisResults.findings (analyzeRules rules' portSettings))
  /\ AnalysisResults.summary (analyzeRules rules portSettings)
     = AnalysisResults.summary (analyzeRules rules' portSettings).
Proof.
  intros Hperm.
  assert (Hf : Permutation (AnalysisResults.findings (analyzeRules rules portSettings))
                 (AnalysisResults.findings (analyzeRules rules' portSettings))).
  { rewrite !analyzeRules_findings_flat_map. by apply Permutation_flat_map. }
  split; [done|]. rewrite !summary_of_analysis. unfold countSeverity.
  f_equal.
  - unfold JS.length. by rewrite (Permutation_length Hperm).
  - by apply length_filter_perm.
  - by apply length_filter_perm.
  - by apply length_filter_perm.
  - by apply length_filter_perm.
  - by apply length_filter_perm.
  - by apply averageRiskScore_perm.
Qed.

Lemma rule_order_and_scoring_witness :
  AnalysisResults.summary (analyzeRules [broadRule; narrowRule] DEFAULT_INSECURE_PORTS)
  = AnalysisResults.summary (analyzeRules [narrowRule; broadRule] DEFAULT_INSECURE_PORTS).
Proof.
  apply (rule_order_and_scoring [broadRule; narrowRule] [narrowRule; broadRule]).
  apply perm_swap.
Defined.

Lemma exposureStep_same r1 r2 b1 b2 b3 b4 b5 a :
  FirewallRule.id r1 = FirewallRule.id r2 ->
  FirewallRule.name r1 = FirewallRule.name r2 ->
  exposureStep r1 b1 b2 b3 b4 b5 a = exposureStep r2 b1 b2 b3 b4 b5 a.
Proof. intros Hid Hname. unfold exposureStep. by rewrite Hid, Hname. Qed.

Lemma subnetStep_same r1 r2 b n a :
  FirewallRule.id r1 = FirewallRule.id r2 ->
  FirewallRule.name r1 = FirewallRule.name r2 ->
  subnetStep r1 b n a = subnetStep r2 b n a.
Proof. intros Hid Hname. unfold subnetStep. by rewrite Hid, Hname. Qed.

Lemma insecurePortStep_same r1 r2 b ports active a :
  FirewallRule.id r1 = FirewallRule.id r2 ->
  FirewallRule.name r1 = FirewallRule.name r2 ->
  insecurePortStep r1 b ports active a = insecurePortStep r2 b ports active a.
Proof.
  intros Hid Hname. unfold insecurePortStep. destruct b; [|done].
  revert a. induction ports as [|p ports IH]; intros a; cbn [fold_left]; [done|].
  rewrite IH. f_equal. unfold insecurePortCallback. by rewrite Hid, Hname.
Qed.

Lemma scoringOf_same portSettings r1 r2 :
  sameForEngine r1 r2 -> scoringOf portSettings r1 = scoringOf portSettings r2.
Proof.
  intros (Hid & Hname & Hs & Hd & Hp & Hpr & Ha & He).
  unfold scoringOf. rewrite !pushedBy_findings. cbv zeta.
  rewrite Hs, Hd, Hp, Hpr, Ha.
  rewrite (exposureStep_same r1 r2), (subnetStep_same r1 r2),
    (insecurePortStep_same r1 r2); done.
Qed.

Lemma shadows_same r1 r2 p1 p2 :
  sameForEngine r1 r2 -> sameForEngine p1 p2 -> shadows r1 p1 = shadows r2 p2.
Proof.
  intros (_ & _ & Hs & Hd & Hp & Hpr & Ha & _) (_ & _ & Hs' & Hd' & Hp' & Hpr' & Ha' & He').
  unfold shadows. by rewrite Hs, Hd, Hp, Hpr, Ha, Hs', Hd', Hp', Hpr', Ha', He'.
Qed.

Lemma conflicts_same r1 r2 p1 p2 :
  sameForEngine r1 r2 -> sameForEngine p1 p2 -> conflicts r1 p1 = conflicts r2 p2.
Proof.
  intros (_ & _ & Hs & Hd & Hp & _ & Ha & _) (_ & _ & Hs' & Hd' & Hp' & _ & Ha' & He').
  unfold conflicts. by rewrite Hs, Hd, Hp, Ha, Hs', Hd', Hp', Ha', He'.
Qed.

Lemma find_same (p1 p2 : FirewallRule.t -> bool) l1 l2 :
  Forall2 sameForEngine l1 l2 ->
  (forall x y, sameForEngine x y -> p1 x = p2 y) ->
  match find p1 l1, find p2 l2 with
  | Some x, Some y => sameForEngine x y
  | None, None => True
  | _, _ => False
  end.
Proof.
  intros Hl Hp. induction Hl as [|x y l1 l2 Hxy _ IH]; cbn [find]; [done|].
  rewrite (Hp x y Hxy). by destruct (p2 y).
Qed.

Lemma hygieneAfter_same prefix1 prefix2 r1 r2 :
  Forall2 sameForEngine prefix1 prefix2 -> sameForEngine r1 r2 ->
  hygieneAfter prefix1 r1 = hygieneAfter prefix2 r2.
Proof.
  intros Hpre Hr. rewrite !hygieneAfter_unfold.
  pose proof (find_same (shadows r1) (shadows r2) _ _ Hpre
                (fun x y Hxy => shadows_same r1 r2 x y Hr Hxy)) as Hsh.
  pose proof (find_same (conflicts r1) (conflicts r2) _ _ Hpre
                (fun x y Hxy => conflicts_same r1 r2 x y Hr Hxy)) as Hco.
  destruct Hr as (Hid & Hname & Hs & Hd & Hp & Hpr & Ha & He).
  unfold anySource, hasAnyPort. rewrite Hs, Hp, Ha, He.
  f_equal; [|f_equal].
  - destruct (find (shadows r1) prefix1) as [x|], (find (shadows r2) prefix2) as [y|];
      try done.
    destruct Hsh as (Hxid & _). unfold shadowingFinding. by rewrite Hid, Hname, Hxid.
  - destruct (find (conflicts r1) prefix1) as [x|],
             (find (conflicts r2) prefix2) as [y|]; try done.
    destruct Hco as (Hxid & _). unfold conflictFinding. by rewrite Hid, Hname, Hxid.
  - unfold latentRiskFinding. by rewrite Hid, Hname.
Qed.

Lemma hygieneWalk_same prefix1 prefix2 l1 l2 :
  Forall2 sameForEngine prefix1 prefix2 -> Forall2 sameForEngine l1 l2 ->
  hygieneWalk prefix1 l1 = hygieneWalk prefix2 l2.
Proof.
  intros Hpre Hl. revert prefix1 prefix2 Hpre.
  induction Hl as [|x y l1 l2 Hxy _ IH]; intros prefix1 prefix2 Hpre;
    cbn [hygieneWalk]; [done|].
  rewrite (hygieneAfter_same prefix1 prefix2 x y) by done. f_equal.
  apply IH. apply Forall2_app; [done|]. by constructor.
Qed.

(** X23. The engine reads eight fields of a rule: id, name, source,
    destination, destination port, protocol, action and the enabled flag.
    Two rule lists that agree on these fields, rule by rule, get the same
    findings, the same hygiene findings and the same summary: source port,
    service, direction, zone and description have no influence on the
    analysis. *)
Theorem engine_ignores_unread_fields
    (rules1 rules2 : list FirewallRule.t) (portSettings : list InsecurePortSetting.t) :
  Forall2 sameForEngine rules1 rules2 ->
  let out1 := analyzeRules rules1 portSettings in
  let out2 := analyzeRules rules2 portSettings in
  AnalysisResults.findings out1 = AnalysisResults.findings out2
  /\ AnalysisResults.hygiene out1 = AnalysisResults.hygiene out2
  /\ AnalysisResults.summary out1 = AnalysisResults.summary out2.
Proof.
  intros Hsame out1 out2.
  assert (Hf : AnalysisResults.findings out1 = AnalysisResults.findings out2).
  { unfold out1, out2. rewrite !analyzeRules_findings_flat_map.
    induction Hsame as [|x y l1 l2 Hxy _ IH]; cbn [flat_map]; [done|].
    by rewrite (scoringOf_same _ x y Hxy), IH. }
  split_and!; [done| |].
  - unfold out1, out2. rewrite !analyzeRules_hygiene_walk.
    by apply hygieneWalk_same.
  - unfold out1, out2 in *. rewrite !summary_of_analysis, Hf. f_equal.
    + unfold JS.length. f_equal. by apply Forall2_length in Hsame.
    + unfold JS.length. f_equal. clear Hf out1 out2.
      induction Hsame as [|x y l1 l2 (_ & _ & _ & _ & _ & _ & _ & He) _ IH];
        cbn [List.filter]; [done|].
      rewrite He. destruct (FirewallRule.enabled y); cbn [List.length]; by rewrite IH.
Qed.

Lemma engine_ignores_unread_fields_witness :
  let other :=
    {| FirewallRule.id := FirewallRule.id broadRule;
       FirewallRule.name := FirewallRule.name broadRule;
       FirewallRule.source := FirewallRule.source broadRule;
       FirewallRule.destination := FirewallRule.destination broadRule;
       FirewallRule.sourcePort := "1024-65535";
       FirewallRule.destinationPort := FirewallRule.destinationPort broadRule;
       FirewallRule.service := "ssh";
       FirewallRule.protocol := FirewallRule.protocol broadRule;
       FirewallRule.action := FirewallRule.action broadRule;
       FirewallRule.direction := Direction.INBOUND;
       FirewallRule.zone := Some "DMZ";
       FirewallRule.enabled := FirewallRule.enabled broadRule;
       FirewallRule.description := Some "temporary";
       FirewallRule.originalRow := [("Zone", "DMZ")] |} in
  AnalysisResults.findings (analyzeRules [broadRule] DEFAULT_INSECURE_PORTS)
  = AnalysisResults.findings (analyzeRules [other] DEFAULT_INSECURE_PORTS).
Proof.
  intros other.
  apply (engine_ignores_unread_fields [broadRule] [other] DEFAULT_INSECURE_PORTS).
  repeat constructor.
Defined.

(** X24. The scoring sees a rule through the parsers only: its id, name
    and action, the scope of its source, the list of its parsed ports, and
    whether its destination is a wildcard and its protocol ANY.  Rules that
    agree on these get the same scoring findings, whatever their texts: the
    size of a destination network that is not a wildcard, and which
    protocol other than ANY a rule names, are never scored. *)
Theorem scoring_reads_rules_through_parsers
    (rules1 rules2 : list FirewallRule.t) (portSettings : list InsecurePortSetting.t) :
  Forall2 sameForScoring rules1 rules2 ->
  AnalysisResults.findings (analyzeRules rules1 portSettings)
  = AnalysisResults.findings (analyzeRules rules2 portSettings).
Proof.
  intros Hsame. rewrite !analyzeRules_findings_flat_map.
  induction Hsame as [|x y l1 l2 Hxy _ IH]; cbn [flat_map]; [done|].
  rewrite IH. f_equal.
  destruct Hxy as (Hid & Hname & Ha & Hs & Hd & Hpr & Hp).
  unfold scoringOf. rewrite !pushedBy_findings. cbv zeta.
  rewrite !anyDest_eqb. fold (anyProto x) (anyProto y).
  rewrite Hs, Hd, Hpr, Hp, Ha.
  rewrite (exposureStep_same x y), (subnetStep_same x y),
    (insecurePortStep_same x y); done.
Qed.

Lemma scoring_reads_rules_through_parsers_witness :
  AnalysisResults.findings
    (analyzeRules
       [sampleRule "1" "10.0.0.0/8" "192.168.0.0/8" "21, 80" Protocol.TCP
          Action.ALLOW true] DEFAULT_INSECURE_PORTS)
  = AnalysisResults.findings
      (analyzeRules
         [sampleRule "1" " 172.16.0.0/8" "192.168.1.7" "21 80" Protocol.UDP
            Action.ALLOW false] DEFAULT_INSECURE_PORTS).
Proof.
  apply scoring_reads_rules_through_parsers.
  constructor; [|constructor]. by vm_compute.
Defined.

(** ** The automatic column mapping *)

Lemma startsWith_spec s p :
  JSText.startsWith s p = true <-> exists post, s = p +:+ post.
Proof.
  revert s. induction p as [|c p IH]; intros s; cbn [JSText.startsWith].
  - split; [intros _; by exists s|intros _; by destruct s].
  - destruct s as [|d s]; cbn [JSText.startsWith].
    + split; [done|]. by intros (post & ?).
    + rewrite andb_true_iff, IH. split.
      * intros [Hc (post & ->)]. apply Ascii.eqb_eq in Hc as ->. by exists post.
      * intros (post & Hs).
        change (String c p +:+ post) with (String c (p +:+ post)) in Hs.
        injection Hs as -> ->. split; [apply Ascii.eqb_refl|by exists post].
Qed.

Lemma append_assoc (a b c : string) : (a +:+ b) +:+ c = a +:+ (b +:+ c).
Proof.
  induction a as [|x a IH]; [done|].
  change (String x a +:+ b) with (String x (a +:+ b)).
  change (String x (a +:+ b) +:+ c) with (String x ((a +:+ b) +:+ c)).
  by rewrite IH.
Qed.

(** [s.includes(p)] holds exactly when [p] is a piece of [s]. *)
Lemma includes_spec s p :
  JSText.includes s p = true <-> exists pre post, s = pre +:+ (p +:+ post).
Proof.
  induction s as [|c s IH]; cbn [JSText.includes].
  - split.
    + destruct p; [|done]. by exists EmptyString, EmptyString.
    + intros (pre & post & H). destruct pre; [|done]. by destruct p.
  - rewrite orb_true_iff, startsWith_spec, IH. split.
    + intros [(post & ->)|(pre & post & ->)].
      * by exists EmptyString, post.
      * by exists (String c pre), post.
    + intros ([|d pre] & post & H).
      * left. by exists post.
      * right. change (String d pre +:+ (p +:+ post))
                 with (String d (pre +:+ (p +:+ post))) in H.
        injection H as -> ->. by exists pre, post.
Qed.

Lemma includes_trans s a b :
  JSText.includes s a = true -> JSText.includes a b = true ->
  JSText.includes s b = true.
Proof.
  rewrite !includes_spec. intros (pre & post & ->) (pre' & post' & ->).
  exists (pre +:+ pre'), (post' +:+ post).
  by rewrite !append_assoc.
Qed.

(** A header that reads as a source port column reads as a destination
    port column as well. *)
Lemma source_port_header_is_port_header h :
  matchesSynonym (ColumnSynonyms.mk "sourcePort" ["source port"; "src port"; "sport"]) h
  = true ->
  matchesSynonym
    (ColumnSynonyms.mk "destinationPort"
       ["destination port"; "dest port"; "dport"; "service port"; "port"]) h
  = true.
Proof.
  unfold matchesSynonym. cbn [ColumnSynonyms.synonyms existsb].
  rewrite !orb_true_iff. intros [H|[H|[H|H]]]; try discriminate H;
    do 4 right; left; apply (includes_trans _ _ _ H); by vm_compute.
Qed.

Lemma find_weaker {A} (p q : A -> bool) (l : list A) x :
  (forall y, p y = true -> q y = true) ->
  find p l = Some x ->
  exists y i j,
    find q l = Some y /\ l !! i = Some y /\ l !! j = Some x /\ (i <= j)%nat.
Proof.
  intros Hpq. induction l as [|z l IH]; cbn [find]; [done|].
  destruct (p z) eqn:Hp.
  - intros [= ->]. rewrite (Hpq _ Hp). by exists x, 0%nat, 0%nat.
  - intros Hx. destruct (q z).
    + apply find_some in Hx as [Hin _].
      apply (proj2 (list_elem_of_In _ _)) in Hin.
      apply list_elem_of_lookup in Hin as [j Hj].
      exists z, 0%nat, (S j). split_and!; try done. lia.
    + destruct (IH Hx) as (y & i & j & Hy & Hi & Hj & Hij).
      exists y, (S i), (S j). split_and!; try done. lia.
Qed.

Lemma autoMapStep_lookup csvHeaders acc m field :
  autoMapStep csvHeaders acc m !! field
  = if String.eqb (ColumnSynonyms.field m) field
    then match find (matchesSynonym m) csvHeaders with
         | Some found => if JS.isEmpty found then acc !! field else Some found
         | None => acc !! field
         end
    else acc !! field.
Proof.
  unfold autoMapStep.
  destruct (String.eqb_spec (ColumnSynonyms.field m) field) as [->|Hne];
    destruct (find (matchesSynonym m) csvHeaders) as [found|]; try done;
    destruct (JS.isEmpty found); try done.
  - apply lookup_insert_eq.
  - by apply lookup_insert_ne.
Qed.

Lemma matchesSynonym_nonempty m h :
  Forall (fun syn => syn <> EmptyString) (ColumnSynonyms.synonyms m) ->
  matchesSynonym m h = true -> h <> EmptyString.
Proof.
  unfold matchesSynonym. intros Hsyn Hm ->.
  apply existsb_exists in Hm as (syn & Hin & Hinc).
  rewrite List.Forall_forall in Hsyn. specialize (Hsyn syn Hin).
  destruct syn; [done|]. done.
Qed.

Lemma autoMapping_skip csvHeaders ms acc field :
  Forall (fun m => ColumnSynonyms.field m <> field) ms ->
  fold_left (autoMapStep csvHeaders) ms acc !! field = acc !! field.
Proof.
  intros H. revert acc. induction H as [|m ms Hm _ IH]; intros acc; cbn [fold_left];
    [done|].
  rewrite IH, autoMapStep_lookup.
  by destruct (String.eqb_spec (ColumnSynonyms.field m) field).
Qed.

(** What the mapping holds for the field of [m], when no other entry of the
    list is about that field. *)
Lemma autoMappingWith_lookup csvHeaders before m after :
  Forall (fun x => ColumnSynonyms.field x <> ColumnSynonyms.field m) before ->
  Forall (fun x => ColumnSynonyms.field x <> ColumnSynonyms.field m) after ->
  autoMappingWith (before ++ m :: after) csvHeaders !! ColumnSynonyms.field m
  = match find (matchesSynonym m) csvHeaders with
    | Some found => if JS.isEmpty found then None else Some found
    | None => None
    end.
Proof.
  intros Hb Ha. unfold autoMappingWith. rewrite fold_left_app. cbn [fold_left].
  rewrite (autoMapping_skip _ _ _ _ Ha), autoMapStep_lookup, String.eqb_refl.
  rewrite (autoMapping_skip _ _ _ _ Hb), lookup_empty.
  destruct (find (matchesSynonym m) csvHeaders) as [found|]; [|done].
  by destruct (JS.isEmpty found).
Qed.

(** X25. The automatic column mapping gives a field the first header, in
    the order of the file, that contains one of the field's synonyms in
    any letter case.  Every synonym of the source port field contains the
    word "port", which is a synonym of the destination port field: so
    whenever a source port column is recognised, the destination port field
    is mapped too, to that column or to a column before it.  In a file
    whose 'Source Port' column stands before its 'Destination Port' column
    both fields are mapped to 'Source Port'. *)
Theorem auto_mapping_of_port_columns (csvHeaders : list string) (h : string) :
  autoMapping csvHeaders !! "sourcePort" = Some h ->
  exists h' i j,
    autoMapping csvHeaders !! "destinationPort" = Some h'
    /\ csvHeaders !! i = Some h' /\ csvHeaders !! j = Some h /\ (i <= j)%nat
    /\ JSText.includes (JS.toLowerCase h') "port" = true.
Proof.
  set (sp := ColumnSynonyms.mk "sourcePort" ["source port"; "src port"; "sport"]).
  set (dp := ColumnSynonyms.mk "destinationPort"
               ["destination port"; "dest port"; "dport"; "service port"; "port"]).
  unfold autoMapping.
  change (autoMappingWith DEFAULT_MAPPINGS csvHeaders !! "sourcePort")
    with (autoMappingWith (take 4 DEFAULT_MAPPINGS ++ sp :: drop 5 DEFAULT_MAPPINGS)
            csvHeaders !! ColumnSynonyms.field sp).
  change (autoMappingWith DEFAULT_MAPPINGS csvHeaders !! "destinationPort")
    with (autoMappingWith (take 5 DEFAULT_MAPPINGS ++ dp :: drop 6 DEFAULT_MAPPINGS)
            csvHeaders !! ColumnSynonyms.field dp).
  rewrite !autoMappingWith_lookup by (repeat constructor; discriminate).
  destruct (find (matchesSynonym sp) csvHeaders) as [found|] eqn:Hsp; [|done].
  destruct (find_weaker _ (matchesSynonym dp) _ _ source_port_header_is_port_header Hsp)
    as (y & i & j & Hy & Hi & Hj & Hij).
  assert (Hmy : matchesSynonym dp y = true) by (by apply find_some in Hy as [_ Hm]).
  assert (Hyne : y <> EmptyString).
  { apply (matchesSynonym_nonempty dp); [|done]. by repeat constructor. }
  destruct found as [|c0 found0]; [done|]. cbn [JS.isEmpty].
  intros [= <-]. rewrite Hy. destruct y as [|c1 y1]; [done|]. cbn [JS.isEmpty].
  exists (String c1 y1), i, j. split_and!; try done.
  unfold matchesSynonym, dp in Hmy. cbn [ColumnSynonyms.synonyms existsb] in Hmy.
  rewrite !orb_true_iff in Hmy.
  destruct Hmy as [H|[H|[H|[H|[H|H]]]]]; try discriminate H;
    apply (includes_trans _ _ _ H); by vm_compute.
Qed.

Lemma auto_mapping_of_port_columns_witness :
  let csvHeaders :=
    ["Rule ID"; "Source"; "Destination"; "Source Port"; "Destination Port"; "Action"] in
  exists h' i j,
    autoMapping csvHeaders !! "destinationPort" = Some h'
    /\ csvHeaders !! i = Some h' /\ csvHeaders !! j = Some "Source Port"
    /\ (i <= j)%nat
    /\ JSText.includes (JS.toLowerCase h') "port" = true.
Proof.
  intros csvHeaders.
  apply (auto_mapping_of_port_columns csvHeaders "Source Port").
  by vm_compute.
Defined.
